(** * UDD_to_Code_gen: section splitting and Markdown-to-docx assembly

    A shallow embedding of the two text pipelines of the repository:

    - [split_sections] of [app/generator1.py] (and its variants in
      [app/generator3.py] and [app/generator4.py]): three [re.sub] passes,
      one [re.split] and a walk that fills an insertion-ordered dict;
    - [generate_doc] of [app/docx_writer.py]: a line-by-line loop over the
      input text that drives a python-docx [Document].

    Python [str] values are modelled as [string]; a character is a code
    point below 256, and the tables of Python's whitespace and line
    boundaries are the ones of that range.  Python sets of strings are
    [gset string], the result dict of [split_sections] is an association
    list in insertion order, and the python-docx document is the list of the
    blocks appended to it.  A call that can raise returns a [res].  The
    regular expressions are written with backtracking combinators that
    follow the [re] module; [json.loads] is a parameter of
    [split_sections].

    The callers of [split_sections] are embedded as well:
    [process_payload_and_generate_abap] and [assemble_program] of
    [app/generator1.py] and [generate_full_abap_program] of
    [app/generator3.py], with the call of the language model as a
    parameter. *)

From Stdlib Require Import Strings.String Strings.Ascii.
From stdpp Require Import base option list gmap strings.

(** ** Python string methods *)

Module PyStr.

Definition LF : ascii := ascii_of_nat 10.
Definition CR : ascii := ascii_of_nat 13.

(** [str.isspace] on one character: U+0009..U+000D, U+001C..U+001F,
    U+0020, U+0085 and U+00A0.  The same set is [\s] of [re] on [str]. *)
Definition is_space (c : ascii) : bool :=
  let n := nat_of_ascii c in
  (((9 <=? n) && (n <=? 13)) || ((28 <=? n) && (n <=? 32))
   || (n =? 133) || (n =? 160))%nat.

(** Line boundaries of [str.splitlines] other than the pair CR LF:
    LF, VT, FF, CR, FS, GS, RS and NEL. *)
Definition is_linebreak (c : ascii) : bool :=
  let n := nat_of_ascii c in
  (((10 <=? n) && (n <=? 13)) || ((28 <=? n) && (n <=? 30))
   || (n =? 133))%nat.

Definition is_digit (c : ascii) : bool :=
  let n := nat_of_ascii c in ((48 <=? n) && (n <=? 57))%nat.

Definition is_alpha (c : ascii) : bool :=
  let n := nat_of_ascii c in
  (((65 <=? n) && (n <=? 90)) || ((97 <=? n) && (n <=? 122)))%nat.

Definition is_empty (s : string) : bool :=
  match s with EmptyString => true | String _ _ => false end.

(** [s.lstrip(chars)], [s.rstrip(chars)] and [s.strip(chars)], the
    character set given as a predicate. *)
Fixpoint lstrip_chars (p : ascii -> bool) (s : string) : string :=
  match s with
  | String c s' => if p c then lstrip_chars p s' else s
  | EmptyString => EmptyString
  end.

Fixpoint rstrip_chars (p : ascii -> bool) (s : string) : string :=
  match s with
  | String c s' =>
      let r := rstrip_chars p s' in
      if is_empty r && p c then EmptyString else String c r
  | EmptyString => EmptyString
  end.

Definition strip_chars (p : ascii -> bool) (s : string) : string :=
  rstrip_chars p (lstrip_chars p s).

(** [s.strip()] *)
Definition strip (s : string) : string := strip_chars is_space s.

(** [s.startswith(p)] *)
Definition startswith (s p : string) : bool := String.prefix p s.

(** [s.split(sep)] for a separator of one character. *)
Fixpoint split_on (sep : ascii) (s : string) : list string :=
  match s with
  | EmptyString => [EmptyString]
  | String c s' =>
      if Ascii.eqb c sep then EmptyString :: split_on sep s'
      else match split_on sep s' with
           | x :: xs => String c x :: xs
           | [] => [String c EmptyString]
           end
  end.

(** [s.splitlines()]: the line in progress is [cur]; no empty last line
    is produced after a final boundary. *)
Fixpoint splitlines_from (cur : string) (s : string) : list string :=
  match s with
  | EmptyString => if is_empty cur then [] else [cur]
  | String c s' =>
      if Ascii.eqb c CR then
        match s' with
        | String c' s'' =>
            if Ascii.eqb c' LF then cur :: splitlines_from EmptyString s''
            else cur :: splitlines_from EmptyString s'
        | EmptyString => [cur]
        end
      else if is_linebreak c then cur :: splitlines_from EmptyString s'
      else splitlines_from (cur +:+ String c EmptyString) s'
  end.

Definition splitlines (s : string) : list string :=
  splitlines_from EmptyString s.

(** [sep.join(parts)] *)
Fixpoint join (sep : string) (parts : list string) : string :=
  match parts with
  | [] => EmptyString
  | [x] => x
  | x :: xs => x +:+ sep +:+ join sep xs
  end.

(** [s[:len(s) - len(rest)]]: the text consumed between a position and a
    later one of the same string. *)
Definition consumed (s rest : string) : string :=
  String.substring 0 (String.length s - String.length rest) s.

End PyStr.

(** ** Backtracking matchers

    A pattern is written in continuation-passing style: each combinator
    takes the text that is left and the rest of the pattern, and the first
    alternative that lets the rest succeed wins, as in the [re] module.
    A greedy repetition tries the longest run first, a lazy one the
    shortest. *)

Module Re.
Import PyStr.

Section Combinators.
Context {A : Type}.

(** a literal string *)
Fixpoint lit (p : string) (s : string) (k : string -> option A)
  : option A :=
  match p with
  | EmptyString => k s
  | String c p' =>
      match s with
      | String d s' => if Ascii.eqb c d then lit p' s' k else None
      | EmptyString => None
      end
  end.

(** one character of a class *)
Definition one (p : ascii -> bool) (s : string)
  (k : string -> option A) : option A :=
  match s with
  | String c s' => if p c then k s' else None
  | EmptyString => None
  end.

(** [c*], greedy *)
Fixpoint star (p : ascii -> bool) (s : string)
  (k : string -> option A) : option A :=
  match s with
  | String c s' =>
      if p c then
        match star p s' k with
        | Some r => Some r
        | None => k s
        end
      else k s
  | EmptyString => k s
  end.

(** [c+], greedy *)
Definition plus (p : ascii -> bool) (s : string)
  (k : string -> option A) : option A :=
  one p s (fun s' => star p s' k).

(** [c*?], lazy *)
Fixpoint lazy_star (p : ascii -> bool) (s : string)
  (k : string -> option A) : option A :=
  match k s with
  | Some r => Some r
  | None =>
      match s with
      | String c s' => if p c then lazy_star p s' k else None
      | EmptyString => None
      end
  end.

(** [c+?], lazy *)
Definition lazy_plus (p : ascii -> bool) (s : string)
  (k : string -> option A) : option A :=
  one p s (fun s' => lazy_star p s' k).

(** [c?], greedy *)
Definition opt (p : ascii -> bool) (s : string)
  (k : string -> option A) : option A :=
  match s with
  | String c s' =>
      if p c then
        match k s' with
        | Some r => Some r
        | None => k s
        end
      else k s
  | EmptyString => k s
  end.

(** [$] without the MULTILINE flag: the end of the text, or just before
    a line feed that ends it. *)
Definition eos (s : string) (k : string -> option A) : option A :=
  match s with
  | EmptyString => k s
  | String c EmptyString => if Ascii.eqb c LF then k s else None
  | _ => None
  end.
End Combinators.

(** character classes *)
Definition chr (c : ascii) : ascii -> bool := Ascii.eqb c.
(** [.] without the DOTALL flag *)
Definition dot (c : ascii) : bool := negb (Ascii.eqb c LF).
(** [[A-Za-z ]] *)
Definition title_char (c : ascii) : bool := is_alpha c || Ascii.eqb c " ".

(** The scan shared by [re.sub], [re.split] and [re.finditer]: the text is
    walked from left to right; [try prev s] attempts a match at the
    position where [s] starts ([prev] is the character before it, for a
    lookbehind) and gives what the match yields and its length.  The
    characters of a match are skipped, the others are kept one by one, and
    the search resumes where the match ended.  Every pattern of this
    program matches at least one character (see [ReFacts]). *)
Inductive piece (M : Type) :=
  | Kept (c : ascii)
  | Hit (m : M).
Arguments Kept {M} c.
Arguments Hit {M} m.

Fixpoint scan {M} (try : option ascii -> string -> option (M * nat))
    (prev : option ascii) (skip : nat) (s : string) : list (piece M) :=
  match s with
  | EmptyString => []
  | String c s' =>
      match skip with
      | S n => scan try (Some c) n s'
      | O =>
          match try prev s with
          | Some (m, len) => Hit m :: scan try (Some c) (len - 1) s'
          | None => Kept c :: scan try (Some c) 0 s'
          end
      end
  end.

(** [re.sub(pattern, repl, s)], [repl] computed from the match *)
Fixpoint sub_pieces {M} (repl : M -> string) (ps : list (piece M))
  : string :=
  match ps with
  | [] => EmptyString
  | Kept c :: ps' => String c (sub_pieces repl ps')
  | Hit m :: ps' => repl m +:+ sub_pieces repl ps'
  end.

Definition sub {M} (try : option ascii -> string -> option (M * nat))
    (repl : M -> string) (s : string) : string :=
  sub_pieces repl (scan try None 0 s).

(** [re.split(pattern, s)] for a pattern with one group around the whole
    match: text, match, text, ..., match, text. *)
Fixpoint split_pieces (cur : string) (ps : list (piece string))
  : list string :=
  match ps with
  | [] => [cur]
  | Kept c :: ps' => split_pieces (cur +:+ String c EmptyString) ps'
  | Hit m :: ps' => cur :: m :: split_pieces EmptyString ps'
  end.

Definition split (try : option ascii -> string -> option (string * nat))
    (s : string) : list string :=
  split_pieces EmptyString (scan try None 0 s).

End Re.

(** ** Python exceptions and values *)

Inductive pyerr :=
  | ValueError | JSONDecodeError | AttributeError | TypeError
  | KeyError | IndexError.

(** A call either returns or raises. *)
Inductive res (A : Type) :=
  | Ok (a : A)
  | Raise (e : pyerr).
Arguments Ok {A} a.
Arguments Raise {A} e.

#[global] Instance res_bind : MBind res := fun A B f r =>
  match r with
  | Ok a => f a
  | Raise e => Raise e
  end.

Definition raises {A} (r : res A) : Prop := exists e, r = Raise e.

(** The values a payload can be: a [str], a [dict] with string keys, or
    anything else (a number, a list, [None], ...). *)
#[warnings="-register-all"] Inductive pyval :=
  | VStr (s : string)
  | VDict (d : list (string * pyval))
  | VOther.

(** ** Insertion-ordered dicts with string keys *)

Module PyDict.
Section Dict.
Context {V : Type}.

(** [d.get(k)] *)
Fixpoint lookup (k : string) (d : list (string * V)) : option V :=
  match d with
  | [] => None
  | (k', v) :: d' => if String.eqb k k' then Some v else lookup k d'
  end.

(** [k in d] *)
Definition mem (k : string) (d : list (string * V)) : bool :=
  match lookup k d with Some _ => true | None => false end.

(** [d.get(k, default)] *)
Definition get (k : string) (default : V) (d : list (string * V)) : V :=
  match lookup k d with Some v => v | None => default end.

(** [d[k] = v]: an existing key keeps its place, a new one goes last. *)
Fixpoint set (k : string) (v : V) (d : list (string * V))
  : list (string * V) :=
  match d with
  | [] => [(k, v)]
  | (k', v') :: d' =>
      if String.eqb k k' then (k', v) :: d' else (k', v') :: set k v d'
  end.

Definition keys (d : list (string * V)) : list string := map fst d.
End Dict.

(** [d[k] += x] on string values; [KeyError] when [k] is missing. *)
Definition iadd (k : string) (x : string) (d : list (string * string))
  : res (list (string * string)) :=
  match lookup k d with
  | Some v => Ok (set k (v +:+ x) d)
  | None => Raise KeyError
  end.
End PyDict.

(** ** app/generator1.py, app/generator3.py, app/generator4.py *)

Module Generator.
Import PyStr Re.

(** [(?<!\n)(SECTION\s*:?\s*\d+\.)]; yields group 1 *)
Definition header_marker (prev : option ascii) (s : string)
  : option (string * nat) :=
  if bool_decide (prev = Some LF) then None else
  lit "SECTION" s (fun s1 =>
  star is_space s1 (fun s2 =>
  opt (chr ":") s2 (fun s3 =>
  star is_space s3 (fun s4 =>
  plus is_digit s4 (fun s5 =>
  one (chr ".") s5 (fun s6 =>
  Some (consumed s s6, String.length s - String.length s6))))))).

(** [SECTION\s*:?\s*\n*\s*(\d+\.\s+[A-Za-z ]+)]; yields group 1 *)
Definition header_variant (_ : option ascii) (s : string)
  : option (string * nat) :=
  lit "SECTION" s (fun s1 =>
  star is_space s1 (fun s2 =>
  opt (chr ":") s2 (fun s3 =>
  star is_space s3 (fun s4 =>
  star (chr LF) s4 (fun s5 =>
  star is_space s5 (fun g =>
  plus is_digit g (fun s6 =>
  one (chr ".") s6 (fun s7 =>
  plus is_space s7 (fun s8 =>
  plus title_char s8 (fun s9 =>
  Some (consumed g s9, String.length s - String.length s9))))))))))).

(** [(SECTION:\s*\d+\.\s+[A-Za-z ]+)]; yields group 1 *)
Definition canonical_header (_ : option ascii) (s : string)
  : option (string * nat) :=
  lit "SECTION:" s (fun s1 =>
  star is_space s1 (fun s2 =>
  plus is_digit s2 (fun s3 =>
  one (chr ".") s3 (fun s4 =>
  plus is_space s4 (fun s5 =>
  plus title_char s5 (fun s6 =>
  Some (consumed s s6, String.length s - String.length s6))))))).

Definition NL : string := String LF EmptyString.

(** the three [re.sub] passes of [split_sections], in order *)
Definition pass1 (document : string) : string :=
  sub header_marker (fun g1 => NL +:+ g1) document.

Definition pass2 (document : string) : string :=
  sub header_variant (fun g1 => "SECTION: " +:+ g1) document.

Definition pass3 (document : string) : string :=
  sub canonical_header (fun g1 => g1 +:+ NL) document.

Definition normalize (document : string) : string :=
  pass3 (pass2 (pass1 document)).

(** [if current_section:] *)
Definition truthy (current_section : option string) : bool :=
  match current_section with
  | Some s => negb (is_empty s)
  | None => false
  end.

(** One turn of the loop of generator1 over the parts of [re.split]; the
    loop state is [current_section] and [result]. *)
Definition walk_step (st : option string * list (string * string))
    (part : string) : res (option string * list (string * string)) :=
  let '(current_section, result) := st in
  let part := strip part in
  if is_empty part then Ok st
  else if startswith part "SECTION:" then
    match canonical_header None part with
    | Some (g1, _) =>
        let current_section := strip g1 in
        if PyDict.mem current_section result
        then Ok (Some current_section, result)
        else Ok (Some current_section,
                 PyDict.set current_section EmptyString result)
    | None => Ok st
    end
  else
    match current_section with
    | Some cs =>
        if truthy current_section then
          result' ← PyDict.iadd cs (strip part +:+ NL) result;
          Ok (current_section, result')
        else Ok st
    | None => Ok st
    end.

(** The same turn in generator3 and generator4: the header part itself
    is the key and its entry is assigned the empty string. *)
Definition walk_step3 (st : option string * list (string * string))
    (part : string) : res (option string * list (string * string)) :=
  let '(current_section, result) := st in
  let part := strip part in
  if is_empty part then Ok st
  else if startswith part "SECTION:" then
    Ok (Some part, PyDict.set part EmptyString result)
  else
    match current_section with
    | Some cs =>
        if truthy current_section then
          result' ← PyDict.iadd cs (strip part +:+ NL) result;
          Ok (current_section, result')
        else Ok st
    | None => Ok st
    end.

Section Walk.
Context {St : Type} (step : St -> string -> res St).

(** [for part in sections: ...] *)
Fixpoint for_each (st : St) (parts : list string) : res St :=
  match parts with
  | [] => Ok st
  | part :: parts' => st' ← step st part; for_each st' parts'
  end.
End Walk.

Definition walk (parts : list string) : res (list (string * string)) :=
  st ← for_each walk_step (None, []) parts; Ok (snd st).

Definition walk3 (parts : list string) : res (list (string * string)) :=
  st ← for_each walk_step3 (None, []) parts; Ok (snd st).

(** the body of [split_sections] once the requirement text is at hand *)
Definition split_document (document : string)
  : res (list (string * string)) :=
  walk (split canonical_header (normalize document)).

Definition split_document3 (document : string)
  : res (list (string * string)) :=
  walk3 (split canonical_header (normalize document)).

Section Payload.
(** [json.loads] of the standard library; [None] when it raises
    [json.JSONDecodeError]. *)
Variable json_loads : string -> option pyval.

(** lines 48-55 of generator1: the payload is decoded and the
    requirement text is fetched, with the empty string as default *)
Definition load_requirement (payload : pyval) : res pyval :=
  data ← match payload with
          | VStr s =>
              match json_loads s with
              | Some v => Ok v
              | None => Raise JSONDecodeError
              end
          | VDict d => Ok (VDict d)
          | VOther => Raise ValueError
          end;
  match data with
  | VDict d => Ok (PyDict.get "REQUIREMENT" (VStr EmptyString) d)
  | _ => Raise AttributeError
  end.

(** [split_sections] of generator1; [re.sub] raises [TypeError] on a
    value that is not a string *)
Definition split_sections (payload : pyval)
  : res (list (string * string)) :=
  document ← load_requirement payload;
  match document with
  | VStr text => split_document text
  | _ => Raise TypeError
  end.

(** [split_sections] of generator3; generator4 has the same passes and
    the same loop *)
Definition split_sections3 (payload : pyval)
  : res (list (string * string)) :=
  document ← load_requirement payload;
  match document with
  | VStr text => split_document3 text
  | _ => Raise TypeError
  end.
End Payload.

End Generator.

(** ** app/docx_writer.py *)

Module Docx.
Import PyStr Re.

(** What the helpers append to the python-docx document: the title set by
    [doc.add_heading(title, level=1)], and one block per call of
    [add_heading], [add_subheading], [add_paragraph] (its runs, each with
    its bold flag), [add_code_block] (the text of its run) and
    [add_markdown_table] (the cells of the header row and of each added
    row). *)
Inductive block :=
  | Title (text : string)
  | Heading (text : string)
  | Subheading (text : string)
  | Paragraph (runs : list (string * bool))
  | CodeBlock (text : string)
  | Table (hdr_cells : list string) (rows : list (list string)).

Definition NL : string := String LF EmptyString.

Definition add_heading (doc : list block) (text : string) : list block :=
  doc ++ [Heading text].

Definition add_subheading (doc : list block) (text : string)
  : list block :=
  doc ++ [Subheading text].

(** [\*\*(.+?)\*\*]; yields group 1 *)
Definition bold_pattern (_ : option ascii) (s : string)
  : option (string * nat) :=
  lit "**" s (fun s1 =>
  lazy_plus dot s1 (fun s2 =>
  lit "**" s2 (fun s3 =>
  Some (consumed s1 s2, String.length s - String.length s3)))).

(** the runs of [add_paragraph]: [text[cursor:start]] and the bold group
    for every match, then [text[cursor:]] *)
Fixpoint runs_of (cur : string) (ps : list (piece string))
  : list (string * bool) :=
  match ps with
  | [] => [(cur, false)]
  | Kept c :: ps' => runs_of (cur +:+ String c EmptyString) ps'
  | Hit g :: ps' => (cur, false) :: (g, true) :: runs_of EmptyString ps'
  end.

Definition paragraph_of (text : string) : block :=
  Paragraph (runs_of EmptyString (scan bold_pattern None 0 text)).

Definition add_paragraph (doc : list block) (text : string) : list block :=
  doc ++ [paragraph_of text].

Definition add_code_block (doc : list block) (code_lines : list string)
  : list block :=
  doc ++ [CodeBlock (join NL code_lines)].

(** [for i, v in enumerate(values): cells[i].text = v], from index [i]
    on; the cells of a row are a tuple, so an index past its end raises
    [IndexError]. *)
Fixpoint fill (i : nat) (values : list string) (cells : list string)
  : res (list string) :=
  match values with
  | [] => Ok cells
  | v :: values' =>
      if decide (i < length cells) then fill (S i) values' (<[i:=v]> cells)
      else Raise IndexError
  end.

(** [for row in rows: row_cells = table.add_row().cells; ...]: an added
    row has one empty cell per column of the table. *)
Fixpoint fill_rows (cols : nat) (rows : list (list string))
  : res (list (list string)) :=
  match rows with
  | [] => Ok []
  | row :: rows' =>
      row_cells ← fill 0 row (replicate cols EmptyString);
      rest ← fill_rows cols rows';
      Ok (row_cells :: rest)
  end.

(** [[cell for cell in row.split("|") if cell.strip()]] *)
Definition cells_of (row : string) : list string :=
  filter (fun cell => is_empty (strip cell) = false) (split_on "|" row).

Definition star_or_space (c : ascii) : bool :=
  Ascii.eqb c " " || Ascii.eqb c "*".

(** [add_markdown_table]: the first line gives the headers, the second
    is skipped, the others give the rows; [lines[0]] raises [IndexError] on
    an empty list.  [doc.add_table(rows=1, cols=len(headers))] makes a table
    of one row with one empty cell per header, which the headers fill. *)
Definition add_markdown_table (doc : list block) (lines : list string)
  : res (list block) :=
  match lines with
  | [] => Raise IndexError
  | line0 :: _ =>
      let headers := map (strip_chars star_or_space) (cells_of line0) in
      let rows := map (fun row => map strip (cells_of row)) (drop 2 lines) in
      let cols := length headers in
      hdr_cells ← fill 0 headers (replicate cols EmptyString);
      body ← fill_rows cols rows;
      Ok (doc ++ [Table hdr_cells body])
  end.

(** [^(\d+)\.\s+(.+)$]; yields groups 1 and 2 *)
Definition section_header_pattern (s : string)
  : option (string * string) :=
  plus is_digit s (fun s1 =>
  one (chr ".") s1 (fun s2 =>
  plus is_space s2 (fun s3 =>
  plus dot s3 (fun s4 =>
  eos s4 (fun _ =>
  Some (consumed s s1, consumed s3 s4)))))).

(** [^(\d+)\.(\d+)\s+(.+)$]; yields groups 1, 2 and 3 *)
Definition subheading_pattern (s : string)
  : option (string * string * string) :=
  plus is_digit s (fun s1 =>
  one (chr ".") s1 (fun s2 =>
  plus is_digit s2 (fun s3 =>
  plus is_space s3 (fun s4 =>
  plus dot s4 (fun s5 =>
  eos s5 (fun _ =>
  Some (consumed s s1, consumed s2 s3, consumed s4 s5))))))).

(** [^\|(.+?)\|$] *)
Definition table_line_pattern (s : string) : option unit :=
  one (chr "|") s (fun s1 =>
  lazy_plus dot s1 (fun s2 =>
  one (chr "|") s2 (fun s3 =>
  eos s3 (fun _ => Some tt)))).

(** The document and the local variables of [generate_doc]. *)
Record state := mkState {
  doc : list block;
  current_section : string;
  current_content : list string;
  seen_sections : gset string;
  in_code_block : bool;
  code_block_lines : list string;
  in_table : bool;
  table_lines : list string;
  known_main_sections : gset string
}.

Definition init (title : string) : state :=
  {| doc := [Title title];
     current_section := EmptyString;
     current_content := [];
     seen_sections := ∅;
     in_code_block := false;
     code_block_lines := [];
     in_table := false;
     table_lines := [];
     known_main_sections := ∅ |}.

(** the heading that [flush_section] emits: the current section, when it
    is not empty and was not emitted before *)
Definition flush_heading (st : state) : list block :=
  if negb (is_empty (current_section st))
     && bool_decide (current_section st ∉ seen_sections st)
  then [Heading (current_section st)]
  else [].

Definition flush_section (st : state) : state :=
  {| doc := doc st ++ flush_heading st
              ++ map paragraph_of (current_content st);
     current_section := current_section st;
     current_content := [];
     seen_sections :=
       if negb (is_empty (current_section st))
          && bool_decide (current_section st ∉ seen_sections st)
       then seen_sections st ∪ {[ current_section st ]}
       else seen_sections st;
     in_code_block := in_code_block st;
     code_block_lines := code_block_lines st;
     in_table := in_table st;
     table_lines := table_lines st;
     known_main_sections := known_main_sections st |}.

(** the fence branch of the loop: the flag is toggled, and a closing
    fence commits the code block *)
Definition on_fence (st : state) : state :=
  if negb (in_code_block st) then
    {| doc := doc st;
       current_section := current_section st;
       current_content := current_content st;
       seen_sections := seen_sections st;
       in_code_block := true;
       code_block_lines := code_block_lines st;
       in_table := in_table st;
       table_lines := table_lines st;
       known_main_sections := known_main_sections st |}
  else
    {| doc := add_code_block (doc st) (code_block_lines st);
       current_section := current_section st;
       current_content := current_content st;
       seen_sections := seen_sections st;
       in_code_block := false;
       code_block_lines := [];
       in_table := in_table st;
       table_lines := table_lines st;
       known_main_sections := known_main_sections st |}.

Definition on_code_line (st : state) (line : string) : state :=
  {| doc := doc st;
     current_section := current_section st;
     current_content := current_content st;
     seen_sections := seen_sections st;
     in_code_block := in_code_block st;
     code_block_lines := code_block_lines st ++ [line];
     in_table := in_table st;
     table_lines := table_lines st;
     known_main_sections := known_main_sections st |}.

Definition on_table_line (st : state) (line : string) : state :=
  {| doc := doc st;
     current_section := current_section st;
     current_content := current_content st;
     seen_sections := seen_sections st;
     in_code_block := in_code_block st;
     code_block_lines := code_block_lines st;
     in_table := true;
     table_lines := table_lines st ++ [line];
     known_main_sections := known_main_sections st |}.

(** a line that is no table row while [in_table]: the section is
    flushed, the table committed, and the loop goes on to the next line *)
Definition on_table_end (st : state) : res state :=
  let st := flush_section st in
  doc' ← add_markdown_table (doc st) (table_lines st);
  Ok {| doc := doc';
        current_section := current_section st;
        current_content := current_content st;
        seen_sections := seen_sections st;
        in_code_block := in_code_block st;
        code_block_lines := code_block_lines st;
        in_table := false;
        table_lines := [];
        known_main_sections := known_main_sections st |}.

Definition on_main_section (st : state) (number title : string) : state :=
  let st := flush_section st in
  {| doc := doc st;
     current_section := number +:+ ". " +:+ title;
     current_content := current_content st;
     seen_sections := seen_sections st;
     in_code_block := in_code_block st;
     code_block_lines := code_block_lines st;
     in_table := in_table st;
     table_lines := table_lines st;
     known_main_sections := known_main_sections st ∪ {[ number ]} |}.

Definition auto_title (main_number : string) : string :=
  main_number +:+ ". (Auto) Section".

Definition on_subsection (st : state)
    (main_number sub_number sub_title : string) : state :=
  let st := flush_section st in
  let insert :=
    bool_decide (main_number ∉ known_main_sections st)
    && bool_decide (auto_title main_number ∉ seen_sections st) in
  let subheading_text := main_number +:+ "." +:+ sub_number +:+ " " +:+ sub_title in
  {| doc :=
       add_subheading
         (if insert then add_heading (doc st) (auto_title main_number)
          else doc st)
         subheading_text;
     current_section := current_section st;
     current_content := current_content st;
     seen_sections :=
       if insert then seen_sections st ∪ {[ auto_title main_number ]}
       else seen_sections st;
     in_code_block := in_code_block st;
     code_block_lines := code_block_lines st;
     in_table := in_table st;
     table_lines := table_lines st;
     known_main_sections :=
       if insert then known_main_sections st ∪ {[ main_number ]}
       else known_main_sections st |}.

Definition on_content (st : state) (line : string) : state :=
  {| doc := doc st;
     current_section := current_section st;
     current_content := current_content st ++ [line];
     seen_sections := seen_sections st;
     in_code_block := in_code_block st;
     code_block_lines := code_block_lines st;
     in_table := in_table st;
     table_lines := table_lines st;
     known_main_sections := known_main_sections st |}.

(** the body of [for line in lines:]; the lines of [str.splitlines] are
    strings, so the [bytes] branch is never taken *)
Definition step (st : state) (line : string) : res state :=
  let line := strip line in
  if is_empty line then Ok st
  else if startswith line "```" then Ok (on_fence st)
  else if in_code_block st then Ok (on_code_line st line)
  else if bool_decide (is_Some (table_line_pattern line))
  then Ok (on_table_line st line)
  else if in_table st then on_table_end st
  else
    match section_header_pattern line with
    | Some (number, title) => Ok (on_main_section st number title)
    | None =>
        match subheading_pattern line with
        | Some (main_number, sub_number, sub_title) =>
            Ok (on_subsection st main_number sub_number sub_title)
        | None => Ok (on_content st line)
        end
    end.

Fixpoint run (st : state) (lines : list string) : res state :=
  match lines with
  | [] => Ok st
  | line :: lines' => st' ← step st line; run st' lines'
  end.

(** [generate_doc] up to [doc.save]: the document that is saved *)
Definition generate_lines (lines : list string) (title : string)
  : res (list block) :=
  st ← run (init title) lines;
  Ok (doc (flush_section st)).

Definition generate_doc (ts_text : string) (title : string)
  : res (list block) :=
  generate_lines (splitlines ts_text) title.

End Docx.

(** ** Predicates used by the statements *)

Module Spec.
Import PyStr.

(** every character of [s] satisfies [p] *)
Fixpoint all_chars (p : ascii -> bool) (s : string) : bool :=
  match s with
  | EmptyString => true
  | String c s' => p c && all_chars p s'
  end.

(** The state of the walk of generator1 is consistent: no key occurs
    twice and the current section, once set, is a key. *)
Definition walk_inv (st : option string * list (string * string)) : Prop :=
  NoDup (PyDict.keys (snd st)) /\
  match fst st with
  | Some cs => PyDict.mem cs (snd st) = true
  | None => True
  end.

(** [r'] keeps the keys of [r] in their places, adds new keys after them,
    and only lengthens the bodies. *)
Definition extends (r r' : list (string * string)) : Prop :=
  PyDict.keys r `prefix_of` PyDict.keys r' /\
  forall k v, PyDict.lookup k r = Some v ->
              exists w, PyDict.lookup k r' = Some (v +:+ w).

(** the text holds no occurrence of the word SECTION *)
Definition no_section (x : string) : Prop :=
  forall a b, x = a +:+ b -> startswith b "SECTION" = false.

(** [t in x] *)
Fixpoint occurs (t x : string) : bool :=
  startswith x t
  || match x with
     | String _ x' => occurs t x'
     | EmptyString => false
     end.

Definition is_hit {M} (p : Re.piece M) : bool :=
  match p with Re.Hit _ => true | Re.Kept _ => false end.

(** the number of matches that a scan found *)
Definition hits {M} (ps : list (Re.piece M)) : nat :=
  length (filter (fun p => is_hit p = true) ps).

(** the number of canonical headers that the third pass finds in a text *)
Definition headers_found (y : string) : nat :=
  hits (Re.scan Generator.canonical_header None 0 y).

(** [b] is [a] with line feeds put in: every character of [a] is in [b],
    in its place in the order, and what [b] holds besides is line feeds *)
Inductive lf_inserted : string -> string -> Prop :=
  | lf_end : lf_inserted EmptyString EmptyString
  | lf_keep c a b : lf_inserted a b -> lf_inserted (String c a) (String c b)
  | lf_put a b : lf_inserted a b -> lf_inserted a (String LF b).

(** the payload is a dict, or a string that [json_loads] decodes to one *)
Definition object_payload (json_loads : string -> option pyval)
    (payload : pyval) : Prop :=
  match payload with
  | VDict _ => True
  | VStr s => exists d, json_loads s = Some (VDict d)
  | VOther => False
  end.

(** the value fetched as requirement text, if any, is a string *)
Definition requirement_is_text (json_loads : string -> option pyval)
    (payload : pyval) : Prop :=
  forall v, Generator.load_requirement json_loads payload = Ok v ->
            exists text, v = VStr text.

(** The failures of the decoding of the payload (lines 48-55 of
    generator1): the explicit [ValueError], the [JSONDecodeError] of
    [json.loads], and the [AttributeError] of [.get] on a decoded value
    that is no dict. *)
Definition InvalidPayload (e : pyerr) : Prop :=
  e = ValueError \/ e = JSONDecodeError \/ e = AttributeError.

(** the texts of the [Heading] blocks of a document, in order *)
Fixpoint headings (doc : list Docx.block) : list string :=
  match doc with
  | [] => []
  | Docx.Heading t :: doc' => t :: headings doc'
  | _ :: doc' => headings doc'
  end.

Definition is_paragraph (b : Docx.block) : bool :=
  match b with Docx.Paragraph _ => true | _ => false end.

(** the paragraphs of a document, in order *)
Definition paragraphs (doc : list Docx.block) : list Docx.block :=
  filter (fun b => is_paragraph b = true) doc.

(** the paragraphs that a state accounts for: those in the document, then
    one for each line of the pending content *)
Definition accounted (st : Docx.state) : list Docx.block :=
  paragraphs (Docx.doc st) ++ map Docx.paragraph_of (Docx.current_content st).

(** the lines that the loop of [generate_doc] looks at: stripped, and
    not blank *)
Definition stripped_lines (lines : list string) : list string :=
  filter (fun l => is_empty l = false) (map strip lines).

(** a line that opens or closes a fenced block *)
Definition is_fence (line : string) : bool :=
  startswith (strip line) "```".

(** a line that reaches [current_content.append(line)] when the loop is
    neither in a code block nor in a table *)
Definition is_plain (line : string) : bool :=
  let l := strip line in
  negb (is_empty l) && negb (startswith l "```")
  && negb (bool_decide (is_Some (Docx.table_line_pattern l)))
  && negb (bool_decide (is_Some (Docx.section_header_pattern l)))
  && negb (bool_decide (is_Some (Docx.subheading_pattern l))).

(** What the loop of [generate_doc] maintains: every heading text is in
    the document once, [seen_sections] is the set of these texts, a
    pending section title starts with a known number, and the number of a
    placeholder title that was emitted is known. *)
Record doc_inv (st : Docx.state) : Prop := {
  inv_nodup : NoDup (headings (Docx.doc st));
  inv_seen : forall t, t ∈ Docx.seen_sections st <-> t ∈ headings (Docx.doc st);
  inv_current :
    Docx.current_section st = EmptyString \/
    exists number title,
      Docx.current_section st = number +:+ ". " +:+ title /\
      all_chars is_digit number = true /\
      number ∈ Docx.known_main_sections st;
  inv_auto : forall n,
    all_chars is_digit n = true ->
    Docx.auto_title n ∈ Docx.seen_sections st ->
    n ∈ Docx.known_main_sections st
}.

(** The reading of "appended verbatim" that the code does not meet: a
    line met inside a code block, other than a fence, goes to the buffer
    as it is. *)
Definition verbatim_in_code_block : Prop :=
  forall st line,
    Docx.in_code_block st = true -> is_fence line = false ->
    Docx.step st line = Ok (Docx.on_code_line st line).

(** [st] with [ls] added at the end of the code buffer *)
Definition append_code (st : Docx.state) (ls : list string) : Docx.state :=
  {| Docx.doc := Docx.doc st;
     Docx.current_section := Docx.current_section st;
     Docx.current_content := Docx.current_content st;
     Docx.seen_sections := Docx.seen_sections st;
     Docx.in_code_block := Docx.in_code_block st;
     Docx.code_block_lines := Docx.code_block_lines st ++ ls;
     Docx.in_table := Docx.in_table st;
     Docx.table_lines := Docx.table_lines st;
     Docx.known_main_sections := Docx.known_main_sections st |}.

(** [st] with [ls] added at the end of the pending content *)
Definition append_content (st : Docx.state) (ls : list string)
  : Docx.state :=
  {| Docx.doc := Docx.doc st;
     Docx.current_section := Docx.current_section st;
     Docx.current_content := Docx.current_content st ++ ls;
     Docx.seen_sections := Docx.seen_sections st;
     Docx.in_code_block := Docx.in_code_block st;
     Docx.code_block_lines := Docx.code_block_lines st;
     Docx.in_table := Docx.in_table st;
     Docx.table_lines := Docx.table_lines st;
     Docx.known_main_sections := Docx.known_main_sections st |}.

(** a data row that [fill] pads to the width of the table *)
Definition pad (cols : nat) (row : list string) : list string :=
  row ++ replicate (cols - length row) EmptyString.

End Spec.

(** ** app/docx_writer.py: the public functions *)

Module DocxApi.
Import Docx.

(** [create_functional_spec_docx] and [create_technical_spec_docx]: the
    document of [generate_doc] under a fixed title *)
Definition create_functional_spec_docx (fs_text : string)
  : res (list block) :=
  generate_doc fs_text "FUNCTIONAL SPECIFICATION".

Definition create_technical_spec_docx (ts_text : string)
  : res (list block) :=
  generate_doc ts_text "TECHNICAL SPECIFICATION".

End DocxApi.

(** ** Predicates on documents *)

Module Layout.
Import PyStr.

(** the Markdown text that a list of runs stands for: a bold run is set
    between two pairs of asterisks *)
Fixpoint markdown_of (runs : list (string * bool)) : string :=
  match runs with
  | [] => EmptyString
  | (t, true) :: runs' => "**" +:+ t +:+ "**" +:+ markdown_of runs'
  | (t, false) :: runs' => t +:+ markdown_of runs'
  end.

(** plain and bold runs alternate, the first and the last run are plain,
    and no bold run is empty *)
Fixpoint alternating (runs : list (string * bool)) : bool :=
  match runs with
  | [(_, false)] => true
  | (_, false) :: (g, true) :: runs' => negb (is_empty g) && alternating runs'
  | _ => false
  end.

(** [s[n:]] *)
Fixpoint drop_chars (n : nat) (s : string) : string :=
  match n, s with
  | S n', String _ s' => drop_chars n' s'
  | _, _ => s
  end.

Definition is_title (b : Docx.block) : bool :=
  match b with Docx.Title _ => true | _ => false end.

Definition is_code_block (b : Docx.block) : bool :=
  match b with Docx.CodeBlock _ => true | _ => false end.

(** the number of code blocks of a document *)
Definition code_blocks (doc : list Docx.block) : nat :=
  length (filter (fun b => is_code_block b = true) doc).

(** the number of fence lines among the lines of a text *)
Definition fences (lines : list string) : nat :=
  length (filter (fun l => Spec.is_fence l = true) lines).

(** A character that python-docx takes in the text of a run, of a heading
    or of a cell: a tab, a line feed, a carriage return, or a character
    that is no control character.  The text goes to lxml, which raises
    [ValueError] on a control character that XML does not allow; the
    helpers of [Docx] stand for the calls on texts of the characters
    below. *)
Definition docx_char (c : ascii) : bool :=
  let n := nat_of_ascii c in
  (n =? 9) || (n =? 10) || (n =? 13)
  || ((32 <=? n) && (n <=? 126)) || (160 <=? n).

(** a text that python-docx takes: every character is a [docx_char] *)
Definition docx_text (s : string) : Prop :=
  Spec.all_chars docx_char s = true.

(** a line that is no row of a table *)
Definition no_table_row (line : string) : Prop :=
  Docx.table_line_pattern (strip line) = None.

(** every subheading of the document stands after a heading that starts
    with the main number of the subheading, a dot and a space *)
Definition under_heading (doc : list Docx.block) : Prop :=
  forall pre t post,
    doc = pre ++ Docx.Subheading t :: post ->
    exists main,
      Spec.all_chars is_digit main = true /\
      startswith t (main +:+ ".") = true /\
      exists h, h ∈ Spec.headings pre /\ startswith h (main +:+ ". ") = true.

(** a line that is not blank, no fence and no row of a table *)
Definition closes_table (line : string) : Prop :=
  is_empty (strip line) = false /\ Spec.is_fence line = false /\
  no_table_row line.

(** the state with another document *)
Definition with_doc (d : list Docx.block) (st : Docx.state) : Docx.state :=
  {| Docx.doc := d;
     Docx.current_section := Docx.current_section st;
     Docx.current_content := Docx.current_content st;
     Docx.seen_sections := Docx.seen_sections st;
     Docx.in_code_block := Docx.in_code_block st;
     Docx.code_block_lines := Docx.code_block_lines st;
     Docx.in_table := Docx.in_table st;
     Docx.table_lines := Docx.table_lines st;
     Docx.known_main_sections := Docx.known_main_sections st |}.

(** the document under another title *)
Definition retitle (title : string) (d : list Docx.block)
  : list Docx.block :=
  Docx.Title title :: tail d.

Definition is_subheading (b : Docx.block) : bool :=
  match b with Docx.Subheading _ => true | _ => false end.

(** What the loop of [generate_doc] maintains for the numbers of
    [known_main_sections]: each of them is the number of a heading of the
    document, or of the section title that is pending. *)
Definition covered (st : Docx.state) : Prop :=
  forall n, n ∈ Docx.known_main_sections st ->
    (exists h, h ∈ Spec.headings (Docx.doc st)
               /\ startswith h (n +:+ ". ") = true)
    \/ startswith (Docx.current_section st) (n +:+ ". ") = true.

(** a table whose rows all have as many cells as its header row *)
Definition rectangular (b : Docx.block) : Prop :=
  match b with
  | Docx.Table hdr_cells rows =>
      Forall (fun row => length row = length hdr_cells) rows
  | _ => True
  end.

End Layout.

(** ** app/generator1.py: the section-wise generation *)

Module Program.
Import PyStr Generator.

Definition ABAP_SECTIONS : list string :=
  ["global_declaration"; "selection_screen"; "processing_logic";
   "output_display"].

Definition DEFAULT_UDD_MAPPING : list (string * list string) :=
  [("selection_screen", ["SECTION: 4. User Interface"]);
   ("global_declaration",
    ["SECTION: 4. User Interface"; "SECTION: 5. Technical Architecture"]);
   ("processing_logic",
    ["SECTION: 1. Purpose"; "SECTION: 2. Scope";
     "SECTION: 3. Functional Requirements";
     "SECTION: 4. User Interface"; "SECTION: 5. Technical Architecture";
     "SECTION: 6. Error Handling"; "SECTION: 7. Performance Notes";
     "SECTION: 8. Authorization";
     "SECTION: 9. Sample Report Output Layouts";
     "SECTION: 10. Unit Test Plan"]);
   ("output_display",
    ["SECTION: 4. User Interface"; "SECTION: 5. Technical Architecture";
     "SECTION: 6. Error Handling"; "SECTION: 7. Performance Notes";
     "SECTION: 9. Sample Report Output Layouts";
     "SECTION: 10. Unit Test Plan"])].

(** the separator of the joins, two line feeds *)
Definition NL2 : string := NL +:+ NL.

(** the value stored for a section without requirements *)
Definition no_requirements_found : string :=
  "[Error: No requirements found]".

(** [udd_mapping or DEFAULT_UDD_MAPPING]: [None] and the empty dict are
    false *)
Definition mapping_or_default (default : list (string * list string))
    (udd_mapping : option (list (string * list string)))
  : list (string * list string) :=
  match udd_mapping with
  | None | Some [] => default
  | Some m => m
  end.

(** [[sections_dict.get(sec, "") for sec in mapped_sections
      if sec in sections_dict]] *)
Definition present_bodies (sections_dict : list (string * string))
    (mapped_sections : list string) : list string :=
  map (fun sec => PyDict.get sec EmptyString sections_dict)
      (filter (fun sec => PyDict.mem sec sections_dict = true)
              mapped_sections).

Definition combined_requirements (sections_dict : list (string * string))
    (mapped_sections : list string) : string :=
  join NL2 (present_bodies sections_dict mapped_sections).

(** the code of the earlier sections that is handed on, lines 116-125 *)
Definition context_parts (abap_section : string)
    (abap_result : list (string * string)) : list string :=
  if String.eqb abap_section "selection_screen" then
    [PyDict.get "global_declaration" EmptyString abap_result]
  else if String.eqb abap_section "processing_logic" then
    [PyDict.get "global_declaration" EmptyString abap_result;
     PyDict.get "selection_screen" EmptyString abap_result]
  else if String.eqb abap_section "output_display" then
    [PyDict.get "global_declaration" EmptyString abap_result;
     PyDict.get "selection_screen" EmptyString abap_result;
     PyDict.get "processing_logic" EmptyString abap_result]
  else [].

(** ["\n\n".join([c for c in context_parts if c])] *)
Definition context_code (context_parts : list string) : string :=
  join NL2 (filter (fun c => is_empty c = false) context_parts).

(** [s.replace(old, new)] for strings of one character *)
Fixpoint replace_char (old new : ascii) (s : string) : string :=
  match s with
  | EmptyString => EmptyString
  | String c s' =>
      String (if Ascii.eqb c old then new else c) (replace_char old new s')
  end.

(** the f-string of lines 129-143 *)
Definition prompt_of (abap_section context_code combined_requirements
    : string) : string :=
  NL +:+ "You are an expert ABAP developer." +:+ NL +:+
  "Generate ONLY the **" +:+ replace_char "_" " " abap_section +:+
  "** part of the ABAP program." +:+ NL +:+
  NL +:+
  "Rules:" +:+ NL +:+
  "- Do NOT include REPORT statement." +:+ NL +:+
  "- Do NOT include unrelated sections." +:+ NL +:+
  "- Only return ABAP code for this section." +:+ NL +:+
  "- No explanations, only ABAP code." +:+ NL +:+
  NL +:+
  (if negb (is_empty context_code)
   then "Here is the code from previous sections:" +:+ NL +:+ context_code
   else EmptyString) +:+ NL +:+
  NL +:+
  "Requirements:" +:+ NL +:+
  combined_requirements +:+ NL.

Section Llm.
(** [json.loads], as in [split_sections] *)
Variable json_loads : string -> option pyval.
(** [llm.invoke(prompt)] and the text of its answer, [response.content] or
    [str(response)]: the answer to the call number [n] (from 0) with the
    given prompt.  A call that fails is not modelled. *)
Variable llm_invoke : nat -> string -> string.

(** The body of [for abap_section in ABAP_SECTIONS:]; the state is
    [abap_result] and the prompts sent so far, in order. *)
Definition section_step (udd_mapping : list (string * list string))
    (sections_dict : list (string * string))
    (st : list (string * string) * list string) (abap_section : string)
  : list (string * string) * list string :=
  let '(abap_result, prompts) := st in
  let mapped_sections := PyDict.get abap_section [] udd_mapping in
  let combined := combined_requirements sections_dict mapped_sections in
  if is_empty combined then
    (PyDict.set abap_section no_requirements_found abap_result, prompts)
  else
    let code := context_code (context_parts abap_section abap_result) in
    let prompt := prompt_of abap_section code combined in
    let output := llm_invoke (length prompts) prompt in
    (PyDict.set abap_section (strip output) abap_result,
     prompts ++ [prompt]).

(** [process_payload_and_generate_abap]: the dict that is returned and the
    prompts that were sent *)
Definition process_payload_and_generate_abap (payload : pyval)
    (udd_mapping : option (list (string * list string)))
  : res (list (string * string) * list string) :=
  let udd_mapping := mapping_or_default DEFAULT_UDD_MAPPING udd_mapping in
  sections_dict ← split_sections json_loads payload;
  Ok (fold_left (section_step udd_mapping sections_dict) ABAP_SECTIONS
        ([], [])).
End Llm.

Definition assemble_program (abap_parts : list (string * string)) : string :=
  join NL2
    [PyDict.get "global_declaration" EmptyString abap_parts;
     PyDict.get "selection_screen" EmptyString abap_parts;
     PyDict.get "processing_logic" EmptyString abap_parts;
     PyDict.get "output_display" EmptyString abap_parts].

End Program.

(** ** app/generator3.py: the generation in one call *)

Module FullProgram.
Import PyStr Re Generator.

Definition DEFAULT_UDD_MAPPING : list (string * list string) :=
  [("global_declaration",
    ["SECTION: 4. User Interface"; "SECTION: 5. Technical Architecture"]);
   ("selection_screen", ["SECTION: 4. User Interface"]);
   ("processing_logic",
    ["SECTION: 1. Purpose"; "SECTION: 2. Scope";
     "SECTION: 3. Functional Requirements";
     "SECTION: 4. User Interface"; "SECTION: 5. Technical Architecture";
     "SECTION: 6. Error Handling"; "SECTION: 7. Performance Notes";
     "SECTION: 8. Authorization";
     "SECTION: 9. Sample Report Output Layouts";
     "SECTION: 10. Unit Test Plan"]);
   ("output_display",
    ["SECTION: 4. User Interface"; "SECTION: 5. Technical Architecture";
     "SECTION: 6. Error Handling"; "SECTION: 7. Performance Notes";
     "SECTION: 9. Sample Report Output Layouts";
     "SECTION: 10. Unit Test Plan"])].

Section Groups.
Context {A : Type}.

(** [p|q]: the first alternative that lets the rest of the pattern
    succeed *)
Definition alt (p q : string -> (string -> option A) -> option A)
    (s : string) (k : string -> option A) : option A :=
  match p s k with
  | Some r => Some r
  | None => q s k
  end.

(** [(?:p)?], greedy *)
Definition opt_group (p : string -> (string -> option A) -> option A)
    (s : string) (k : string -> option A) : option A :=
  match p s k with
  | Some r => Some r
  | None => k s
  end.
End Groups.

(** [```(?:abap)?|```] *)
Definition code_fence (_ : option ascii) (s : string)
  : option (unit * nat) :=
  alt (fun s0 k => lit "```" s0 (fun s1 => opt_group (lit "abap") s1 k))
      (lit "```")
      s (fun rest => Some (tt, String.length s - String.length rest)).

(** [re.sub(r"```(?:abap)?|```", "", code).strip()] *)
Definition strip_fences (code : string) : string :=
  strip (sub code_fence (fun _ => EmptyString) code).

(** lines 127-131: the bodies of the mapped sections that are present,
    list by list *)
Definition collect (udd_mapping : list (string * list string))
    (sections_dict : list (string * string)) : list string :=
  flat_map
    (fun entry =>
       flat_map (fun section =>
                   match PyDict.lookup section sections_dict with
                   | Some body => [body]
                   | None => []
                   end)
                (snd entry))
    udd_mapping.

Definition indent : string := "    ".

(** the f-string of lines 148-157 *)
Definition draft_prompt (all_requirements : string) : string :=
  NL +:+ indent +:+ "You are a senior SAP ABAP developer." +:+ NL +:+
  indent +:+ "Generate a complete ABAP report program based on the " +:+
  "following requirements." +:+ NL +:+
  indent +:+ "Use clear modularization, meaningful comments, and " +:+
  "correct syntax." +:+ NL +:+
  indent +:+ "Only return ABAP code, no markdown or explanations." +:+ NL +:+
  indent +:+ "If ALV Output - you should not miss a single field " +:+
  "mentioned in the requirement. This is Mandatory." +:+ NL +:+
  NL +:+
  indent +:+ "Functional and technical requirements:" +:+ NL +:+
  indent +:+ all_requirements +:+ NL +:+
  indent.

Section Llm.
Variable json_loads : string -> option pyval.
(** [llm.invoke(prompt)] and the text of its answer; a call that fails is
    not modelled *)
Variable llm_invoke : string -> string.

(** [generate_full_abap_program] of generator3: the draft is returned,
    the second pass is commented out in the source *)
Definition generate_full_abap_program (payload : pyval)
    (udd_mapping : option (list (string * list string))) : res string :=
  let udd_mapping :=
    Program.mapping_or_default DEFAULT_UDD_MAPPING udd_mapping in
  sections_dict ← split_sections3 json_loads payload;
  let combined_requirements := collect udd_mapping sections_dict in
  let all_requirements := strip (join Program.NL2 combined_requirements) in
  if is_empty all_requirements then Raise ValueError
  else Ok (strip_fences (llm_invoke (draft_prompt all_requirements))).
End Llm.

End FullProgram.

(** ** Predicates on the results of the generators *)

Module Shape.
Import PyStr.

(** [s.endswith(t)] *)
Fixpoint endswith (s t : string) : bool :=
  String.eqb s t
  || match s with
     | String _ s' => endswith s' t
     | EmptyString => false
     end.

(** a key of the result of [split_sections]: it starts with "SECTION:"
    and has no white space around it *)
Definition header_key (k : string) : Prop :=
  startswith k "SECTION:" = true /\ strip k = k.

(** a body of the result of [split_sections]: empty, or some text that
    is not blank and ends with a line feed *)
Definition section_body (v : string) : Prop :=
  v = EmptyString \/
  (Spec.all_chars is_space v = false /\ endswith v Generator.NL = true).

(** the length of the run of characters of a class at the start of a
    text *)
Fixpoint run_length (p : ascii -> bool) (s : string) : nat :=
  match s with
  | String c s' => if p c then S (run_length p s') else 0
  | EmptyString => 0
  end.

Definition backtick (c : ascii) : bool := Ascii.eqb c "`".

(** a value of the result of [process_payload_and_generate_abap]: the
    marker of a section without requirements, or the stripped answer to
    one of the prompts *)
Definition answered (llm_invoke : nat -> string -> string)
    (prompts : list string) (entry : string * string) : Prop :=
  entry.2 = Program.no_requirements_found \/
  exists n prompt,
    prompts !! n = Some prompt /\ entry.2 = strip (llm_invoke n prompt).

(** what the loop of [process_payload_and_generate_abap] stores for a
    section: the marker when the section has no requirements, else the
    stripped answer to a prompt that ends with the requirements *)
Definition stored (llm_invoke : nat -> string -> string)
    (m : list (string * list string)) (d r : list (string * string))
    (ps : list string) (s : string) : Prop :=
  let combined := Program.combined_requirements d (PyDict.get s [] m) in
  (combined = EmptyString ->
   PyDict.lookup s r = Some Program.no_requirements_found) /\
  (combined <> EmptyString ->
   exists n prompt,
     ps !! n = Some prompt /\
     endswith prompt
       ("Requirements:" +:+ Generator.NL +:+ combined +:+ Generator.NL)
       = true
     /\ PyDict.lookup s r = Some (strip (llm_invoke n prompt))).

(** a result of [split_sections] as its callers can rely on it: no key
    occurs twice, every key is a header key and every body a section
    body *)
Definition well_formed (result : list (string * string)) : Prop :=
  NoDup (PyDict.keys result) /\
  Forall (fun entry => header_key entry.1 /\ section_body entry.2) result.

End Shape.

(** ** The passes of the normalizer, as relations

    What is needed to follow a text through the three passes: [re.sub] as
    a relation between a text and what it returns, and what the three
    patterns look for at the start of a text, without the groups and the
    lengths that the patterns return. *)

Module Trace.
Import PyStr Re Generator.

(** the character before the position that follows [s], when [prev] is
    the character before [s] *)
Fixpoint last_char (prev : option ascii) (s : string) : option ascii :=
  match s with
  | EmptyString => prev
  | String c s' => last_char (Some c) s'
  end.

Section Sub.
Context {M : Type} (try : option ascii -> string -> option (M * nat)).
Context (repl : M -> string).

(** [rewrites prev s o]: [re.sub] turns the text [s], met after the
    character [prev], into [o]: where no match starts the character is
    kept, and a match [mt] is replaced as a whole *)
Inductive rewrites : option ascii -> string -> string -> Prop :=
  | rw_end prev : rewrites prev EmptyString EmptyString
  | rw_keep prev c s o :
      try prev (String c s) = None ->
      rewrites (Some c) s o ->
      rewrites prev (String c s) (String c o)
  | rw_hit prev s m n mt rest o :
      s = mt +:+ rest ->
      try prev s = Some (m, n) ->
      String.length mt = n ->
      mt <> EmptyString ->
      rewrites (last_char prev mt) rest o ->
      rewrites prev s (repl m +:+ o).
End Sub.

(** no match of [header_marker] starts in the text *)
Inductive unmarked : option ascii -> string -> Prop :=
  | um_end prev : unmarked prev EmptyString
  | um_keep prev c s :
      header_marker prev (String c s) = None ->
      unmarked (Some c) s ->
      unmarked prev (String c s).

(** every match of [header_variant] that [re.sub] meets in the text
    starts with "SECTION: " and goes on with its group *)
Inductive canonical_text : string -> Prop :=
  | ct_end : canonical_text EmptyString
  | ct_keep c s :
      header_variant None (String c s) = None ->
      canonical_text s ->
      canonical_text (String c s)
  | ct_hit s g rest :
      s = "SECTION: " +:+ g +:+ rest ->
      header_variant None s = Some (g, 9 + String.length g) ->
      canonical_text rest ->
      canonical_text s.

Definition not_S (c : ascii) : bool := negb (Ascii.eqb c "S").

(** the two texts are the same up to the first S, which both have or
    both lack; with [lf], the second may have a line feed before that S *)
Inductive agree (lf : bool) : string -> string -> Prop :=
  | agree_end : agree lf EmptyString EmptyString
  | agree_S s o : agree lf (String "S" s) (String "S" o)
  | agree_lf s o :
      lf = true -> agree lf (String "S" s) (String LF (String "S" o))
  | agree_keep c s o :
      not_S c = true -> agree lf s o -> agree lf (String c s) (String c o).

(** a match was found *)
Definition found {A} (x : option A) : bool :=
  match x with Some _ => true | None => false end.

(** [\s*:?\s*] and then what [f] looks for, at the start of the text;
    [colon] says whether the colon may still come *)
Fixpoint after_junk (f : string -> bool) (colon : bool) (s : string)
  : bool :=
  match s with
  | String c s' =>
      if is_space c then after_junk f colon s'
      else if colon && Ascii.eqb ":" c then after_junk f false s'
      else f s
  | EmptyString => false
  end.

(** [\d*\.] and then what [f] looks for, at the start of the text *)
Fixpoint digits_then (f : string -> bool) (s : string) : bool :=
  match s with
  | String c s' =>
      if is_digit c then digits_then f s' else Ascii.eqb "." c && f s'
  | EmptyString => false
  end.

(** [\d+\.] and then what [f] looks for *)
Definition number_then (f : string -> bool) (s : string) : bool :=
  match s with
  | String c s' => is_digit c && digits_then f s'
  | EmptyString => false
  end.

(** [SECTION\s*:?\s*\d+\.] at the start of the text *)
Definition marker_at (s : string) : bool :=
  match lit "SECTION" s Some with
  | Some s1 => after_junk (number_then (fun _ => true)) true s1
  | None => false
  end.

(** [\s*[A-Za-z ]] at the start of the text *)
Fixpoint spaces_title (s : string) : bool :=
  match s with
  | String c s' => title_char c || (is_space c && spaces_title s')
  | EmptyString => false
  end.

(** [\s+[A-Za-z ]] at the start of the text *)
Definition space_title (s : string) : bool :=
  match s with
  | String c s' => is_space c && spaces_title s'
  | EmptyString => false
  end.

(** [SECTION\s*:?\s*\n*\s*\d+\.\s+[A-Za-z ]] at the start of the text *)
Definition variant_at (s : string) : bool :=
  match lit "SECTION" s Some with
  | Some s1 => after_junk (number_then space_title) true s1
  | None => false
  end.

(** [\d+\.\s+[A-Za-z ]+], the group of [header_variant] and the end of
    [canonical_header]: what is left of the text after it *)
Definition header_end (s : string) : option string :=
  plus is_digit s (fun s6 =>
  one (chr ".") s6 (fun s7 =>
  plus is_space s7 (fun s8 =>
  plus title_char s8 Some))).

(** the text starts with a character of a title *)
Definition title_head (s : string) : bool :=
  match s with
  | String c _ => title_char c
  | EmptyString => false
  end.

(** what [F] finds in the second text after some [u], it finds in the
    first; [F] does not look past the first S that is not in [u] *)
Definition carries (lf : bool) (F : string -> bool) : Prop :=
  forall s o, agree lf s o ->
  forall u, F (u +:+ o) = true -> F (u +:+ s) = true.

(** the same, with a line feed put in before the second text *)
Definition carries_lf (F : string -> bool) : Prop :=
  forall s o, agree false s o ->
  forall u, F (u +:+ String LF o) = true -> F (u +:+ s) = true.

(** a character of the word SECTION after its first *)
Definition word_char (c : ascii) : bool :=
  not_S c && negb (Ascii.eqb c LF).

End Trace.

(** * Properties *)

(** ** Strings *)

Module StrFacts.
Import PyStr.

Lemma append_cons c (s t : string) : String c s +:+ t = String c (s +:+ t).
Proof. reflexivity. Qed.

Lemma append_nil_l (s : string) : EmptyString +:+ s = s.
Proof. reflexivity. Qed.

Lemma append_nil_r (s : string) : s +:+ EmptyString = s.
Proof. induction s as [|c s IH]; [done|]. by rewrite append_cons, IH. Qed.

Lemma append_assoc (a b c : string) : (a +:+ b) +:+ c = a +:+ (b +:+ c).
Proof.
  induction a as [|x a IH]; [done|]. by rewrite !append_cons, IH.
Qed.

Lemma length_append (a b : string) :
  String.length (a +:+ b) = String.length a + String.length b.
Proof.
  induction a as [|x a IH]; [done|]. rewrite append_cons. simpl. by rewrite IH.
Qed.

(** the text between a position and a later one *)
Lemma consumed_append (pre rest : string) : consumed (pre +:+ rest) rest = pre.
Proof.
  unfold consumed. rewrite length_append.
  replace (String.length pre + String.length rest - String.length rest)
    with (String.length pre) by lia.
  induction pre as [|c pre IH]; simpl.
  - by destruct rest.
  - by rewrite IH.
Qed.
End StrFacts.

(** ** Matchers *)

Module ReFacts.
Import PyStr Re Spec.

Section Inversion.
Context {A : Type}.
Implicit Types (k : string -> option A) (r : A) (p : ascii -> bool).

Lemma one_inv p s k r :
  one p s k = Some r ->
  exists c s', s = String c s' /\ p c = true /\ k s' = Some r.
Proof.
  destruct s as [|c s']; simpl; [done|].
  destruct (p c) eqn:Hp; [|done]. intros H. by exists c, s'.
Qed.

(** a greedy run hands to the rest of the pattern what is left after
    some run of characters of the class *)
Lemma star_inv p s k r :
  star p s k = Some r ->
  exists pre rest,
    s = pre +:+ rest /\ all_chars p pre = true /\ k rest = Some r.
Proof.
  induction s as [|c s IH]; simpl.
  - intros H. by exists EmptyString, EmptyString.
  - destruct (p c) eqn:Hp.
    + destruct (star p s k) as [r'|] eqn:Hs.
      * intros [= <-]. destruct (IH eq_refl) as (pre & rest & -> & Hall & Hk).
        exists (String c pre), rest. simpl. by rewrite Hp, Hall.
      * intros H. by exists EmptyString, (String c s).
    + intros H. by exists EmptyString, (String c s).
Qed.

Lemma plus_inv p s k r :
  plus p s k = Some r ->
  exists c pre rest,
    s = String c (pre +:+ rest) /\ p c = true /\
    all_chars p pre = true /\ k rest = Some r.
Proof.
  unfold plus. intros H.
  destruct (one_inv _ _ _ _ H) as (c & s' & -> & Hc & Hs).
  destruct (star_inv _ _ _ _ Hs) as (pre & rest & -> & Hall & Hk).
  by exists c, pre, rest.
Qed.

Lemma eos_inv s k r : eos s k = Some r -> k s = Some r.
Proof.
  destruct s as [|c [|]]; simpl; try done. by destruct (Ascii.eqb c LF).
Qed.

Lemma lazy_star_inv p s k r :
  lazy_star p s k = Some r -> exists rest, k rest = Some r.
Proof.
  induction s as [|c s IH]; simpl.
  - destruct (k EmptyString) eqn:Hk; [|done]. intros [= <-]. eauto.
  - destruct (k (String c s)) eqn:Hk.
    + intros [= <-]. eauto.
    + destruct (p c); [apply IH | done].
Qed.

Lemma lazy_plus_inv p s k r :
  lazy_plus p s k = Some r -> exists rest, k rest = Some r.
Proof.
  unfold lazy_plus. intros H.
  destruct (one_inv _ _ _ _ H) as (c & s' & -> & Hc & Hs).
  by eapply lazy_star_inv.
Qed.
End Inversion.

Lemma all_chars_app p (a b : string) :
  all_chars p (a +:+ b) = all_chars p a && all_chars p b.
Proof.
  induction a as [|c a IH]; [done|].
  rewrite StrFacts.append_cons. simpl. rewrite IH. by destruct (p c).
Qed.

(** stripping a run of the class from the left stops at the first
    character outside it *)
Lemma lstrip_run p (pre : string) c rest :
  all_chars p pre = true -> p c = false ->
  lstrip_chars p (pre +:+ String c rest) = String c rest.
Proof.
  intros Hpre Hc. induction pre as [|x pre IH]; simpl in *.
  - by rewrite Hc.
  - apply andb_true_iff in Hpre as [Hx Hpre]. rewrite Hx. auto.
Qed.

Lemma digit_not_dot c : is_digit c = true -> Ascii.eqb "." c = false.
Proof.
  destruct c as [[] [] [] [] [] [] [] []]; vm_compute; congruence.
Qed.

Lemma digit_not_space c : is_digit c = true -> is_space c = false.
Proof.
  destruct c as [[] [] [] [] [] [] [] []]; vm_compute; congruence.
Qed.

Lemma digit_not_fence c s :
  is_digit c = true -> startswith (String c s) "```" = false.
Proof.
  destruct c as [[] [] [] [] [] [] [] []]; vm_compute; congruence.
Qed.

Lemma digit_not_pipe c : is_digit c = true -> chr "|" c = false.
Proof.
  destruct c as [[] [] [] [] [] [] [] []]; vm_compute; congruence.
Qed.

(** two runs of digits that are each followed by a dot in the same text
    are the same run *)
Lemma digit_prefix_inj (a b x y : string) :
  all_chars is_digit a = true -> all_chars is_digit b = true ->
  a +:+ String "." x = b +:+ String "." y -> a = b.
Proof.
  revert b. induction a as [|c a IH]; intros [|d b] Ha Hb Heq;
    simpl in *; rewrite ?StrFacts.append_cons, ?StrFacts.append_nil_l in Heq.
  - done.
  - injection Heq as Hc _. subst d.
    apply andb_true_iff in Hb as [Hd _]. apply digit_not_dot in Hd.
    by rewrite Ascii.eqb_refl in Hd.
  - injection Heq as Hc _. subst c.
    apply andb_true_iff in Ha as [Hc _]. apply digit_not_dot in Hc.
    by rewrite Ascii.eqb_refl in Hc.
  - injection Heq as -> Heq.
    apply andb_true_iff in Ha as [_ Ha]. apply andb_true_iff in Hb as [_ Hb].
    f_equal. by eapply IH.
Qed.

(** *** Every match is at least one character long *)

Section Lengths.
Context {A : Type}.
Implicit Types (k : string -> option A) (r : A) (p : ascii -> bool).

Lemma lit_len (t : string) : forall s k r,
  lit t s k = Some r ->
  exists rest,
    String.length s = String.length t + String.length rest /\ k rest = Some r.
Proof.
  induction t as [|c t IH]; intros s k r; simpl.
  - intros H. by exists s.
  - destruct s as [|d s]; [done|]. destruct (Ascii.eqb c d); [|done].
    intros H. destruct (IH _ _ _ H) as (rest & Hlen & Hk).
    exists rest. simpl. by rewrite Hlen.
Qed.

Lemma one_len p s k r :
  one p s k = Some r ->
  exists rest, String.length s = S (String.length rest) /\ k rest = Some r.
Proof.
  intros H. apply one_inv in H as (c & s' & -> & _ & H). by exists s'.
Qed.

Lemma star_len p s k r :
  star p s k = Some r ->
  exists rest, String.length rest <= String.length s /\ k rest = Some r.
Proof.
  intros H. apply star_inv in H as (pre & rest & -> & _ & H).
  exists rest. rewrite StrFacts.length_append. split; [lia | done].
Qed.

Lemma plus_len p s k r :
  plus p s k = Some r ->
  exists rest, String.length rest < String.length s /\ k rest = Some r.
Proof.
  intros H. apply plus_inv in H as (c & pre & rest & -> & _ & _ & H).
  exists rest. simpl. rewrite StrFacts.length_append. split; [lia | done].
Qed.

Lemma opt_len p s k r :
  opt p s k = Some r ->
  exists rest, String.length rest <= String.length s /\ k rest = Some r.
Proof.
  destruct s as [|c s]; simpl; [by exists EmptyString|].
  destruct (p c); [|by exists (String c s)].
  destruct (k s) as [r'|] eqn:Hk.
  - intros [= <-]. exists s. simpl. split; [lia | done].
  - by exists (String c s).
Qed.

Lemma lazy_star_len p s k r :
  lazy_star p s k = Some r ->
  exists rest, String.length rest <= String.length s /\ k rest = Some r.
Proof.
  induction s as [|c s IH]; simpl.
  - destruct (k EmptyString) eqn:Hk; [|done]. intros [= <-].
    by exists EmptyString.
  - destruct (k (String c s)) eqn:Hk.
    + intros [= <-]. by exists (String c s).
    + destruct (p c); [|done]. intros H.
      destruct (IH H) as (rest & Hlen & Hr). exists rest.
      simpl. split; [lia | done].
Qed.

Lemma lazy_plus_len p s k r :
  lazy_plus p s k = Some r ->
  exists rest, String.length rest < String.length s /\ k rest = Some r.
Proof.
  unfold lazy_plus. intros H.
  apply one_len in H as (s' & Hs & H).
  apply lazy_star_len in H as (rest & Hlen & H).
  exists rest. split; [lia | done].
Qed.
End Lengths.

(** the chain of the length lemmas along a pattern *)
Ltac consume H :=
  repeat first
    [ apply lit_len in H as (? & ? & H)
    | apply plus_len in H as (? & ? & H)
    | apply lazy_plus_len in H as (? & ? & H)
    | apply one_len in H as (? & ? & H)
    | apply star_len in H as (? & ? & H)
    | apply opt_len in H as (? & ? & H) ].

Lemma header_marker_consumes prev s g n :
  Generator.header_marker prev s = Some (g, n) -> 1 <= n.
Proof.
  unfold Generator.header_marker. destruct (bool_decide _); [done|].
  intros H. consume H. injection H as _ <-. simpl in *. lia.
Qed.

Lemma header_variant_consumes prev s g n :
  Generator.header_variant prev s = Some (g, n) -> 1 <= n.
Proof.
  unfold Generator.header_variant.
  intros H. consume H. injection H as _ <-. simpl in *. lia.
Qed.

Lemma canonical_header_consumes prev s g n :
  Generator.canonical_header prev s = Some (g, n) -> 1 <= n.
Proof.
  unfold Generator.canonical_header.
  intros H. consume H. injection H as _ <-. simpl in *. lia.
Qed.

Lemma bold_pattern_consumes prev s g n :
  Docx.bold_pattern prev s = Some (g, n) -> 1 <= n.
Proof.
  unfold Docx.bold_pattern.
  intros H. consume H. injection H as _ <-. simpl in *. lia.
Qed.

End ReFacts.

(** ** The passes of the normalizer *)

Module NormalizeFacts.
Import PyStr Re Generator Spec ReFacts.

Lemma lit_none {A} (t : string) : forall s (k : string -> option A),
  startswith s t = false -> lit t s k = None.
Proof.
  unfold startswith.
  induction t as [|c t IH]; intros s k; [by destruct s|].
  destruct s as [|d s]; [done|]. simpl.
  destruct (ascii_dec c d) as [->|Hne].
  - rewrite Ascii.eqb_refl. apply IH.
  - intros _. by destruct (Ascii.eqb_spec c d).
Qed.

Section Scan.
Context {M : Type} (try : option ascii -> string -> option (M * nat)).
Context (repl : M -> string).

(** a scan that meets no match keeps the text; in a text without matches
    the passes change nothing *)
Lemma sub_no_hit x : forall prev,
  hits (scan try prev 0 x) = 0 -> sub_pieces repl (scan try prev 0 x) = x.
Proof.
  induction x as [|c x IH]; intros prev; simpl; [done|].
  destruct (try prev (String c x)) as [[m len]|]; [done|].
  unfold hits. rewrite filter_cons. simpl. intros H. f_equal. by apply IH.
Qed.

Lemma scan_quiet x :
  (forall prev a b, x = a +:+ b -> try prev b = None) ->
  forall prev, hits (scan try prev 0 x) = 0.
Proof.
  induction x as [|c x IH]; intros Hq prev; simpl; [done|].
  rewrite (Hq prev EmptyString (String c x) eq_refl).
  unfold hits. rewrite filter_cons. simpl. apply IH.
  intros prev' a b ->. by apply (Hq prev' (String c a) b).
Qed.

(** a match somewhere in the text means that the scan finds a match *)
Lemma scan_finds (a : string) : forall prev b,
  (forall prev', try prev' b <> None) -> b <> EmptyString ->
  hits (scan try prev 0 (a +:+ b)) <> 0.
Proof.
  induction a as [|c a IH]; intros prev b Hb Hne.
  - rewrite StrFacts.append_nil_l. destruct b as [|d b]; [done|]. simpl.
    destruct (try prev (String d b)) as [[m len]|] eqn:Ht.
    + unfold hits. rewrite filter_cons. simpl. lia.
    + by destruct (Hb prev).
  - rewrite StrFacts.append_cons. simpl.
    destruct (try prev (String c (a +:+ b))) as [[m len]|].
    + unfold hits. rewrite filter_cons. simpl. lia.
    + unfold hits. rewrite filter_cons. simpl. by apply IH.
Qed.
End Scan.

Lemma occurs_no_section x : occurs "SECTION" x = false -> no_section x.
Proof.
  induction x as [|c x IH]; intros Hocc a b Hab.
  - destruct a; [|done]. destruct b; [done | discriminate].
  - simpl in Hocc. apply orb_false_iff in Hocc as [Hhere Hlater].
    destruct a as [|d a].
    + rewrite StrFacts.append_nil_l in Hab. by subst b.
    + rewrite StrFacts.append_cons in Hab. injection Hab as _ Hab.
      by apply (IH Hlater a b).
Qed.

Lemma no_section_suffix c x : no_section (String c x) -> no_section x.
Proof. intros H a b ->. by apply (H (String c a) b). Qed.

(** a text without the word SECTION is returned as it is *)
Lemma normalize_without_section x : no_section x -> normalize x = x.
Proof.
  intros Hx. unfold normalize, pass1, pass2, pass3, sub.
  assert (H1 : sub_pieces (fun g1 => NL +:+ g1) (scan header_marker None 0 x) = x).
  { apply sub_no_hit, scan_quiet. intros prev a b Hab.
    unfold header_marker. destruct (bool_decide _); [done|].
    apply lit_none. by eapply Hx. }
  rewrite H1.
  assert (H2 : sub_pieces (fun g1 => "SECTION: " +:+ g1)
                 (scan header_variant None 0 x) = x).
  { apply sub_no_hit, scan_quiet. intros prev a b Hab.
    unfold header_variant. apply lit_none. by eapply Hx. }
  rewrite H2.
  apply sub_no_hit, scan_quiet. intros prev a b Hab.
  unfold canonical_header.
  change (lit "SECTION:" b ?k) with (lit "SECTION" b (fun r => lit ":" r k)).
  apply lit_none. by eapply Hx.
Qed.

Section Growth.
Context {M : Type} (try : option ascii -> string -> option (M * nat)).
Context (repl : M -> string).

(** every match is a non-empty stretch of the text, and its replacement is
    one character longer *)
Hypothesis try_grows : forall prev s m n,
  try prev s = Some (m, n) ->
  1 <= n /\ n <= String.length s /\ String.length (repl m) = S n.

(** the text grows by one character for every match *)
Lemma sub_length y : forall skip prev,
  skip <= String.length y ->
  String.length (sub_pieces repl (scan try prev skip y)) + skip
    = String.length y + hits (scan try prev skip y).
Proof.
  induction y as [|c y IH]; intros skip prev Hskip; simpl in *.
  - unfold hits. simpl. lia.
  - destruct skip as [|k].
    + destruct (try prev (String c y)) as [[m n]|] eqn:Ht.
      * destruct (try_grows _ _ _ _ Ht) as (H1 & H2 & H3). simpl in H2.
        unfold hits. rewrite filter_cons. simpl.
        rewrite StrFacts.length_append, H3.
        specialize (IH (n - 1) (Some c)). unfold hits in IH. lia.
      * unfold hits. rewrite filter_cons. simpl.
        specialize (IH 0 (Some c)). unfold hits in IH. lia.
    + specialize (IH k (Some c)). lia.
Qed.

(** the first match: the text before it is kept and its replacement
    follows *)
Lemma first_hit y : forall prev,
  hits (scan try prev 0 y) <> 0 ->
  exists a s prev' m n tail,
    y = a +:+ s /\ try prev' s = Some (m, n) /\
    sub_pieces repl (scan try prev 0 y) = a +:+ repl m +:+ tail.
Proof.
  induction y as [|c y IH]; intros prev; simpl; [done|].
  destruct (try prev (String c y)) as [[m n]|] eqn:Ht.
  - intros _. exists EmptyString, (String c y), prev, m, n. eauto.
  - unfold hits. rewrite filter_cons. simpl. intros H.
    destruct (IH _ H) as (a & s & prev' & m & n & tail & -> & Hs & Hsub).
    exists (String c a), s, prev', m, n, tail.
    split; [done|]. split; [done|]. by rewrite Hsub.
Qed.
End Growth.

Lemma length_substring s : forall n,
  String.length (String.substring 0 n s) = Nat.min n (String.length s).
Proof.
  induction s as [|c s IH]; intros [|n]; simpl; try done. by rewrite IH.
Qed.

Lemma length_consumed s rest :
  String.length (consumed s rest) = String.length s - String.length rest.
Proof. unfold consumed. rewrite length_substring. lia. Qed.

Lemma canonical_header_grows prev s g n :
  canonical_header prev s = Some (g, n) ->
  1 <= n /\ n <= String.length s /\ String.length (g +:+ NL) = S n.
Proof.
  intros H. pose proof (canonical_header_consumes _ _ _ _ H) as Hn.
  split; [done|]. unfold canonical_header in H. consume H.
  injection H as <- <-. rewrite StrFacts.length_append, length_consumed.
  simpl. lia.
Qed.

(** the third pass lengthens a text by one character for every canonical
    header that it finds *)
Lemma pass3_length y :
  String.length (pass3 y) = String.length y + headers_found y.
Proof.
  pose proof (sub_length canonical_header (fun g1 => g1 +:+ NL)
                canonical_header_grows y 0 None) as H.
  unfold pass3, sub, headers_found. simpl in H. lia.
Qed.

Lemma pass3_fixed y : pass3 y = y <-> headers_found y = 0.
Proof.
  split.
  - intros H. pose proof (pass3_length y) as Hl. rewrite H in Hl. lia.
  - apply sub_no_hit.
Qed.

Section Completeness.
Context {A : Type}.
Implicit Types (k : string -> option A) (p : ascii -> bool).

Lemma lit_inv (t : string) : forall s k r,
  lit t s k = Some r -> exists rest, s = t +:+ rest /\ k rest = Some r.
Proof.
  induction t as [|c t IH]; intros s k r; simpl.
  - intros H. by exists s.
  - destruct s as [|d s]; [done|].
    destruct (Ascii.eqb_spec c d) as [->|]; [|done].
    intros H. destruct (IH _ _ _ H) as (rest & -> & Hk). by exists rest.
Qed.

Lemma lit_app (t : string) : forall rest k, lit t (t +:+ rest) k = k rest.
Proof.
  induction t as [|c t IH]; intros rest k; [done|].
  rewrite StrFacts.append_cons. simpl. by rewrite Ascii.eqb_refl.
Qed.

(** a greedy run does not fail when the rest of the pattern can go on
    after some run of the class *)
Lemma star_complete p (pre : string) : forall rest k,
  all_chars p pre = true -> k rest <> None ->
  star p (pre +:+ rest) k <> None.
Proof.
  induction pre as [|c pre IH]; intros rest k Hall Hk.
  - rewrite StrFacts.append_nil_l. destruct rest as [|d rest]; [done|].
    simpl. destruct (p d); [|done].
    by destruct (star p rest k).
  - simpl in Hall. apply andb_true_iff in Hall as [Hc Hall].
    rewrite StrFacts.append_cons. simpl. rewrite Hc.
    specialize (IH rest k Hall Hk). by destruct (star p (pre +:+ rest) k).
Qed.

Lemma plus_complete p c (pre : string) rest k :
  p c = true -> all_chars p pre = true -> k rest <> None ->
  plus p (String c (pre +:+ rest)) k <> None.
Proof.
  intros Hc Hall Hk. unfold plus. simpl. rewrite Hc.
  by apply star_complete.
Qed.
End Completeness.

(** a canonical header is found again when a line feed follows it *)
Lemma canonical_header_again prev s g n :
  canonical_header prev s = Some (g, n) ->
  forall prev' tail, canonical_header prev' (g +:+ NL +:+ tail) <> None.
Proof.
  unfold canonical_header. generalize "SECTION:". intros lead H prev' tail.
  apply lit_inv in H as (s1 & Hs & H).
  apply star_inv in H as (w0 & s2 & -> & Hw0 & H).
  apply plus_inv in H as (d & ds & s3 & -> & Hd & Hds & H).
  apply one_inv in H as (dot' & s4 & -> & Hdot & H).
  apply Ascii.eqb_eq in Hdot. subst dot'.
  apply plus_inv in H as (w & ws & s5 & -> & Hw & Hws & H).
  apply plus_inv in H as (t & ts & s6 & -> & Ht & Hts & H).
  injection H as Hg _.
  assert (Hs' : s = (lead +:+ w0 +:+ String d (ds +:+
                       String "." (String w (ws +:+ String t ts)))) +:+ s6).
  { rewrite Hs. rewrite !StrFacts.append_assoc, !StrFacts.append_cons.
    by rewrite !StrFacts.append_assoc, !StrFacts.append_cons,
      !StrFacts.append_assoc. }
  rewrite Hs' in Hg. rewrite StrFacts.consumed_append in Hg. subst g.
  rewrite !StrFacts.append_assoc, !StrFacts.append_cons.
  rewrite !StrFacts.append_assoc, !StrFacts.append_cons.
  rewrite !StrFacts.append_assoc.
  rewrite lit_app. apply star_complete; [done|].
  apply plus_complete; [done..|]. simpl.
  apply plus_complete; [done..|]. by apply plus_complete.
Qed.

(** so the third pass finds a header in its own output whenever it found
    one in its input *)
Lemma pass3_finds_again y :
  headers_found y <> 0 -> headers_found (pass3 y) <> 0.
Proof.
  unfold headers_found, pass3, sub. intros H.
  destruct (first_hit canonical_header (fun g1 => g1 +:+ NL) y None H)
    as (a & s & prev' & g & n & tail & -> & Hs & ->).
  apply scan_finds.
  - intros prev''. rewrite StrFacts.append_assoc.
    by eapply canonical_header_again.
  - destruct g; [|done]. by apply canonical_header_grows in Hs as (_ & _ & ?).
Qed.

(** *** The third pass puts in line feeds and nothing else *)

Lemma lf_inserted_refl a : lf_inserted a a.
Proof. induction a; by constructor. Qed.

Lemma lf_inserted_app g : forall a b,
  lf_inserted a b -> lf_inserted (g +:+ a) (g +:+ b).
Proof.
  induction g as [|c g IH]; intros a b H; [done|].
  rewrite !StrFacts.append_cons. constructor. by apply IH.
Qed.

Lemma substring_drop s : forall n,
  s = String.substring 0 n s +:+ Layout.drop_chars n s.
Proof.
  induction s as [|c s IH]; intros [|n]; simpl; try done.
  rewrite StrFacts.append_cons. by rewrite <- IH.
Qed.

(** the group of a canonical header is the whole match *)
Lemma canonical_header_whole prev s g n :
  canonical_header prev s = Some (g, n) ->
  s = g +:+ Layout.drop_chars n s.
Proof.
  intros H. unfold canonical_header in H. consume H.
  injection H as <- <-. apply substring_drop.
Qed.

Lemma scan_inserts y : forall prev skip,
  lf_inserted (Layout.drop_chars skip y)
    (sub_pieces (fun g1 => g1 +:+ NL) (scan canonical_header prev skip y)).
Proof.
  induction y as [|c y IH]; intros prev skip.
  - destruct skip; constructor.
  - destruct skip as [|k]; [|apply IH]. cbn [scan Layout.drop_chars].
    destruct (canonical_header prev (String c y)) as [[g n]|] eqn:Ht.
    + cbn [sub_pieces].
      destruct (canonical_header_grows _ _ _ _ Ht) as (Hn & _ & _).
      rewrite (canonical_header_whole _ _ _ _ Ht) at 1.
      destruct n as [|n]; [lia|]. cbn [Layout.drop_chars].
      rewrite StrFacts.append_assoc. apply lf_inserted_app.
      constructor. replace (S n - 1) with n by lia. apply IH.
    + cbn [sub_pieces]. constructor. apply (IH (Some c) 0).
Qed.

Lemma pass3_inserts y : lf_inserted y (pass3 y).
Proof. apply (scan_inserts y None 0). Qed.

End NormalizeFacts.

(** ** The first two passes leave the output of the normalizer as it is

    The first pass puts a line feed before every header, and neither of
    the later passes takes one away or makes a header where none was; the
    second pass gives every header that it meets the form "SECTION: " and
    the group, and the line feeds of the third pass do not move the end
    of a group. *)

Module Stability.
Import PyStr Re Generator Spec StrFacts ReFacts NormalizeFacts Trace.

(** *** Texts *)

Lemma append_inv_head (a : string) : forall b c, a +:+ b = a +:+ c -> b = c.
Proof.
  induction a as [|x a IH]; intros b c H; [done|].
  rewrite !append_cons in H. injection H as H. by apply IH.
Qed.

Lemma append_eq_length (a : string) : forall b c d,
  a +:+ b = c +:+ d -> String.length a = String.length c -> a = c /\ b = d.
Proof.
  induction a as [|x a IH]; intros b [|y c] d H Hl; simpl in Hl; try done.
  rewrite !append_cons in H. injection H as -> H.
  destruct (IH b c d H) as [-> ->]; [lia | done].
Qed.

Lemma append_inv_tail (a c b : string) : a +:+ b = c +:+ b -> a = c.
Proof.
  intros H. apply append_eq_length in H as [? _]; [done|].
  apply (f_equal String.length) in H. rewrite !length_append in H. lia.
Qed.

(** two ways to cut a text: one of the cuts comes first *)
Lemma append_eq_append (a : string) : forall b c d,
  a +:+ b = c +:+ d ->
  (exists x, c = a +:+ x /\ b = x +:+ d) \/
  (exists x, x <> EmptyString /\ a = c +:+ x /\ d = x +:+ b).
Proof.
  induction a as [|y a IH]; intros b c d H.
  - left. exists c. by rewrite append_nil_l in H |- *.
  - destruct c as [|z c].
    + right. exists (String y a). rewrite append_nil_l in H. by subst d.
    + rewrite !append_cons in H. injection H as -> H.
      destruct (IH _ _ _ H) as [(x & -> & ->)|(x & Hx & -> & ->)].
      * left. by exists x.
      * right. by exists x.
Qed.

Lemma last_char_app (a : string) : forall prev b,
  last_char prev (a +:+ b) = last_char (last_char prev a) b.
Proof.
  induction a as [|c a IH]; intros prev b; [done|].
  rewrite append_cons. simpl. apply IH.
Qed.

(** *** [re.sub] and its relation *)

Section Sub.
Context {M : Type} (try : option ascii -> string -> option (M * nat)).
Context (repl : M -> string).

Lemma scan_skip (mt : string) : forall prev rest,
  scan try prev (String.length mt) (mt +:+ rest)
    = scan try (last_char prev mt) 0 rest.
Proof.
  induction mt as [|c mt IH]; intros prev rest.
  - rewrite append_nil_l. simpl. by destruct rest.
  - rewrite append_cons. simpl. apply IH.
Qed.

(** what the relation gives is what [re.sub] returns *)
Lemma rewrites_sub prev s o :
  rewrites try repl prev s o -> sub_pieces repl (scan try prev 0 s) = o.
Proof.
  induction 1 as [prev|prev c s o Ht _ IH|prev s m n mt rest o -> Ht Hn Hne _ IH].
  - done.
  - simpl. rewrite Ht. simpl. by rewrite IH.
  - destruct mt as [|c mt]; [done|]. rewrite append_cons in Ht |- *.
    simpl. rewrite Ht. simpl in Hn. subst n. simpl.
    rewrite Nat.sub_0_r, scan_skip. simpl in IH. by rewrite IH.
Qed.

Hypothesis try_span : forall prev s m n,
  try prev s = Some (m, n) -> 1 <= n /\ n <= String.length s.

(** and [re.sub] is in the relation *)
Lemma sub_rewrites_len k : forall s prev,
  String.length s <= k ->
  rewrites try repl prev s (sub_pieces repl (scan try prev 0 s)).
Proof.
  induction k as [|k IH]; intros s prev Hk.
  - destruct s; [constructor | simpl in Hk; lia].
  - destruct s as [|c s]; [constructor|]. simpl in Hk. simpl.
    destruct (try prev (String c s)) as [[m n]|] eqn:Ht.
    + destruct (try_span _ _ _ _ Ht) as [H1 H2]. simpl in H2.
      pose proof (substring_drop (String c s) n) as Hcut.
      pose proof (length_substring (String c s) n) as Hlen.
      destruct n as [|n]; [lia|]. simpl in Hcut, Hlen.
      set (mt := String c (substring 0 n s)) in *.
      set (rest := Layout.drop_chars n s) in *.
      assert (Hs : s = substring 0 n s +:+ rest) by (by injection Hcut).
      simpl. rewrite Nat.sub_0_r.
      assert (Hn : n = String.length (substring 0 n s)).
      { rewrite length_substring. lia. }
      rewrite Hs at 2. rewrite Hn at 1. rewrite scan_skip.
      eapply (rw_hit try repl prev (String c s) m (S n) mt rest).
      * unfold mt. by rewrite append_cons, <- Hs.
      * done.
      * unfold mt. simpl. by rewrite <- Hn.
      * done.
      * apply IH. apply (f_equal String.length) in Hs.
        rewrite length_append in Hs. lia.
    + simpl. constructor; [done|]. apply IH. lia.
Qed.

Lemma sub_rewrites s prev :
  rewrites try repl prev s (sub_pieces repl (scan try prev 0 s)).
Proof. by apply (sub_rewrites_len (String.length s)). Qed.
End Sub.

(** *** What the patterns look for *)

Lemma space_not_digit c : is_space c = true -> is_digit c = false.
Proof.
  intros H. destruct (is_digit c) eqn:Hd; [|done].
  apply digit_not_space in Hd. congruence.
Qed.

Lemma space_not_colon c : is_space c = true -> Ascii.eqb ":" c = false.
Proof.
  destruct c as [[] [] [] [] [] [] [] []]; vm_compute; congruence.
Qed.

Lemma colon_not_digit c : Ascii.eqb ":" c = true -> is_digit c = false.
Proof. intros H. apply Ascii.eqb_eq in H. by subst c. Qed.

Section Found.
Context {A : Type}.
Implicit Types (k : string -> option A) (p : ascii -> bool).
Implicit Types (f : string -> bool).

Lemma found_orelse (x y : option A) :
  found (match x with Some r => Some r | None => y end) = found x || found y.
Proof. by destruct x. Qed.

Lemma lit_some (t : string) : forall s k,
  lit t s k = match lit t s Some with Some r => k r | None => None end.
Proof.
  induction t as [|c t IH]; intros s k; [done|]. simpl.
  destruct s as [|d s]; [done|]. destruct (Ascii.eqb c d); [apply IH | done].
Qed.

(** a greedy run before a pattern that the characters of the run do not
    change *)
Lemma star_absorbs p k f :
  (forall s, found (k s) = f s) ->
  (forall c s, p c = true -> f (String c s) = f s) ->
  forall s, found (star p s k) = f s.
Proof.
  intros Hk Hf. induction s as [|c s IH]; simpl; [apply Hk|].
  destruct (p c) eqn:Hp; [|apply Hk].
  by rewrite found_orelse, IH, Hk, (Hf _ _ Hp), orb_diag.
Qed.

Lemma found_digits k f :
  (forall s, found (k s) = f s) ->
  forall s, found (star is_digit s (fun s6 => one (chr ".") s6 k))
            = digits_then f s.
Proof.
  intros Hk. induction s as [|c s IH]; [done|].
  cbn [star digits_then]. destruct (is_digit c) eqn:Hd.
  - rewrite found_orelse, IH. cbn [one]. unfold chr.
    by rewrite (digit_not_dot _ Hd), orb_false_r.
  - cbn [one]. unfold chr. destruct (Ascii.eqb "." c); [apply Hk | done].
Qed.

Lemma found_number k f :
  (forall s, found (k s) = f s) ->
  forall s, found (plus is_digit s (fun s6 => one (chr ".") s6 k))
            = number_then f s.
Proof.
  intros Hk [|c s]; [done|]. unfold plus. cbn [one number_then].
  destruct (is_digit c); [by apply found_digits | done].
Qed.

(** the white space and the colon before the number *)
Lemma found_spaces k f :
  (forall s, found (k s) = number_then f s) ->
  forall s, found (star is_space s k) = after_junk (number_then f) false s.
Proof.
  intros Hk. induction s as [|c s IH]; [by cbn; rewrite Hk|].
  cbn [star after_junk]. destruct (is_space c) eqn:Hs.
  - rewrite found_orelse, IH, Hk. cbn [number_then].
    by rewrite (space_not_digit _ Hs), orb_false_r.
  - by rewrite Hk.
Qed.

Lemma after_junk_weaken f s :
  after_junk (number_then f) false s = true ->
  after_junk (number_then f) true s = true.
Proof.
  induction s as [|c s IH]; [done|]. cbn [after_junk].
  destruct (is_space c); [done|]. destruct (Ascii.eqb ":" c) eqn:Hc; [|done].
  cbn [andb number_then]. by rewrite (colon_not_digit _ Hc).
Qed.

Lemma found_junk k f :
  (forall s, found (k s) = after_junk (number_then f) false s) ->
  forall s, found (star is_space s (fun s2 => opt (chr ":") s2 k))
            = after_junk (number_then f) true s.
Proof.
  intros Hk.
  assert (Hopt : forall c s, is_space c = false ->
            found (opt (chr ":") (String c s) k)
            = after_junk (number_then f) true (String c s)).
  { intros c s Hs. cbn [opt after_junk]. rewrite Hs. unfold chr.
    destruct (Ascii.eqb ":" c) eqn:Hc; cbn [andb].
    - rewrite found_orelse, !Hk. cbn [after_junk]. rewrite Hs. cbn [andb].
      cbn [number_then]. by rewrite (colon_not_digit _ Hc), orb_false_r.
    - rewrite Hk. cbn [after_junk]. by rewrite Hs. }
  induction s as [|c s IH]; [by cbn; rewrite Hk|].
  cbn [star]. destruct (is_space c) eqn:Hs; [|by apply Hopt].
  rewrite found_orelse, IH. cbn [opt after_junk]. unfold chr.
  rewrite Hs, (space_not_colon _ Hs), Hk. cbn [after_junk]. rewrite Hs.
  destruct (after_junk (number_then f) true s) eqn:Ht; [done|].
  destruct (after_junk (number_then f) false s) eqn:Hf; [|done].
  apply after_junk_weaken in Hf. congruence.
Qed.
End Found.

(** [header_marker] finds a match where [marker_at] says so, unless a
    line feed comes before *)
Lemma found_marker prev s :
  found (header_marker prev s)
  = negb (bool_decide (prev = Some LF)) && marker_at s.
Proof.
  unfold header_marker, marker_at. destruct (bool_decide _); [done|].
  rewrite lit_some. destruct (lit "SECTION" s Some) as [s1|]; [|done].
  cbn [negb andb]. apply found_junk. intros s3.
  apply found_spaces. intros s4. by apply found_number.
Qed.

Lemma header_marker_none prev s :
  header_marker prev s = None <-> prev = Some LF \/ marker_at s = false.
Proof.
  pose proof (found_marker prev s) as H.
  destruct (header_marker prev s) as [r|]; simpl in H.
  - symmetry in H. apply andb_true_iff in H as [H1 H2].
    apply negb_true_iff, bool_decide_eq_false in H1.
    split; [done|]. intros [?|?]; [done | congruence].
  - split; [|done]. intros _. symmetry in H.
    apply andb_false_iff in H as [H|H]; [|by right].
    left. by apply negb_false_iff, bool_decide_eq_true in H.
Qed.

Lemma found_title {A} (k : string -> option A) :
  (forall s, found (k s) = true) ->
  forall s, found (star is_space s (fun s8 => plus title_char s8 k))
            = spaces_title s.
Proof.
  intros Hk.
  assert (Hstar : forall s, found (star title_char s k) = true).
  { induction s as [|c s IH]; simpl; [apply Hk|].
    destruct (title_char c); [|apply Hk]. by rewrite found_orelse, IH. }
  assert (Hplus : forall c s, found (plus title_char (String c s) k)
                              = title_char c).
  { intros c s. unfold plus. cbn [one]. destruct (title_char c); [|done].
    apply Hstar. }
  induction s as [|c s IH]; [done|]. cbn [star spaces_title].
  destruct (is_space c) eqn:Hs.
  - rewrite found_orelse, IH, Hplus. cbn [andb]. apply orb_comm.
  - rewrite Hplus. cbn [andb]. by rewrite orb_false_r.
Qed.

Lemma found_space_title {A} (k : string -> option A) :
  (forall s, found (k s) = true) ->
  forall s, found (plus is_space s (fun s8 => plus title_char s8 k))
            = space_title s.
Proof.
  intros Hk [|c s]; [done|]. unfold plus at 1. cbn [one space_title].
  destruct (is_space c); [by apply found_title | done].
Qed.

(** [header_variant] finds a match where [variant_at] says so *)
Lemma found_variant prev s :
  found (header_variant prev s) = variant_at s.
Proof.
  unfold header_variant, variant_at.
  rewrite lit_some. destruct (lit "SECTION" s Some) as [s1|]; [|done].
  apply found_junk. intros s3.
  assert (Hnum : forall g,
    found (plus is_digit g (fun s6 => one (chr ".") s6 (fun s7 =>
            plus is_space s7 (fun s8 => plus title_char s8 (fun s9 =>
              Some (consumed g s9, String.length s - String.length s9))))))
    = number_then space_title g).
  { intros g. apply found_number. intros s7. by apply found_space_title. }
  assert (Hws : forall c x, is_space c = true ->
    after_junk (number_then space_title) false (String c x)
    = after_junk (number_then space_title) false x).
  { intros c x Hc. cbn [after_junk]. by rewrite Hc. }
  apply star_absorbs; [|done]. intros s4.
  apply star_absorbs.
  - intros s5. by apply found_spaces.
  - intros c x Hc. apply Hws. unfold chr in Hc. apply Ascii.eqb_eq in Hc.
    by subst c.
Qed.

Lemma header_variant_none prev s :
  header_variant prev s = None <-> variant_at s = false.
Proof.
  rewrite <- (found_variant prev s).
  by destruct (header_variant prev s).
Qed.

(** *** Texts that are the same up to the first S *)

Lemma S_not_space : is_space "S" = false. Proof. done. Qed.

Lemma carries_true lf : carries lf (fun _ => true).
Proof. by intros s o _ u _. Qed.

Lemma carries_spaces_title : carries false spaces_title.
Proof.
  intros s o Hag u. induction u as [|c u IH].
  - rewrite !append_nil_l.
    induction Hag as [|s o|s o Hlf|c s o Hc _ IH]; try done.
    cbn [spaces_title]. destruct (title_char c); [done|]. cbn [orb].
    destruct (is_space c); [apply IH | done].
  - rewrite !append_cons. cbn [spaces_title].
    destruct (title_char c); [done|]. cbn [orb].
    destruct (is_space c); [apply IH | done].
Qed.

Lemma carries_space_title : carries false space_title.
Proof.
  intros s o Hag [|c u].
  - rewrite !append_nil_l.
    destruct Hag as [|s o|s o Hlf|c s o Hc Hag]; try done.
    cbn [space_title]. destruct (is_space c); [|done].
    apply (carries_spaces_title s o Hag EmptyString).
  - rewrite !append_cons. cbn [space_title]. destruct (is_space c); [|done].
    apply (carries_spaces_title s o Hag u).
Qed.

Lemma carries_digits lf f : carries lf f -> carries lf (digits_then f).
Proof.
  intros Hf s o Hag u. induction u as [|c u IH].
  - rewrite !append_nil_l.
    induction Hag as [|s o|s o Hlf|c s o Hc Hag IH]; try done.
    cbn [digits_then]. destruct (is_digit c); [apply IH|].
    destruct (Ascii.eqb "." c); [|done]. apply (Hf s o Hag EmptyString).
  - rewrite !append_cons. cbn [digits_then].
    destruct (is_digit c); [apply IH|].
    destruct (Ascii.eqb "." c); [|done]. apply (Hf s o Hag u).
Qed.

Lemma carries_number lf f : carries lf f -> carries lf (number_then f).
Proof.
  intros Hf s o Hag [|c u].
  - rewrite !append_nil_l.
    destruct Hag as [|s o|s o Hlf|c s o Hc Hag]; try done.
    cbn [number_then]. destruct (is_digit c); [|done].
    apply (carries_digits lf f Hf s o Hag EmptyString).
  - rewrite !append_cons. cbn [number_then]. destruct (is_digit c); [|done].
    apply (carries_digits lf f Hf s o Hag u).
Qed.

Lemma carries_junk lf F : carries lf F ->
  forall colon, carries lf (after_junk F colon).
Proof.
  intros HF colon s o Hag u. revert colon. induction u as [|c u IH]; intros colon.
  - rewrite !append_nil_l. revert colon.
    induction Hag as [|s o|s o Hlf|c s o Hc Hag IH]; intros colon; try done.
    + cbn [after_junk]. rewrite S_not_space.
      replace (colon && Ascii.eqb ":" "S") with false by by destruct colon.
      apply (HF _ _ (agree_S lf s o) EmptyString).
    + cbn [after_junk]. rewrite S_not_space.
      replace (is_space LF) with true by done.
      replace (colon && Ascii.eqb ":" "S") with false by by destruct colon.
      apply (HF _ _ (agree_S lf s o) EmptyString).
    + cbn [after_junk]. destruct (is_space c); [apply IH|].
      destruct (colon && Ascii.eqb ":" c); [apply IH|].
      apply (HF _ _ (agree_keep lf c s o Hc Hag) EmptyString).
  - rewrite !append_cons. cbn [after_junk]. destruct (is_space c); [apply IH|].
    destruct (colon && Ascii.eqb ":" c); [apply IH|].
    specialize (HF s o Hag (String c u)). by rewrite !append_cons in HF.
Qed.

Lemma carries_lit lf G (l : string) :
  all_chars word_char l = true -> carries lf G ->
  carries lf (fun x => match lit l x Some with
                       | Some x1 => G x1
                       | None => false
                       end).
Proof.
  intros Hl HG. induction l as [|y l IH]; [exact HG|].
  cbn [all_chars] in Hl. apply andb_true_iff in Hl as [Hy Hl].
  specialize (IH Hl). unfold word_char in Hy.
  apply andb_true_iff in Hy as [Hy1 Hy2].
  intros s o Hag [|c u].
  - rewrite !append_nil_l.
    destruct Hag as [|s o|s o Hlf|c s o Hc Hag]; try done.
    + cbn [lit]. unfold not_S in Hy1. apply negb_true_iff in Hy1.
      by rewrite Hy1.
    + cbn [lit]. apply negb_true_iff in Hy2. by rewrite Hy2.
    + cbn [lit]. destruct (Ascii.eqb y c); [|done].
      apply (IH s o Hag EmptyString).
  - rewrite !append_cons. cbn [lit]. destruct (Ascii.eqb y c); [|done].
    apply (IH s o Hag u).
Qed.

(** after some characters of its own, [marker_at] does not look past
    the next S *)
Lemma marker_at_carries lf s o u :
  agree lf s o -> u <> EmptyString ->
  marker_at (u +:+ o) = true -> marker_at (u +:+ s) = true.
Proof.
  intros Hag Hu. destruct u as [|c u]; [done|].
  unfold marker_at. rewrite !append_cons.
  change "SECTION" with (String "S" "ECTION"). cbn [lit].
  destruct (Ascii.eqb "S" c); [|done].
  apply (carries_lit lf (after_junk (number_then (fun _ => true)) true)
           "ECTION" eq_refl); [|done].
  apply carries_junk, carries_number, carries_true.
Qed.

Lemma variant_at_carries s o u :
  agree false s o -> u <> EmptyString ->
  variant_at (u +:+ o) = true -> variant_at (u +:+ s) = true.
Proof.
  intros Hag Hu. destruct u as [|c u]; [done|].
  unfold variant_at. rewrite !append_cons.
  change "SECTION" with (String "S" "ECTION"). cbn [lit].
  destruct (Ascii.eqb "S" c); [|done].
  apply (carries_lit false (after_junk (number_then space_title) true)
           "ECTION" eq_refl); [|done].
  apply carries_junk, carries_number, carries_space_title.
Qed.

(** *** A line feed put in *)

Lemma carries_lf_true : carries_lf (fun _ => true).
Proof. by intros s o _ u _. Qed.

Lemma carries_lf_digits f : carries_lf f -> carries_lf (digits_then f).
Proof.
  intros Hf s o Hag u. induction u as [|c u IH]; [done|].
  rewrite !append_cons. cbn [digits_then].
  destruct (is_digit c); [apply IH|].
  destruct (Ascii.eqb "." c); [|done]. apply (Hf s o Hag u).
Qed.

Lemma carries_lf_number f : carries_lf f -> carries_lf (number_then f).
Proof.
  intros Hf s o Hag [|c u]; [done|].
  rewrite !append_cons. cbn [number_then]. destruct (is_digit c); [|done].
  apply (carries_lf_digits f Hf s o Hag u).
Qed.

Lemma carries_lf_junk F : carries false F -> carries_lf F ->
  forall colon, carries_lf (after_junk F colon).
Proof.
  intros HF HL colon s o Hag u. revert colon.
  induction u as [|c u IH]; intros colon.
  - rewrite !append_nil_l. cbn [after_junk].
    replace (is_space LF) with true by done.
    apply (carries_junk false F HF colon s o Hag EmptyString).
  - rewrite !append_cons. cbn [after_junk]. destruct (is_space c); [apply IH|].
    destruct (colon && Ascii.eqb ":" c); [apply IH|].
    specialize (HL s o Hag (String c u)). by rewrite !append_cons in HL.
Qed.

Lemma carries_lf_lit G (l : string) :
  all_chars word_char l = true -> carries_lf G ->
  carries_lf (fun x => match lit l x Some with
                       | Some x1 => G x1
                       | None => false
                       end).
Proof.
  intros Hl HG. induction l as [|y l IH]; [exact HG|].
  cbn [all_chars] in Hl. apply andb_true_iff in Hl as [Hy Hl].
  specialize (IH Hl). unfold word_char in Hy.
  apply andb_true_iff in Hy as [Hy1 Hy2].
  intros s o Hag [|c u].
  - rewrite !append_nil_l. cbn [lit]. apply negb_true_iff in Hy2.
    by rewrite Hy2.
  - rewrite !append_cons. cbn [lit]. destruct (Ascii.eqb y c); [|done].
    apply (IH s o Hag u).
Qed.

Lemma marker_at_carries_lf s o u :
  agree false s o -> u <> EmptyString ->
  marker_at (u +:+ String LF o) = true -> marker_at (u +:+ s) = true.
Proof.
  intros Hag Hu. destruct u as [|c u]; [done|].
  unfold marker_at. rewrite !append_cons.
  change "SECTION" with (String "S" "ECTION"). cbn [lit].
  destruct (Ascii.eqb "S" c); [|done].
  apply (carries_lf_lit (after_junk (number_then (fun _ => true)) true)
           "ECTION" eq_refl); [|done].
  apply carries_lf_junk.
  - apply carries_number, carries_true.
  - apply carries_lf_number, carries_lf_true.
Qed.

(** *** The passes keep the text up to the first S *)

Section Agree.
Context {M : Type} (try : option ascii -> string -> option (M * nat)).
Context (repl : M -> string) (lf : bool).

Hypothesis try_S : forall prev s m n,
  try prev s = Some (m, n) ->
  exists s', s = String "S" s' /\
    ((exists o', repl m = String "S" o') \/
     (lf = true /\ exists o', repl m = String LF (String "S" o'))).

Lemma rewrites_agree prev s o : rewrites try repl prev s o -> agree lf s o.
Proof.
  induction 1 as [prev|prev c s o Ht _ IH|prev s m n mt rest o Hs Ht Hn Hne _ IH].
  - constructor.
  - destruct (not_S c) eqn:Hc; [by constructor|].
    unfold not_S in Hc. apply negb_false_iff, Ascii.eqb_eq in Hc. subst c.
    constructor.
  - destruct (try_S _ _ _ _ Ht) as (s' & -> & [[o' ->]|[Hlf [o' ->]]]).
    + rewrite append_cons. constructor.
    + rewrite !append_cons. by constructor.
Qed.
End Agree.

(** *** Greedy runs *)

Section Greedy.
Context {A : Type}.
Implicit Types (k : string -> option A) (p : ascii -> bool).

Lemma star_none p k : forall s,
  star p s k = None ->
  forall x y, s = x +:+ y -> all_chars p x = true -> k y = None.
Proof.
  induction s as [|c s IH]; intros H x y Hs Hx.
  - destruct x; [|done]. rewrite append_nil_l in Hs. by subst y.
  - cbn [star] in H. destruct x as [|d x].
    + rewrite append_nil_l in Hs. subst y.
      destruct (p c); [by destruct (star p s k) | done].
    + rewrite append_cons in Hs. injection Hs as <- ->.
      cbn [all_chars] in Hx. apply andb_true_iff in Hx as [Hc Hx].
      rewrite Hc in H. destruct (star p (x +:+ y) k) eqn:Hs; [done|].
      by apply (IH eq_refl x y).
Qed.

Lemma star_none_intro p k : forall s,
  (forall x y, s = x +:+ y -> all_chars p x = true -> k y = None) ->
  star p s k = None.
Proof.
  induction s as [|c s IH]; intros H.
  - apply (H EmptyString EmptyString); done.
  - cbn [star]. pose proof (H EmptyString (String c s) eq_refl eq_refl) as Hk.
    destruct (p c) eqn:Hc; [|done]. rewrite IH; [done|].
    intros x y -> Hx. apply (H (String c x) y); [done|].
    cbn [all_chars]. by rewrite Hc.
Qed.

(** a greedy run stops at the longest run after which the rest of the
    pattern matches *)
Lemma star_longest p k s r :
  star p s k = Some r ->
  exists pre rest,
    s = pre +:+ rest /\ all_chars p pre = true /\ k rest = Some r /\
    forall x y, rest = x +:+ y -> x <> EmptyString ->
                all_chars p x = true -> k y = None.
Proof.
  induction s as [|c s IH]; cbn [star].
  - intros H. exists EmptyString, EmptyString. repeat split; try done.
    intros [|] y; done.
  - destruct (p c) eqn:Hc.
    + destruct (star p s k) as [r'|] eqn:Hs.
      * intros [= <-]. destruct (IH eq_refl) as (pre & rest & -> & Hp & Hk & Hmax).
        exists (String c pre), rest. cbn [all_chars]. by rewrite Hc, Hp.
      * intros Hk. exists EmptyString, (String c s). repeat split; try done.
        intros [|d x] y Hxy Hne Hx; [done|]. rewrite append_cons in Hxy.
        injection Hxy as <- ->. cbn [all_chars] in Hx.
        apply andb_true_iff in Hx as [_ Hx]. by eapply star_none.
    + intros Hk. exists EmptyString, (String c s). repeat split; try done.
      intros [|d x] y Hxy Hne Hx; [done|]. rewrite append_cons in Hxy.
      injection Hxy as <- ->. cbn [all_chars] in Hx. by rewrite Hc in Hx.
Qed.

Lemma star_takes p k r (pre : string) : forall rest,
  all_chars p pre = true -> k rest = Some r ->
  (forall x y, rest = x +:+ y -> x <> EmptyString ->
               all_chars p x = true -> k y = None) ->
  star p (pre +:+ rest) k = Some r.
Proof.
  induction pre as [|c pre IH]; intros rest Hp Hk Hmax.
  - rewrite append_nil_l. destruct rest as [|d rest]; [done|]. cbn [star].
    destruct (p d) eqn:Hd; [|done]. rewrite star_none_intro; [done|].
    intros x y -> Hx. apply (Hmax (String d x) y); [done..|].
    cbn [all_chars]. by rewrite Hd.
  - cbn [all_chars] in Hp. apply andb_true_iff in Hp as [Hc Hp].
    rewrite append_cons. cbn [star]. by rewrite Hc, (IH rest Hp Hk Hmax).
Qed.
End Greedy.

(** *** A pattern whose end always matches *)

Section Bind.
Context {A B : Type}.
Implicit Types (k : string -> option A) (f : string -> option B).
Implicit Types (fin : B -> option A) (p : ascii -> bool).

Lemma star_bind p k f fin :
  (forall x, fin x <> None) ->
  (forall r, k r = f r ≫= fin) ->
  forall s, star p s k = star p s f ≫= fin.
Proof.
  intros Hfin Hk. induction s as [|c s IH]; cbn [star]; [apply Hk|].
  destruct (p c); [|apply Hk]. rewrite IH.
  destruct (star p s f) as [x|]; simpl; [|apply Hk].
  by destruct (fin x) eqn:Hx; [|destruct (Hfin x)].
Qed.

Lemma one_bind p k f fin s :
  (forall r, k r = f r ≫= fin) -> one p s k = one p s f ≫= fin.
Proof. intros Hk. destruct s as [|c s]; [done|]. simpl. by destruct (p c). Qed.

Lemma plus_bind p k f fin :
  (forall x, fin x <> None) ->
  (forall r, k r = f r ≫= fin) ->
  forall s, plus p s k = plus p s f ≫= fin.
Proof.
  intros Hfin Hk s. unfold plus. apply one_bind. intros r.
  by apply star_bind.
Qed.
End Bind.

(** the end of a header, before whatever the pattern returns *)
Lemma header_end_bind {A} (fin : string -> option A) g :
  (forall x, fin x <> None) ->
  plus is_digit g (fun s6 =>
  one (chr ".") s6 (fun s7 =>
  plus is_space s7 (fun s8 =>
  plus title_char s8 fin)))
  = header_end g ≫= fin.
Proof.
  intros Hfin. unfold header_end.
  apply plus_bind; [done|]. intros s6.
  apply one_bind. intros s7.
  apply plus_bind; [done|]. intros s8.
  apply plus_bind; [done|]. done.
Qed.

Lemma title_head_plus s : title_head s = false <-> plus title_char s Some = None.
Proof.
  destruct s as [|c s]; [done|]. unfold plus. cbn [one title_head].
  destruct (title_char c); [|done]. split; [done|]. intros H.
  assert (Hf : found (star title_char s Some) = true).
  { clear H. induction s as [|d s IH]; [done|]. cbn [star].
    destruct (title_char d); [|done]. by rewrite found_orelse, IH. }
  by rewrite H in Hf.
Qed.

Lemma header_end_shape s r :
  header_end s = Some r ->
  exists d ds w W t T,
    s = String d (ds +:+ String "." (String w (W +:+ String t (T +:+ r)))) /\
    is_digit d = true /\ all_chars is_digit ds = true /\
    is_space w = true /\ all_chars is_space W = true /\
    title_char t = true /\ all_chars title_char T = true /\
    title_head r = false /\
    (forall x y, String t (T +:+ r) = x +:+ y -> x <> EmptyString ->
                 all_chars is_space x = true -> title_head y = false).
Proof.
  unfold header_end, plus. intros H.
  apply one_inv in H as (d & s1 & -> & Hd & H).
  apply star_inv in H as (ds & s2 & -> & Hds & H).
  apply one_inv in H as (dot & s3 & -> & Hdot & H).
  apply Ascii.eqb_eq in Hdot. subst dot.
  apply one_inv in H as (w & s4 & -> & Hw & H).
  apply star_longest in H as (W & s5 & -> & HW & H & Hmax).
  apply one_inv in H as (t & s6 & Hs5 & Ht & H).
  apply star_longest in H as (T & s7 & -> & HT & H & Hstop).
  injection H as ->. subst s5.
  exists d, ds, w, W, t, T. repeat split; try done.
  - destruct r as [|c r]; [done|]. cbn [title_head].
    destruct (title_char c) eqn:Hc; [|done].
    specialize (Hstop (String c EmptyString) r eq_refl).
    cbn [all_chars] in Hstop. rewrite Hc in Hstop. by discriminate Hstop.
  - intros x y Hxy Hne Hx. apply title_head_plus.
    apply (Hmax x y Hxy Hne Hx).
Qed.

(** the end of a header stays where it is when the text after it is
    changed, as long as the white space at the start of that text and the
    character after it do not look different to the pattern *)
Lemma header_end_stays g rest o :
  header_end (g +:+ rest) = Some rest ->
  (title_head o = true -> title_head rest = true) ->
  (forall w y, all_chars is_space w = true -> o = w +:+ y ->
               title_head y = true ->
               exists w' yr, all_chars is_space w' = true /\
                             rest = w' +:+ yr /\ title_head yr = true) ->
  header_end (g +:+ o) = Some o.
Proof.
  intros H Hhead Hlook.
  apply header_end_shape in H
    as (d & ds & w & W & t & T & Hs & Hd & Hds & Hw & HW & Ht & HT & Hr & Hmax).
  assert (Hg : g = String d (ds +:+ String "." (String w (W +:+ String t T)))).
  { apply (append_inv_tail _ _ rest). rewrite Hs.
    rewrite !append_cons, !append_assoc, !append_cons.
    by rewrite !append_assoc, !append_cons. }
  subst g. clear Hs.
  rewrite !append_cons, !append_assoc, !append_cons.
  rewrite !append_assoc, !append_cons.
  unfold header_end, plus. cbn [one]. rewrite Hd.
  apply star_takes; [done| |].
  2:{ intros [|c x] y Hxy Hne Hx; [done|]. rewrite append_cons in Hxy.
      injection Hxy as <- _. by destruct Hne. }
  cbn [one]. unfold chr at 1. rewrite Ascii.eqb_refl, Hw.
  apply star_takes; [done| |].
  - cbn [one]. rewrite Ht. apply star_takes; [done..|].
    intros [|c x] y -> Hne Hx; [done|]. rewrite append_cons in Hhead.
    cbn [all_chars] in Hx. apply andb_true_iff in Hx as [Hc _].
    cbn [title_head] in Hhead. rewrite (Hhead Hc) in Hr. done.
  - intros x y Hxy Hne Hx. apply title_head_plus.
    destruct (title_head y) eqn:Hy; [|done].
    change (String t (T +:+ o)) with (String t T +:+ o) in Hxy.
    apply append_eq_append in Hxy as [(x2 & -> & Ho)|(x2 & Hne2 & HtT & ->)].
    + (* [x] goes on into [o] *)
      rewrite all_chars_app in Hx.
      apply andb_true_iff in Hx as [HtT Hx2].
      destruct (Hlook x2 y Hx2 Ho Hy) as (w' & yr & Hw' & -> & Hyr).
      rewrite <- (Hmax (String t T +:+ w') yr); [done| |done|].
      * by rewrite append_assoc.
      * by rewrite all_chars_app, HtT, Hw'.
    + (* [x] ends inside the title *)
      rewrite <- (Hmax x (x2 +:+ rest)); [|  |done|done].
      * destruct x2 as [|c x2]; [done|]. by rewrite append_cons in Hy |- *.
      * change (String t (T +:+ rest)) with (String t T +:+ rest).
        by rewrite HtT, append_assoc.
Qed.

(** *** The shape of a match *)

Lemma opt_inv {A} p s (k : string -> option A) r :
  opt p s k = Some r ->
  exists pre rest, s = pre +:+ rest /\ k rest = Some r.
Proof.
  destruct s as [|c s]; cbn [opt].
  - intros H. by exists EmptyString, EmptyString.
  - destruct (p c).
    + destruct (k s) eqn:Hk.
      * intros [= <-]. by exists (String c EmptyString), s.
      * intros H. by exists EmptyString, (String c s).
    + intros H. by exists EmptyString, (String c s).
Qed.

Lemma header_end_cut s r :
  header_end s = Some r ->
  exists d g, s = String d g +:+ r /\ is_digit d = true.
Proof.
  intros H. apply header_end_shape in H
    as (d & ds & w & W & t & T & -> & Hd & _).
  exists d, (ds +:+ String "." (String w (W +:+ String t T))).
  split; [|done]. rewrite !append_cons, !append_assoc, !append_cons.
  by rewrite !append_assoc, !append_cons.
Qed.

(** a match of [header_variant]: the word SECTION and what comes before
    the number, and then the group, which ends where the match ends *)
Lemma header_variant_shape prev s g n :
  header_variant prev s = Some (g, n) ->
  exists J rest,
    s = String "S" J +:+ g +:+ rest /\
    n = S (String.length J) + String.length g /\
    header_end (g +:+ rest) = Some rest.
Proof.
  unfold header_variant. intros H.
  apply lit_inv in H as (s1 & Hs & H).
  apply star_inv in H as (w1 & s2 & -> & _ & H).
  apply opt_inv in H as (col & s3 & -> & H).
  apply star_inv in H as (w2 & s4 & -> & _ & H).
  apply star_inv in H as (w3 & s5 & -> & _ & H).
  apply star_inv in H as (w4 & gs & -> & _ & H).
  rewrite header_end_bind in H by done.
  destruct (header_end gs) as [s9|] eqn:Hend; [|done].
  simpl in H. injection H as Hg Hn.
  destruct (header_end_cut _ _ Hend) as (d & g0 & -> & Hd).
  rewrite consumed_append in Hg. subst g.
  exists ("ECTION" +:+ w1 +:+ col +:+ w2 +:+ w3 +:+ w4), s9.
  assert (Hs' : s = String "S" ("ECTION" +:+ w1 +:+ col +:+ w2 +:+ w3 +:+ w4)
                      +:+ String d g0 +:+ s9).
  { rewrite Hs. change "SECTION" with (String "S" "ECTION").
    by rewrite !append_cons, !append_assoc. }
  split; [done|]. split; [|done].
  rewrite <- Hn, Hs'. rewrite !length_append. cbn [String.length].
  rewrite !length_append. cbn [String.length]. lia.
Qed.

Lemma digit_not_lf c : is_digit c = true -> chr LF c = false.
Proof.
  destruct c as [[] [] [] [] [] [] [] []]; vm_compute; congruence.
Qed.

(** where the end of a header is found after "SECTION: ", both patterns
    match, with that group *)
Lemma header_variant_canonical g o :
  header_end (g +:+ o) = Some o ->
  header_variant None ("SECTION: " +:+ g +:+ o)
    = Some (g, 9 + String.length g).
Proof.
  intros Hend. destruct (header_end_cut _ _ Hend) as (d & g0 & Hg & Hd).
  apply append_inv_tail in Hg. 
  unfold header_variant.
  change "SECTION: " with ("SECTION" +:+ ": ").
  rewrite append_assoc, lit_app.
  change (": " +:+ g +:+ o) with (String ":" (String " " (g +:+ o))).
  cbn [star]. change (is_space ":") with false. cbn [opt].
  change (chr ":" ":") with true. cbn [star].
  change (is_space " ") with true.
  assert (Hin : forall (k : string -> option (string * nat)),
            star is_space (g +:+ o) k = k (g +:+ o)).
  { intros k. rewrite Hg, append_cons. cbn [star].
    by rewrite (digit_not_space _ Hd). }
  assert (Hlf : forall (k : string -> option (string * nat)),
            star (chr LF) (g +:+ o) k = k (g +:+ o)).
  { intros k. rewrite Hg, append_cons. cbn [star].
    by rewrite (digit_not_lf _ Hd). }
  rewrite Hin, Hlf, Hin.
  rewrite header_end_bind by done. rewrite Hend. simpl.
  rewrite consumed_append, !length_append. simpl.
  do 2 f_equal. lia.
Qed.

Lemma header_canonical g o :
  header_end (g +:+ o) = Some o ->
  forall prev,
    canonical_header prev ("SECTION: " +:+ g +:+ o)
      = Some ("SECTION: " +:+ g, 9 + String.length g).
Proof.
  intros Hend prev. destruct (header_end_cut _ _ Hend) as (d & g0 & Hg & Hd).
  apply append_inv_tail in Hg.
  unfold canonical_header.
  change "SECTION: " with ("SECTION:" +:+ " ") at 1.
  rewrite append_assoc, lit_app.
  change (" " +:+ g +:+ o) with (String " " (g +:+ o)).
  cbn [star]. change (is_space " ") with true.
  assert (Hin : forall (k : string -> option (string * nat)),
            star is_space (g +:+ o) k = k (g +:+ o)).
  { intros k. rewrite Hg, append_cons. cbn [star].
    by rewrite (digit_not_space _ Hd). }
  rewrite Hin. rewrite header_end_bind by done. rewrite Hend. simpl.
  rewrite <- append_assoc, consumed_append, !length_append. simpl.
  do 2 f_equal. lia.
Qed.

(** a match of [header_variant] that starts with "SECTION: " and takes
    nine characters before its group *)
Lemma canonical_form_end g rest :
  header_variant None ("SECTION: " +:+ g +:+ rest)
    = Some (g, 9 + String.length g) ->
  header_end (g +:+ rest) = Some rest.
Proof.
  intros H. apply header_variant_shape in H as (J & rest0 & Hs & Hn & Hend).
  assert (HJ : String.length (String "S" J) = String.length "SECTION: ")
    by (simpl; lia).
  apply append_eq_length in Hs as [_ Hs]; [|done].
  apply append_inv_head in Hs. by subst rest0.
Qed.

Lemma canonical_implies_variant prev s :
  canonical_header prev s <> None -> variant_at s = true.
Proof.
  unfold canonical_header, variant_at.
  change (lit "SECTION:" s ?k) with (lit "SECTION" s (fun r => lit ":" r k)).
  rewrite lit_some. destruct (lit "SECTION" s Some) as [s1|]; [|done].
  destruct s1 as [|c s1]; [done|]. cbn [lit after_junk].
  destruct (Ascii.eqb ":" c) eqn:Hc; [|done].
  apply Ascii.eqb_eq in Hc. subst c. change (is_space ":") with false.
  cbn [andb]. intros H.
  match type of H with
  | star is_space s1 ?k <> None =>
      pose proof (found_spaces k space_title) as Hf
  end.
  rewrite <- Hf.
  - by destruct (star is_space s1 _).
  - intros s2. apply found_number. intros s4. by apply found_space_title.
Qed.

(** *** What the passes need of the text after a match *)

Lemma agree_title_head lf s o :
  agree lf s o -> title_head o = true -> title_head s = true.
Proof. by destruct 1. Qed.

Lemma agree_spaces s o : agree false s o ->
  forall w y, all_chars is_space w = true -> o = w +:+ y ->
  exists yr, s = w +:+ yr /\ agree false yr y.
Proof.
  intros Hag w. revert s o Hag.
  induction w as [|c w IH]; intros s o Hag y Hw Ho.
  - rewrite append_nil_l in Ho. subst y. by exists s.
  - rewrite append_cons in Ho. cbn [all_chars] in Hw.
    apply andb_true_iff in Hw as [Hc Hw].
    destruct Hag as [|s o|s o Hlf|c' s o Hc' Hag]; try done.
    + injection Ho as <- _. done.
    + injection Ho as <- ->.
      destruct (IH _ _ Hag y Hw eq_refl) as (yr & -> & Hyr).
      by exists yr.
Qed.

(** the group of a match ends at the same place in the text that the
    second pass returns *)
Lemma header_end_rewritten g rest o :
  header_end (g +:+ rest) = Some rest -> agree false rest o ->
  header_end (g +:+ o) = Some o.
Proof.
  intros Hend Hag. apply (header_end_stays g rest o Hend).
  - by eapply agree_title_head.
  - intros w y Hw Ho Hy.
    destruct (agree_spaces _ _ Hag w y Hw Ho) as (yr & -> & Hyr).
    exists w, yr. split; [done|]. split; [done|].
    by eapply agree_title_head.
Qed.

(** and when a line feed is put after the group *)
Lemma header_end_line_feed g rest o :
  header_end (g +:+ rest) = Some rest -> agree false rest o ->
  header_end (g +:+ String LF o) = Some (String LF o).
Proof.
  intros Hend Hag. apply (header_end_stays g rest _ Hend); [done|].
  intros [|c w] y Hw Ho Hy.
  - rewrite append_nil_l in Ho. by subst y.
  - rewrite append_cons in Ho. injection Ho as <- Ho.
    cbn [all_chars] in Hw. apply andb_true_iff in Hw as [_ Hw].
    destruct (agree_spaces _ _ Hag w y Hw Ho) as (yr & -> & Hyr).
    exists w, yr. split; [done|]. split; [done|].
    by eapply agree_title_head.
Qed.

(** *** The spans of the matches *)

Lemma header_marker_span prev s g n :
  header_marker prev s = Some (g, n) -> 1 <= n /\ n <= String.length s.
Proof.
  intros H. split; [by eapply header_marker_consumes|].
  unfold header_marker in H. destruct (bool_decide _); [done|].
  consume H. injection H as _ <-. lia.
Qed.

Lemma header_variant_span prev s g n :
  header_variant prev s = Some (g, n) -> 1 <= n /\ n <= String.length s.
Proof.
  intros H. split; [by eapply header_variant_consumes|].
  unfold header_variant in H. consume H. injection H as _ <-. lia.
Qed.

Lemma canonical_header_span prev s g n :
  canonical_header prev s = Some (g, n) -> 1 <= n /\ n <= String.length s.
Proof. intros H. by apply canonical_header_grows in H as (? & ? & _). Qed.

Lemma all_chars_impl (p q : ascii -> bool) (s : string) :
  (forall c, p c = true -> q c = true) ->
  all_chars p s = true -> all_chars q s = true.
Proof.
  intros Hpq. induction s as [|c s IH]; [done|]. cbn [all_chars].
  intros H. apply andb_true_iff in H as [Hc Hs].
  by rewrite (Hpq _ Hc), IH.
Qed.

Lemma space_not_S c : is_space c = true -> not_S c = true.
Proof.
  destruct c as [[] [] [] [] [] [] [] []]; vm_compute; congruence.
Qed.

Lemma digit_not_S c : is_digit c = true -> not_S c = true.
Proof.
  destruct c as [[] [] [] [] [] [] [] []]; vm_compute; congruence.
Qed.

(** a match of [header_marker] is its group: the word SECTION and then
    no further S *)
Lemma header_marker_shape prev s g n :
  header_marker prev s = Some (g, n) ->
  exists g' rest,
    g = String "S" g' /\ all_chars not_S g' = true /\
    s = g +:+ rest /\ n = String.length g.
Proof.
  unfold header_marker. destruct (bool_decide _); [done|]. intros H.
  apply lit_inv in H as (s1 & Hs & H).
  apply star_inv in H as (w1 & s2 & -> & Hw1 & H).
  assert (Hcol : exists col s3, s2 = col +:+ s3 /\ all_chars not_S col = true /\
            star is_space s3 (fun s4 => plus is_digit s4 (fun s5 =>
              one (chr ".") s5 (fun s6 =>
                Some (consumed s s6, String.length s - String.length s6))))
            = Some (g, n)).
  { destruct s2 as [|c s2]; cbn [opt] in H.
    - by exists EmptyString, EmptyString.
    - destruct (chr ":" c) eqn:Hc.
      + apply Ascii.eqb_eq in Hc. subst c.
        match type of H with
        | match ?x with _ => _ end = _ => destruct x as [r|] eqn:Hk
        end.
        * injection H as ->. by exists ":", s2.
        * by exists EmptyString, (String ":" s2).
      + by exists EmptyString, (String c s2). }
  destruct Hcol as (col & s3 & -> & Hcol & H'). clear H.
  apply star_inv in H' as (w2 & s4 & -> & Hw2 & H).
  apply plus_inv in H as (d & ds & s5 & -> & Hd & Hds & H).
  apply one_inv in H as (dot & s6 & -> & Hdot & H).
  apply Ascii.eqb_eq in Hdot. subst dot.
  injection H as Hg Hn.
  set (g' := "ECTION" +:+ w1 +:+ col +:+ w2 +:+ String d (ds +:+ ".")).
  assert (Hs' : s = String "S" g' +:+ s6).
  { rewrite Hs. unfold g'. change "SECTION" with (String "S" "ECTION").
    rewrite !append_cons, !append_assoc, !append_cons.
    by rewrite !append_assoc, !append_cons. }
  rewrite Hs', consumed_append in Hg.
  exists g', s6. split; [done|]. split; [|split].
  - unfold g'. rewrite !all_chars_app. cbn [all_chars].
    rewrite (all_chars_impl _ _ _ space_not_S Hw1), Hcol.
    rewrite (all_chars_impl _ _ _ space_not_S Hw2), (digit_not_S _ Hd).
    rewrite all_chars_app, (all_chars_impl _ _ _ digit_not_S Hds). done.
  - by rewrite <- Hg.
  - rewrite <- Hn, <- Hg, Hs', length_append. lia.
Qed.

(** *** Where no match of the first pattern starts *)

Lemma unmarked_drop (a : string) : forall q b,
  unmarked q (a +:+ b) -> unmarked (last_char q a) b.
Proof.
  induction a as [|c a IH]; intros q b H; [done|].
  rewrite append_cons in H. inversion H; subst. by apply IH.
Qed.

Lemma header_marker_other q c s :
  not_S c = true -> header_marker q (String c s) = None.
Proof.
  intros Hc. apply header_marker_none. right. unfold marker_at.
  cbn [lit]. unfold not_S in Hc. apply negb_true_iff in Hc.
  by rewrite Ascii.eqb_sym, Hc.
Qed.

Lemma unmarked_word (w : string) : forall q rest,
  all_chars not_S w = true -> unmarked (last_char q w) rest ->
  unmarked q (w +:+ rest).
Proof.
  induction w as [|c w IH]; intros q rest Hw H; [done|].
  cbn [all_chars] in Hw. apply andb_true_iff in Hw as [Hc Hw].
  rewrite append_cons. constructor; [by apply header_marker_other|].
  by apply IH.
Qed.

Lemma header_marker_carries lf s o u q :
  agree lf s o -> u <> EmptyString ->
  header_marker q (u +:+ s) = None -> header_marker q (u +:+ o) = None.
Proof.
  intros Hag Hu H. apply header_marker_none in H as [H|H].
  - apply header_marker_none. by left.
  - apply header_marker_none. right.
    destruct (marker_at (u +:+ o)) eqn:Ho; [|done].
    by rewrite (marker_at_carries lf s o u Hag Hu Ho) in H.
Qed.

Lemma unmarked_carries lf rest o : agree lf rest o ->
  forall u q,
    unmarked q (u +:+ rest) ->
    (unmarked (last_char q u) rest -> unmarked (last_char q u) o) ->
    unmarked q (u +:+ o).
Proof.
  intros Hag. induction u as [|c u IH]; intros q H Hrest.
  - by apply Hrest.
  - rewrite append_cons in H |- *. inversion H as [|? ? ? Hm Hu]; subst.
    constructor.
    + apply (header_marker_carries lf rest o (String c u) q Hag); done.
    + by apply IH.
Qed.

Lemma unmarked_carries_lf rest o : agree false rest o ->
  forall u q,
    unmarked q (u +:+ rest) -> unmarked (Some LF) o ->
    unmarked q (u +:+ String LF o).
Proof.
  intros Hag. induction u as [|c u IH]; intros q H Ho.
  - rewrite append_nil_l. constructor; [|done].
    by apply header_marker_other.
  - rewrite append_cons in H |- *. inversion H as [|? ? ? Hm Hu]; subst.
    constructor; [|by apply IH].
    apply header_marker_none in Hm as [Hm|Hm];
      apply header_marker_none; [by left|right].
    destruct (marker_at (String c (u +:+ String LF o))) eqn:Hmo; [|done].
    pose proof (marker_at_carries_lf rest o (String c u) Hag) as Ht.
    rewrite !append_cons in Ht. by rewrite Ht in Hm.
Qed.

(** a match of the second or third pattern is a match of the first *)
Lemma variant_implies_marker s : variant_at s = true -> marker_at s = true.
Proof.
  unfold variant_at, marker_at.
  destruct (lit "SECTION" s Some) as [s1|]; [|done].
  assert (Hd : forall x, digits_then space_title x = true ->
                         digits_then (fun _ => true) x = true).
  { induction x as [|c x IH]; [done|]. cbn [digits_then].
    destruct (is_digit c); [done|]. by destruct (Ascii.eqb "." c). }
  assert (Hj : forall colon x,
            after_junk (number_then space_title) colon x = true ->
            after_junk (number_then (fun _ => true)) colon x = true).
  { intros colon x. revert colon.
    induction x as [|c x IH]; intros colon; [done|]. cbn [after_junk].
    destruct (is_space c); [apply IH|].
    destruct (colon && Ascii.eqb ":" c); [apply IH|].
    cbn [number_then]. destruct (is_digit c); [apply Hd | done]. }
  apply Hj.
Qed.

Lemma agree_marker prev s o :
  rewrites header_marker (fun g1 => NL +:+ g1) prev s o -> agree true s o.
Proof.
  apply rewrites_agree. intros q x m n H.
  apply header_marker_shape in H as (g' & rest & -> & _ & -> & _).
  exists (g' +:+ rest). split; [done|]. right. split; [done|].
  by exists g'.
Qed.

Lemma agree_variant prev s o :
  rewrites header_variant (fun g1 => "SECTION: " +:+ g1) prev s o ->
  agree false s o.
Proof.
  apply rewrites_agree. intros q x m n H.
  apply header_variant_shape in H as (J & rest & -> & _ & _).
  exists (J +:+ m +:+ rest). split; [done|]. left.
  by exists ("ECTION: " +:+ m).
Qed.

Lemma canonical_header_shape prev s g n :
  canonical_header prev s = Some (g, n) ->
  exists g' rest, g = String "S" g' /\ s = g +:+ rest /\ n = String.length g.
Proof.
  intros H. pose proof (canonical_header_whole _ _ _ _ H) as Hs.
  pose proof (canonical_header_grows _ _ _ _ H) as (H1 & H2 & H3).
  rewrite length_append in H3. simpl in H3.
  unfold canonical_header in H. apply lit_inv in H as (s1 & Hs1 & _).
  destruct g as [|c g']; [simpl in H3; lia|].
  exists g', (Layout.drop_chars n s). split; [|split; [done|lia]].
  rewrite Hs1 in Hs. rewrite append_cons in Hs.
  change "SECTION:" with (String "S" "ECTION:") in Hs.
  rewrite append_cons in Hs. by injection Hs as <- _.
Qed.

Lemma agree_canonical prev s o :
  rewrites canonical_header (fun g1 => g1 +:+ NL) prev s o ->
  agree false s o.
Proof.
  apply rewrites_agree. intros q x m n H.
  apply canonical_header_shape in H as (g' & rest & -> & -> & _).
  exists (g' +:+ rest). split; [done|]. left.
  by exists (g' +:+ NL).
Qed.

(** *** The first pattern finds nothing in what the passes return *)

Lemma pass1_unmarked prev x o :
  rewrites header_marker (fun g1 => NL +:+ g1) prev x o -> unmarked prev o.
Proof.
  intros Hrw. pose proof (agree_marker _ _ _ Hrw) as Hag0. clear Hag0.
  induction Hrw as [prev|prev c s o Ht Hrw IH
                   |prev s m n mt rest o Hs Ht Hn Hne Hrw IH].
  - constructor.
  - constructor; [|done].
    apply (header_marker_carries true s o (String c EmptyString) prev);
      [by eapply agree_marker | done | done].
  - apply header_marker_shape in Ht as (g' & rest0 & -> & Hg' & Hs0 & ->).
    rewrite Hs in Hs0. apply append_eq_length in Hs0 as [-> _]; [|done].
    change (NL +:+ String "S" g') with (String LF (String "S" g')).
    rewrite !append_cons. constructor; [by apply header_marker_other|].
    constructor; [apply header_marker_none; by left|].
    by apply unmarked_word.
Qed.

Lemma pass2_unmarked prev y o :
  rewrites header_variant (fun g1 => "SECTION: " +:+ g1) prev y o ->
  unmarked prev y -> unmarked prev o.
Proof.
  intros Hrw.
  induction Hrw as [prev|prev c s o Ht Hrw IH
                   |prev s m n mt rest o Hs Ht Hn Hne Hrw IH]; intros Hum.
  - constructor.
  - inversion Hum as [|? ? ? Hm Hs]; subst. constructor; [|by apply IH].
    apply (header_marker_carries false s o (String c EmptyString) prev);
      [by eapply agree_variant | done | done].
  - pose proof (agree_variant _ _ _ Hrw) as Hag.
    assert (Hmark : marker_at s = true).
    { apply variant_implies_marker. rewrite <- (found_variant prev s).
      by rewrite Ht. }
    apply header_variant_shape in Ht as (J & rest0 & Hs0 & -> & Hend).
    rewrite Hs in Hs0.
    change (String "S" J +:+ m +:+ rest0)
      with ((String "S" J) +:+ (m +:+ rest0)) in Hs0.
    rewrite <- append_assoc in Hs0.
    apply append_eq_length in Hs0 as [-> <-];
      [|rewrite length_append; simpl; lia].
    destruct (header_end_cut _ _ Hend) as (d & g0 & Hg & Hd).
    apply append_inv_tail in Hg. subst m.
    (* the match starts after a line feed *)
    assert (Hprev : prev = Some LF).
    { rewrite append_assoc in Hs. subst s. rewrite append_cons in Hum, Hmark.
      inversion Hum as [|? ? ? Hm _]; subst.
      apply header_marker_none in Hm as [Hm|Hm]; [done|congruence]. }
    (* what is left of the text after the digit is as it was *)
    assert (Htail : unmarked (Some d) (g0 +:+ o)).
    { apply (unmarked_carries false rest o Hag).
      - subst s.
        replace ((String "S" J +:+ String d g0) +:+ rest)
          with ((String "S" J +:+ String d EmptyString) +:+ (g0 +:+ rest))
          in Hum by (by rewrite !append_assoc).
        apply unmarked_drop in Hum.
        by rewrite last_char_app in Hum.
      - rewrite last_char_app in IH. cbn [last_char] in IH.
        intros Hrest. apply IH. subst s. apply unmarked_drop in Hum.
        by rewrite last_char_app in Hum. }
    change (unmarked prev
              (String "S" (("ECTION: " +:+ String d EmptyString)
                             +:+ (g0 +:+ o)))).
    constructor.
    + apply header_marker_none. by left.
    + apply unmarked_word; [|exact Htail].
      rewrite all_chars_app. cbn [all_chars]. by rewrite (digit_not_S _ Hd).
Qed.

Lemma pass3_unmarked prev z o :
  rewrites canonical_header (fun g1 => g1 +:+ NL) prev z o ->
  unmarked prev z ->
  forall q, q = prev \/ q = Some LF -> unmarked q o.
Proof.
  intros Hrw.
  induction Hrw as [prev|prev c s o Ht Hrw IH
                   |prev s m n mt rest o Hs Ht Hn Hne Hrw IH]; intros Hum q Hq.
  - constructor.
  - inversion Hum as [|? ? ? Hm Hs]; subst. constructor.
    + destruct Hq as [->| ->]; [|apply header_marker_none; by left].
      apply (header_marker_carries false s o (String c EmptyString) prev);
        [by eapply agree_canonical | done | done].
    + apply IH; [done | by left].
  - pose proof (agree_canonical _ _ _ Hrw) as Hag.
    assert (Hmark : marker_at s = true).
    { apply variant_implies_marker.
      apply (canonical_implies_variant prev). by rewrite Ht. }
    apply canonical_header_shape in Ht as (g' & rest0 & -> & Hs0 & ->).
    rewrite Hs in Hs0. apply append_eq_length in Hs0 as [-> <-]; [|done].
    subst s. rewrite append_cons in Hum, Hmark.
    inversion Hum as [|? ? ? Hm Hin]; subst.
    rewrite !append_assoc, append_cons.
    change (NL +:+ o) with (String LF o). constructor.
    + apply header_marker_none. left.
      destruct Hq as [->| ->]; [|done].
      apply header_marker_none in Hm as [Hm|Hm]; [done|congruence].
    + apply (unmarked_carries_lf rest o Hag); [done|].
      apply IH; [|by right].
      apply (unmarked_drop g' (Some "S"%char) rest Hin).
Qed.

Lemma unmarked_fixed z : forall prev,
  unmarked prev z ->
  sub_pieces (fun g1 => NL +:+ g1) (scan header_marker prev 0 z) = z.
Proof.
  induction z as [|c z IH]; intros prev H; [done|].
  inversion H as [|? ? ? Hm Hz]; subst. cbn [scan]. rewrite Hm.
  cbn [sub_pieces]. by rewrite IH.
Qed.

(** *** The second pattern finds its own rewriting *)

Lemma header_variant_other c s :
  not_S c = true -> header_variant None (String c s) = None.
Proof.
  intros Hc. apply header_variant_none. unfold variant_at.
  cbn [lit]. unfold not_S in Hc. apply negb_true_iff in Hc.
  by rewrite Ascii.eqb_sym, Hc.
Qed.

Lemma header_variant_carries s o c :
  agree false s o ->
  header_variant None (String c s) = None ->
  header_variant None (String c o) = None.
Proof.
  intros Hag H. apply header_variant_none in H. apply header_variant_none.
  destruct (variant_at (String c o)) eqn:Ho; [|done].
  pose proof (variant_at_carries s o (String c EmptyString) Hag) as Ht.
  change (String c EmptyString +:+ ?x) with (String c x) in Ht.
  by rewrite Ht in H.
Qed.

Lemma pass2_canonical prev y o :
  rewrites header_variant (fun g1 => "SECTION: " +:+ g1) prev y o ->
  canonical_text o.
Proof.
  intros Hrw.
  induction Hrw as [prev|prev c s o Ht Hrw IH
                   |prev s m n mt rest o Hs Ht Hn Hne Hrw IH].
  - constructor.
  - constructor; [|done].
    apply (header_variant_carries s o c); [by eapply agree_variant | done].
  - pose proof (agree_variant _ _ _ Hrw) as Hag.
    apply header_variant_shape in Ht as (J & rest0 & Hs0 & -> & Hend).
    rewrite Hs in Hs0.
    change (String "S" J +:+ m +:+ rest0)
      with ((String "S" J) +:+ (m +:+ rest0)) in Hs0.
    rewrite <- append_assoc in Hs0.
    apply append_eq_length in Hs0 as [_ <-];
      [|rewrite length_append; simpl; lia].
    rewrite append_assoc.
    apply (ct_hit _ m o); [done| |done].
    apply header_variant_canonical.
    by apply (header_end_rewritten m rest o).
Qed.

Lemma pass3_canonical prev z o :
  rewrites canonical_header (fun g1 => g1 +:+ NL) prev z o ->
  canonical_text z -> canonical_text o.
Proof.
  intros Hrw.
  induction Hrw as [prev|prev c s o Ht Hrw IH
                   |prev s m n mt rest o Hs Ht Hn Hne Hrw IH]; intros Hct.
  - constructor.
  - inversion Hct as [|? ? Hv Hs|? g rest Hz Hv Hrest]; subst.
    + constructor; [|by apply IH].
      apply (header_variant_carries s o c); [by eapply agree_canonical|done].
    + rewrite Hz in Hv, Ht. apply canonical_form_end in Hv.
      rewrite (header_canonical g rest Hv prev) in Ht. done.
  - pose proof (agree_canonical _ _ _ Hrw) as Hag.
    inversion Hct as [Hz|c s' Hv Hs' Hz|? g rest0 Hz Hv Hrest]; subst.
    + destruct mt; [done|]. by rewrite append_cons in Hz.
    + apply header_variant_none in Hv. rewrite Hz in Hv.
      rewrite (canonical_implies_variant prev) in Hv; [done|].
      by rewrite Ht.
    + rewrite Hz in Hv, Ht. apply canonical_form_end in Hv.
      rewrite (header_canonical g rest0 Hv prev) in Ht.
      injection Ht as <- Hlen. rewrite <- append_assoc in Hz.
      apply append_eq_length in Hz as [_ ->];
        [|rewrite length_append; simpl; lia].
      rewrite !append_assoc. change (NL +:+ o) with (String LF o).
      apply (ct_hit _ g (String LF o)); [done| |].
      * apply header_variant_canonical.
        by apply (header_end_line_feed g rest0).
      * constructor; [by apply header_variant_other | by apply IH].
Qed.

Lemma canonical_text_rewrites z :
  canonical_text z ->
  forall prev,
    rewrites header_variant (fun g1 => "SECTION: " +:+ g1) prev z z.
Proof.
  induction 1 as [|c s Hv _ IH|s g rest -> Hv _ IH]; intros prev.
  - constructor.
  - by constructor.
  - rewrite <- append_assoc at 2.
    apply (rw_hit header_variant (fun g1 => "SECTION: " +:+ g1) prev _ g
             (9 + String.length g) ("SECTION: " +:+ g) rest); done.
Qed.

(** *** The first two passes on what the normalizer returns *)

Lemma normalize_unmarked x : unmarked None (normalize x).
Proof.
  unfold normalize, pass3, pass2, pass1, sub.
  eapply (pass3_unmarked None); [| |by left].
  - apply sub_rewrites. apply canonical_header_span.
  - eapply pass2_unmarked.
    + apply sub_rewrites. apply header_variant_span.
    + eapply pass1_unmarked. apply sub_rewrites. apply header_marker_span.
Qed.

Lemma normalize_canonical x : canonical_text (normalize x).
Proof.
  unfold normalize, pass3, pass2, sub.
  eapply (pass3_canonical None).
  - apply sub_rewrites. apply canonical_header_span.
  - eapply pass2_canonical. apply sub_rewrites. apply header_variant_span.
Qed.

Lemma pass1_normalize x : pass1 (normalize x) = normalize x.
Proof. apply unmarked_fixed, normalize_unmarked. Qed.

Lemma pass2_normalize x : pass2 (normalize x) = normalize x.
Proof.
  apply rewrites_sub, canonical_text_rewrites, normalize_canonical.
Qed.

Lemma normalize_again x : normalize (normalize x) = pass3 (normalize x).
Proof.
  unfold normalize at 1. by rewrite pass1_normalize, pass2_normalize.
Qed.

End Stability.

(** ** Dicts *)

Module DictFacts.
Import PyDict.

Section Facts.
Context {V : Type}.
Implicit Types (d : list (string * V)) (k : string) (v : V).

Lemma mem_lookup k d : mem k d = true <-> is_Some (lookup k d).
Proof.
  unfold mem. destruct (lookup k d); split; intros H; eauto.
  - discriminate.
  - by destruct H.
Qed.

Lemma mem_keys k d : mem k d = true <-> k ∈ keys d.
Proof.
  unfold mem, keys.
  induction d as [|[k' v'] d IH]; simpl.
  - split; [discriminate | intros H; inversion H].
  - destruct (String.eqb_spec k k') as [->|Hne].
    + split; [intros _; left | done].
    + rewrite IH. split; [by right |].
      intros H. inversion H; subst; [done | assumption].
Qed.

Lemma lookup_set_eq k v d : lookup k (set k v d) = Some v.
Proof.
  induction d as [|[k' v'] d IH]; simpl.
  - by rewrite String.eqb_refl.
  - destruct (String.eqb_spec k k') as [->|Hne]; simpl.
    + by rewrite String.eqb_refl.
    + by destruct (String.eqb_spec k k').
Qed.

Lemma lookup_set_ne k k' v d :
  k <> k' -> lookup k' (set k v d) = lookup k' d.
Proof.
  intros Hne. induction d as [|[k0 v0] d IH]; simpl.
  - by destruct (String.eqb_spec k' k) as [->|].
  - destruct (String.eqb_spec k k0) as [->|Hk]; simpl.
    + by destruct (String.eqb_spec k' k0) as [->|].
    + by rewrite IH.
Qed.

(** assigning to a key that is present moves nothing *)
Lemma keys_set_mem k v d : mem k d = true -> keys (set k v d) = keys d.
Proof.
  unfold mem, keys. induction d as [|[k' v'] d IH]; simpl; [done|].
  destruct (String.eqb_spec k k') as [->|Hne]; simpl; [done|].
  intros H. by rewrite IH.
Qed.

(** assigning to a new key appends it *)
Lemma set_fresh k v d : mem k d = false -> set k v d = d ++ [(k, v)].
Proof.
  unfold mem. induction d as [|[k' v'] d IH]; simpl; [done|].
  destruct (String.eqb_spec k k') as [->|Hne]; [done|].
  intros H. by rewrite IH.
Qed.
End Facts.
End DictFacts.

(** ** The walk of [split_sections] *)

Module WalkFacts.
Import PyStr Generator Spec.

(** the effect of a header part in generator1 *)
Lemma walk_step_header cur result part g1 n :
  is_empty (strip part) = false ->
  startswith (strip part) "SECTION:" = true ->
  canonical_header None (strip part) = Some (g1, n) ->
  walk_step (cur, result) part =
    Ok (Some (strip g1),
        if PyDict.mem (strip g1) result then result
        else result ++ [(strip g1, EmptyString)]).
Proof.
  intros He Hs Hm. unfold walk_step. rewrite He, Hs, Hm.
  destruct (PyDict.mem (strip g1) result) eqn:Hmem; [done|].
  by rewrite DictFacts.set_fresh.
Qed.

(** the effect of a body part in generator1: the stripped text and a
    line feed go to the end of the current body *)
Lemma walk_step_body cs result part v :
  is_empty (strip part) = false ->
  startswith (strip part) "SECTION:" = false ->
  is_empty cs = false ->
  PyDict.lookup cs result = Some v ->
  walk_step (Some cs, result) part =
    Ok (Some cs,
        PyDict.set cs (v +:+ strip (strip part) +:+ NL) result).
Proof.
  intros He Hs Hcs Hv. unfold walk_step, truthy, PyDict.iadd.
  by rewrite He, Hs, Hcs, Hv.
Qed.

(** text met before the first header is dropped *)
Lemma walk_step_no_section result part :
  startswith (strip part) "SECTION:" = false ->
  walk_step (None, result) part = Ok (None, result).
Proof.
  intros Hs. unfold walk_step. rewrite Hs.
  by destruct (is_empty (strip part)).
Qed.

(** In generator3 and generator4 every header part assigns the empty
    string to its entry, whatever body the entry held. *)
Lemma walk_step3_resets cur result part :
  is_empty (strip part) = false ->
  startswith (strip part) "SECTION:" = true ->
  exists result',
    walk_step3 (cur, result) part = Ok (Some (strip part), result') /\
    PyDict.lookup (strip part) result' = Some EmptyString.
Proof.
  intros He Hs. unfold walk_step3. rewrite He, Hs.
  eexists. split; [done|]. apply DictFacts.lookup_set_eq.
Qed.

Lemma extends_refl r : extends r r.
Proof.
  split; [done|]. intros k v Hv. exists EmptyString.
  by rewrite Hv, StrFacts.append_nil_r.
Qed.

Lemma extends_trans r1 r2 r3 : extends r1 r2 -> extends r2 r3 -> extends r1 r3.
Proof.
  intros [Hp1 Hv1] [Hp2 Hv2]. split; [by etrans|].
  intros k v Hk. destruct (Hv1 _ _ Hk) as [w1 H1].
  destruct (Hv2 _ _ H1) as [w2 H2]. exists (w1 +:+ w2).
  by rewrite H2, StrFacts.append_assoc.
Qed.

(** A turn of the loop of generator1 never raises, keeps the state
    consistent, and only extends the result. *)
Lemma walk_step_ok st part :
  walk_inv st ->
  exists st', walk_step st part = Ok st' /\ walk_inv st' /\
              extends (snd st) (snd st').
Proof.
  destruct st as [cur result]. intros [Hnd Hcur]. simpl in *.
  unfold walk_step.
  destruct (is_empty (strip part)) eqn:He.
  { eexists; split; [done|]. split; [done | apply extends_refl]. }
  destruct (startswith (strip part) "SECTION:") eqn:Hs.
  - destruct (canonical_header None (strip part)) as [[g1 n]|] eqn:Hm.
    + destruct (PyDict.mem (strip g1) result) eqn:Hmem.
      * eexists; split; [done|]. split; [done | apply extends_refl].
      * eexists; split; [done|]. rewrite DictFacts.set_fresh by done.
        split; [split|split]; simpl.
        -- unfold PyDict.keys. rewrite map_app. simpl.
           apply NoDup_app. split; [done|]. split; [|apply NoDup_singleton].
           intros k Hk Hk'. apply list_elem_of_singleton in Hk'. subst k.
           apply DictFacts.mem_keys in Hk. congruence.
        -- apply DictFacts.mem_keys. unfold PyDict.keys.
           rewrite map_app. simpl. set_solver.
        -- unfold PyDict.keys. rewrite map_app. by apply prefix_app_r.
        -- intros k v Hk. exists EmptyString.
           assert (Hl : PyDict.lookup k (result ++ [(strip g1, EmptyString)])
                        = Some v).
           { clear -Hk. induction result as [|[k' v'] d IH]; simpl in *;
               [done|]. destruct (String.eqb k k'); auto. }
           by rewrite Hl, StrFacts.append_nil_r.
    + eexists; split; [done|]. split; [done | apply extends_refl].
  - destruct cur as [cs|]; simpl.
    2:{ eexists; split; [done|]. split; [done | apply extends_refl]. }
    destruct (is_empty cs) eqn:Hcs; simpl.
    { eexists; split; [done|]. split; [done | apply extends_refl]. }
    unfold PyDict.iadd.
    destruct (proj1 (DictFacts.mem_lookup _ _) Hcur) as [v Hv]. rewrite Hv.
    simpl. eexists; split; [done|]. split; [split|split]; simpl.
    + by rewrite DictFacts.keys_set_mem.
    + apply DictFacts.mem_keys. rewrite DictFacts.keys_set_mem by done.
      by apply DictFacts.mem_keys.
    + by rewrite DictFacts.keys_set_mem.
    + intros k v' Hk. destruct (decide (cs = k)) as [->|Hne].
      * rewrite DictFacts.lookup_set_eq.
        assert (v' = v) as -> by congruence. by eexists.
      * rewrite DictFacts.lookup_set_ne by done. exists EmptyString.
        by rewrite Hk, StrFacts.append_nil_r.
Qed.

Lemma for_each_walk_ok parts : forall st,
  walk_inv st ->
  exists st', for_each walk_step st parts = Ok st' /\ walk_inv st' /\
              extends (snd st) (snd st').
Proof.
  induction parts as [|part parts IH]; intros st Hinv; simpl.
  - exists st. split; [done|]. split; [done | apply extends_refl].
  - destruct (walk_step_ok st part Hinv) as (st1 & Hstep & Hinv1 & Hext1).
    rewrite Hstep. simpl.
    destruct (IH st1 Hinv1) as (st2 & Hrun & Hinv2 & Hext2).
    exists st2. split; [done|]. split; [done | by eapply extends_trans].
Qed.

Lemma walk_inv_init : walk_inv (None, []).
Proof. split; simpl; [constructor | done]. Qed.

(** The walk of generator1 returns for every list of parts, and no key
    of its result occurs twice. *)
Lemma walk_total parts :
  exists result, walk parts = Ok result /\ NoDup (PyDict.keys result).
Proof.
  destruct (for_each_walk_ok parts _ walk_inv_init) as (st & Hrun & Hinv & _).
  exists (snd st). unfold walk. rewrite Hrun. split; [done | apply Hinv].
Qed.

Lemma split_document_total text :
  exists result, split_document text = Ok result.
Proof.
  destruct (walk_total (Re.split canonical_header (normalize text)))
    as (r & Hr & _). by exists r.
Qed.

End WalkFacts.

(** ** [split_sections] *)

Module SplitSections.
Import PyStr Generator Spec.

(** C1.  Scenario 4: the payload whose requirement text is
    "SECTION:1. Purpose\nDo X.\nSECTION 2. Scope\nDo Y.\n", given as a dict
    or as a JSON text that decodes to it, is split into the two sections
    "SECTION: 1. Purpose" with body "Do X.\n" and "SECTION: 2. Scope" with
    body "Do Y.\n", in this order; generator3 gives the same result. *)
Theorem scenario4_split (json_loads : string -> option pyval) :
  let text := "SECTION:1. Purpose" +:+ NL +:+ "Do X." +:+ NL +:+
              "SECTION 2. Scope" +:+ NL +:+ "Do Y." +:+ NL in
  let sections := [("SECTION: 1. Purpose", "Do X." +:+ NL);
                   ("SECTION: 2. Scope", "Do Y." +:+ NL)] in
  split_sections json_loads (VDict [("REQUIREMENT", VStr text)])
    = Ok sections /\
  split_sections3 json_loads (VDict [("REQUIREMENT", VStr text)])
    = Ok sections /\
  forall s, json_loads s = Some (VDict [("REQUIREMENT", VStr text)]) ->
            split_sections json_loads (VStr s) = Ok sections.
Proof.
  split; [|split].
  - vm_compute. reflexivity.
  - vm_compute. reflexivity.
  - intros s Hs. unfold split_sections, load_requirement. rewrite Hs.
    vm_compute. reflexivity.
Qed.

Lemma scenario4_split_witness :
  let text := "SECTION:1. Purpose" +:+ NL +:+ "Do X." +:+ NL +:+
              "SECTION 2. Scope" +:+ NL +:+ "Do Y." +:+ NL in
  let decode := fun _ : string => Some (VDict [("REQUIREMENT", VStr text)]) in
  split_sections decode (VStr "{}")
    = Ok [("SECTION: 1. Purpose", "Do X." +:+ NL);
          ("SECTION: 2. Scope", "Do Y." +:+ NL)].
Proof.
  intros text decode.
  apply (proj2 (proj2 (scenario4_split decode)) "{}"). reflexivity.
Defined.

(** C2.  In generator3 (and generator4) a section label that occurs a
    second time has its entry assigned the empty string again, so the
    body gathered so far is lost: on "SECTION: 1. A\nx\nSECTION: 1. A\ny\n"
    the result holds "y\n" only, where generator1 holds "x\ny\n". *)
Theorem generator3_resets_repeated_section
    (json_loads : string -> option pyval) :
  let text := "SECTION: 1. A" +:+ NL +:+ "x" +:+ NL +:+
              "SECTION: 1. A" +:+ NL +:+ "y" +:+ NL in
  let payload := VDict [("REQUIREMENT", VStr text)] in
  split_sections3 json_loads payload
    = Ok [("SECTION: 1. A", "y" +:+ NL)] /\
  split_sections json_loads payload
    = Ok [("SECTION: 1. A", "x" +:+ NL +:+ "y" +:+ NL)].
Proof. split; vm_compute; reflexivity. Qed.

(** C4 as stated fails: a second run of the three passes on their own
    output appends a further line feed after the header. *)
Lemma normalize_not_idempotent :
  normalize "SECTION: 1. A" = NL +:+ "SECTION: 1. A" +:+ NL /\
  normalize (normalize "SECTION: 1. A")
    = NL +:+ "SECTION: 1. A" +:+ NL +:+ NL /\
  normalize (normalize "SECTION: 1. A") <> normalize "SECTION: 1. A".
Proof.
  repeat split; try (vm_compute; reflexivity). vm_compute. discriminate.
Qed.

(** C4 (as the code has it).  The first two passes leave every output of
    the normalizer as it is, so a second run is the third pass on that
    output.  The third pass appends one line feed after every canonical
    header that it finds, whether or not one follows already: it puts in
    line feeds and changes nothing else, it lengthens the text by the
    number of headers found, it leaves the text unchanged exactly when it
    finds none, and it finds a header again in its own output.  So a
    second run puts line feeds into the output of the first and rewrites
    nothing, one line feed for every canonical header of that output; it
    returns the output unchanged exactly when the output holds no
    canonical header, and otherwise a third run changes the text again.
    A text without an occurrence of SECTION is returned unchanged by
    every run. *)
Theorem normalizer_fixed_points :
  (forall x, no_section x ->
             normalize x = x /\ normalize (normalize x) = normalize x) /\
  (forall x, pass1 (normalize x) = normalize x /\
             pass2 (normalize x) = normalize x /\
             normalize (normalize x) = pass3 (normalize x)) /\
  (forall y, lf_inserted y (pass3 y)) /\
  (forall y, String.length (pass3 y) = String.length y + headers_found y) /\
  (forall y, pass3 y = y <-> headers_found y = 0) /\
  (forall y, headers_found y <> 0 ->
             pass3 y <> y /\ pass3 (pass3 y) <> pass3 y) /\
  (forall x, lf_inserted (normalize x) (normalize (normalize x)) /\
             String.length (normalize (normalize x))
               = String.length (normalize x) + headers_found (normalize x) /\
             (normalize (normalize x) = normalize x
              <-> headers_found (normalize x) = 0) /\
             (headers_found (normalize x) <> 0 ->
              normalize (normalize (normalize x))
                <> normalize (normalize x))).
Proof.
  split; [|split; [|split; [|split; [|split; [|split]]]]].
  - intros x Hx. pose proof (NormalizeFacts.normalize_without_section x Hx) as H.
    split; [done|]. by rewrite !H.
  - intros x. split; [apply Stability.pass1_normalize|].
    split; [apply Stability.pass2_normalize | apply Stability.normalize_again].
  - apply NormalizeFacts.pass3_inserts.
  - apply NormalizeFacts.pass3_length.
  - apply NormalizeFacts.pass3_fixed.
  - intros y Hy. split.
    + by rewrite NormalizeFacts.pass3_fixed.
    + rewrite NormalizeFacts.pass3_fixed.
      by apply NormalizeFacts.pass3_finds_again.
  - intros x. rewrite (Stability.normalize_again (normalize x)).
    rewrite !(Stability.normalize_again x).
    split; [apply NormalizeFacts.pass3_inserts|].
    split; [apply NormalizeFacts.pass3_length|].
    split; [apply NormalizeFacts.pass3_fixed|].
    intros Hx. rewrite NormalizeFacts.pass3_fixed.
    by apply NormalizeFacts.pass3_finds_again.
Qed.

Lemma normalizer_fixed_points_witness :
  (normalize ("Do X." +:+ NL +:+ "Do Y.") = "Do X." +:+ NL +:+ "Do Y.") /\
  (pass3 "SECTION: 1. A" <> "SECTION: 1. A" /\
   pass3 (pass3 "SECTION: 1. A") <> pass3 "SECTION: 1. A") /\
  (normalize (normalize (normalize "SECTION 2. Scope"))
     <> normalize (normalize "SECTION 2. Scope")).
Proof.
  destruct normalizer_fixed_points as (H1 & _ & _ & _ & _ & H6 & H7).
  split; [|split].
  - apply H1. apply NormalizeFacts.occurs_no_section. reflexivity.
  - apply H6. vm_compute. discriminate.
  - apply H7. vm_compute. discriminate.
Defined.

(** C7.  [split_sections] fails with a failure of the decoding of the
    payload exactly when the payload is neither a dict nor a string that
    decodes to a dict; when the requirement text is a string, it fails in
    no other case; and a dict without the key "REQUIREMENT" gives the empty
    result. *)
Theorem split_sections_invalid_payload
    (json_loads : string -> option pyval) :
  (forall payload,
      (exists e, split_sections json_loads payload = Raise e
                 /\ InvalidPayload e)
      <-> ~ object_payload json_loads payload) /\
  (forall payload,
      requirement_is_text json_loads payload ->
      raises (split_sections json_loads payload)
      <-> ~ object_payload json_loads payload) /\
  (forall d, PyDict.lookup "REQUIREMENT" d = None ->
             split_sections json_loads (VDict d) = Ok []).
Proof.
  assert (Hdoc : forall v e,
    match v with VStr text => split_document text | _ => Raise TypeError end
      = Raise e -> ~ InvalidPayload e).
  { intros v e He [H|[H|H]]; subst e; destruct v as [text| |];
      try discriminate;
      destruct (WalkFacts.split_document_total text) as [r Hr];
      congruence. }
  assert (Hload : forall payload,
    raises (load_requirement json_loads payload)
    <-> ~ object_payload json_loads payload).
  { intros payload. unfold load_requirement, raises.
    destruct payload as [s|d|]; simpl.
    - destruct (json_loads s) as [[s'|d|]|] eqn:Hs; simpl.
      + split; [intros _ [d Hd]; discriminate | eauto].
      + split; [intros [e He]; discriminate | intros H; destruct H; eauto].
      + split; [intros _ [d Hd]; discriminate | eauto].
      + split; [intros _ [d Hd]; discriminate | eauto].
    - split; [intros [e He]; discriminate | tauto].
    - split; [tauto | eauto]. }
  split; [|split].
  - intros payload. rewrite <- Hload. unfold split_sections, raises.
    destruct (load_requirement json_loads payload) as [v|e] eqn:Hv; simpl.
    + split; [|intros [e He]; discriminate].
      intros (e & He & Hinv). by apply Hdoc in He.
    + split; [eauto|]. intros _. exists e. split; [done|].
      unfold load_requirement in Hv. unfold InvalidPayload.
      destruct payload as [s|d|]; simpl in Hv.
      * destruct (json_loads s) as [[s'|d|]|]; simpl in Hv;
          injection Hv as <- || discriminate; auto.
      * discriminate.
      * injection Hv as <-. auto.
  - intros payload Htext. rewrite <- Hload. unfold split_sections, raises.
    destruct (load_requirement json_loads payload) as [v|e] eqn:Hv; simpl.
    + destruct (Htext v Hv) as [text ->].
      destruct (WalkFacts.split_document_total text) as [r Hr]. rewrite Hr.
      split; intros [e He]; discriminate.
    + split; eauto.
  - intros d Hd. unfold split_sections, load_requirement, PyDict.get.
    simpl. rewrite Hd. vm_compute. reflexivity.
Qed.

Lemma split_sections_invalid_payload_witness :
  (exists e, split_sections (fun _ => None) VOther = Raise e
             /\ InvalidPayload e) /\
  raises (split_sections (fun _ => None) (VStr "not json")) /\
  ~ raises (split_sections (fun _ => None)
              (VDict [("REQUIREMENT", VStr "SECTION: 1. A")])) /\
  split_sections (fun _ => None) (VDict [("TITLE", VStr "x")]) = Ok [].
Proof.
  destruct (split_sections_invalid_payload (fun _ => None)) as (H1 & H2 & H3).
  split; [|split; [|split]].
  - apply H1. simpl. intros H. exact H.
  - apply H2.
    + intros v Hv. discriminate Hv.
    + simpl. intros [d Hd]. discriminate Hd.
  - intros Hr. apply H2 in Hr.
    + apply Hr. exact I.
    + intros v Hv. injection Hv as <-. by eexists.
  - apply H3. reflexivity.
Defined.

End SplitSections.


(** ** The line patterns of [generate_doc] *)

Module PatternFacts.
Import PyStr Re Spec Docx ReFacts.

(** A line that matches the pattern of a main section starts with its
    number, a run of digits, then a dot and a white space. *)
Lemma section_header_shape l number title :
  section_header_pattern l = Some (number, title) ->
  all_chars is_digit number = true /\ number <> EmptyString /\
  exists c rest, lstrip_chars is_digit l = String "." (String c rest)
                 /\ is_space c = true.
Proof.
  unfold section_header_pattern. intros H.
  apply plus_inv in H as (c & pre & s1 & Hl & Hc & Hpre & H).
  apply one_inv in H as (d & s2 & -> & Hd & H).
  apply Ascii.eqb_eq in Hd. subst d.
  apply plus_inv in H as (e & ws & s3 & -> & He & _ & H).
  apply plus_inv in H as (x & t & s4 & -> & _ & _ & H).
  apply eos_inv in H. injection H as Hn _.
  assert (Hl' : l = String c pre +:+ String "." (String e (ws +:+ String x (t +:+ s4))))
    by (by rewrite StrFacts.append_cons).
  rewrite Hl' in Hn. rewrite StrFacts.consumed_append in Hn. subst number.
  split; [simpl; by rewrite Hc, Hpre|]. split; [done|].
  exists e, (ws +:+ String x (t +:+ s4)). split; [|done].
  rewrite Hl'. apply lstrip_run; [simpl; by rewrite Hc, Hpre | done].
Qed.

(** A line that matches the pattern of a subsection starts with its main
    number, a run of digits, then a dot and a digit. *)
Lemma subheading_shape l main sub title :
  subheading_pattern l = Some (main, sub, title) ->
  all_chars is_digit main = true /\ main <> EmptyString /\
  exists c rest, lstrip_chars is_digit l = String "." (String c rest)
                 /\ is_digit c = true.
Proof.
  unfold subheading_pattern. intros H.
  apply plus_inv in H as (c & pre & s1 & Hl & Hc & Hpre & H).
  apply one_inv in H as (d & s2 & -> & Hd & H).
  apply Ascii.eqb_eq in Hd. subst d.
  apply plus_inv in H as (e & ds & s3 & -> & He & _ & H).
  apply plus_inv in H as (w & ws & s4 & -> & _ & _ & H).
  apply plus_inv in H as (x & t & s5 & -> & _ & _ & H).
  apply eos_inv in H. injection H as Hn _ _.
  assert (Hl' : l = String c pre +:+
                    String "." (String e (ds +:+ String w (ws +:+ String x (t +:+ s5)))))
    by (by rewrite StrFacts.append_cons).
  rewrite Hl' in Hn. rewrite StrFacts.consumed_append in Hn. subst main.
  split; [simpl; by rewrite Hc, Hpre|]. split; [done|].
  eexists e, _. split; [|done].
  rewrite Hl'. apply lstrip_run; [simpl; by rewrite Hc, Hpre | done].
Qed.

Lemma nonempty_digits_head (s : string) :
  all_chars is_digit s = true -> s <> EmptyString ->
  exists c s', s = String c s' /\ is_digit c = true.
Proof.
  destruct s as [|c s']; [done|]. simpl. intros H _.
  apply andb_true_iff in H as [Hc _]. eauto.
Qed.

(** Such a line is not blank, no fence, no table row and no main
    section: the loop takes it to the subsection branch. *)
Lemma subheading_dispatch l main sub title :
  subheading_pattern l = Some (main, sub, title) ->
  is_empty l = false /\ startswith l "```" = false /\
  table_line_pattern l = None /\ section_header_pattern l = None.
Proof.
  intros H. pose proof (subheading_shape _ _ _ _ H) as (_ & _ & c & rest & Hrun & Hc).
  unfold subheading_pattern in H.
  apply plus_inv in H as (d & pre & s1 & -> & Hd & _ & _).
  split; [done|]. split; [|split].
  - by apply digit_not_fence.
  - unfold table_line_pattern, one. cbv beta iota.
    by rewrite (digit_not_pipe _ Hd).
  - destruct (section_header_pattern _) as [[number t]|] eqn:Hs; [|done].
    apply section_header_shape in Hs as (_ & _ & c' & rest' & Hrun' & Hc').
    rewrite Hrun in Hrun'. injection Hrun' as -> _.
    apply digit_not_space in Hc. congruence.
Qed.

End PatternFacts.

(** ** The loop of [generate_doc] *)

Module DocxFacts.
Import PyStr Re Spec Docx ReFacts PatternFacts.

Lemma bind_ok_inv {A B} (r : res A) (f : A -> res B) b :
  r ≫= f = Ok b -> exists a, r = Ok a /\ f a = Ok b.
Proof. destruct r as [a|e]; simpl; [eauto | done]. Qed.

Lemma headings_app d1 d2 : headings (d1 ++ d2) = headings d1 ++ headings d2.
Proof.
  induction d1 as [|b d1 IH]; [done|]. destruct b; simpl; by rewrite ?IH.
Qed.

Lemma headings_paragraphs texts : headings (map paragraph_of texts) = [].
Proof. by induction texts. Qed.

(** [flush_section] as the source spells it: [add_heading] when the
    section is new, then [add_paragraph] for every pending line *)
Lemma flush_section_calls st :
  doc (flush_section st)
    = fold_left add_paragraph (current_content st)
        (if negb (is_empty (current_section st))
            && bool_decide (current_section st ∉ seen_sections st)
         then add_heading (doc st) (current_section st)
         else doc st).
Proof.
  assert (Hfold : forall texts d,
    fold_left add_paragraph texts d = d ++ map paragraph_of texts).
  { induction texts as [|t texts IH]; intros d; simpl.
    - by rewrite app_nil_r.
    - rewrite IH. unfold add_paragraph. by rewrite <- app_assoc. }
  rewrite Hfold. unfold flush_section, flush_heading, add_heading. simpl.
  destruct (_ && _); simpl; [by rewrite <- app_assoc | done].
Qed.

Lemma doc_inv_init title : doc_inv (init title).
Proof.
  split; simpl.
  - constructor.
  - intros t. set_solver.
  - by left.
  - intros n _ H. set_solver.
Qed.

Lemma flush_section_inv st : doc_inv st -> doc_inv (flush_section st).
Proof.
  intros [Hnd Hseen Hcur Hauto].
  unfold flush_section, flush_heading.
  destruct (negb (is_empty (current_section st))
            && bool_decide (current_section st ∉ seen_sections st)) eqn:Hemit;
    split; simpl;
    rewrite ?headings_app; simpl; rewrite ?headings_paragraphs, ?app_nil_r;
    try done.
  - apply andb_true_iff in Hemit as [_ Hnew]. apply bool_decide_eq_true in Hnew.
    apply NoDup_app. split; [done|]. split; [|apply NoDup_singleton].
    intros t Ht Ht'. apply list_elem_of_singleton in Ht'. subst t.
    by apply Hnew, Hseen.
  - intros t. rewrite elem_of_union, elem_of_singleton, elem_of_app,
      list_elem_of_singleton. by rewrite Hseen.
  - intros n Hn Hin. apply elem_of_union in Hin as [Hin|Hin]; [by apply Hauto|].
    apply elem_of_singleton in Hin.
    destruct Hcur as [Hcur|(number & title & Hcur & Hdig & Hknown)].
    + apply andb_true_iff in Hemit as [Hne _]. by rewrite Hcur in Hne.
    + assert (n = number) as ->; [|done].
      rewrite Hcur in Hin. unfold auto_title in Hin.
      by eapply (digit_prefix_inj n number).
Qed.

Lemma on_main_section_inv st number title :
  doc_inv st -> all_chars is_digit number = true ->
  doc_inv (on_main_section st number title).
Proof.
  intros Hinv Hdig. apply flush_section_inv in Hinv.
  destruct Hinv as [Hnd Hseen Hcur Hauto]. unfold on_main_section.
  split; simpl; try done.
  - right. exists number, title. split; [done|]. split; [done|].
    apply elem_of_union. right. by apply elem_of_singleton.
  - intros n Hn Hin. apply elem_of_union. left. by apply Hauto.
Qed.

Lemma on_subsection_inv st main sub title :
  doc_inv st -> all_chars is_digit main = true ->
  doc_inv (on_subsection st main sub title).
Proof.
  intros Hinv Hdig. apply flush_section_inv in Hinv.
  unfold on_subsection. cbv zeta. revert Hinv.
  generalize (flush_section st). intros st1 [Hnd Hseen Hcur Hauto].
  destruct (bool_decide (main ∉ known_main_sections st1)
            && bool_decide (auto_title main ∉ seen_sections st1)) eqn:Hins;
    split; simpl; unfold add_subheading, add_heading;
    rewrite ?headings_app; simpl; rewrite ?app_nil_r; try done.
  - apply andb_true_iff in Hins as [_ Hnew]. apply bool_decide_eq_true in Hnew.
    apply NoDup_app. split; [done|]. split; [|apply NoDup_singleton].
    intros t Ht Ht'. apply list_elem_of_singleton in Ht'. subst t.
    by apply Hnew, Hseen.
  - intros t. rewrite elem_of_union, elem_of_singleton, elem_of_app,
      list_elem_of_singleton. by rewrite Hseen.
  - destruct Hcur as [Hcur|(number & t & Hcur & Hd & Hknown)]; [by left|].
    right. exists number, t. split; [done|]. split; [done|].
    apply elem_of_union. by left.
  - intros n Hn Hin. apply elem_of_union.
    apply elem_of_union in Hin as [Hin|Hin]; [left; by apply Hauto|].
    right. apply elem_of_singleton. apply elem_of_singleton in Hin.
    unfold auto_title in Hin. by eapply (digit_prefix_inj n main).
Qed.

Lemma add_markdown_table_inv doc lines doc' :
  add_markdown_table doc lines = Ok doc' ->
  exists hdr_cells body, doc' = doc ++ [Table hdr_cells body].
Proof.
  unfold add_markdown_table. destruct lines as [|line0 lines]; [done|].
  intros H. apply bind_ok_inv in H as (hdr & _ & H).
  apply bind_ok_inv in H as (body & _ & H). injection H as <-. eauto.
Qed.

Lemma on_table_end_inv st st' :
  doc_inv st -> on_table_end st = Ok st' -> doc_inv st'.
Proof.
  intros Hinv H. apply flush_section_inv in Hinv.
  unfold on_table_end in H. cbv zeta in H. revert Hinv H.
  generalize (flush_section st). intros st1 [Hnd Hseen Hcur Hauto] H.
  apply bind_ok_inv in H as (doc' & Ht & H). injection H as <-.
  apply add_markdown_table_inv in Ht as (hdr & body & ->).
  split; simpl; rewrite ?headings_app; simpl; rewrite ?app_nil_r; done.
Qed.

(** every turn of the loop keeps the invariant *)
Lemma step_inv st line st' :
  doc_inv st -> step st line = Ok st' -> doc_inv st'.
Proof.
  intros Hinv. unfold step.
  destruct (is_empty (strip line)); [by intros [= <-]|].
  destruct (startswith (strip line) "```").
  { intros [= <-]. destruct Hinv. unfold on_fence, add_code_block.
    destruct (negb (in_code_block st)); split; simpl;
      rewrite ?headings_app; simpl; rewrite ?app_nil_r; done. }
  destruct (in_code_block st).
  { intros [= <-]. by destruct Hinv. }
  destruct (bool_decide (is_Some (table_line_pattern (strip line)))).
  { intros [= <-]. by destruct Hinv. }
  destruct (in_table st); [by apply on_table_end_inv|].
  destruct (section_header_pattern (strip line)) as [[number title]|] eqn:Hm.
  { intros [= <-]. apply on_main_section_inv; [done|].
    by apply section_header_shape in Hm as [? _]. }
  destruct (subheading_pattern (strip line)) as [[[main sub] title]|] eqn:Hs.
  { intros [= <-]. apply on_subsection_inv; [done|].
    by apply subheading_shape in Hs as [? _]. }
  intros [= <-]. by destruct Hinv.
Qed.

Lemma run_app a : forall st b,
  run st (a ++ b) = run st a ≫= fun st' => run st' b.
Proof.
  induction a as [|line a IH]; intros st b; simpl; [done|].
  destruct (step st line) as [st1|e]; simpl; [apply IH | done].
Qed.

Lemma run_inv lines : forall st st',
  doc_inv st -> run st lines = Ok st' -> doc_inv st'.
Proof.
  induction lines as [|line lines IH]; simpl; intros st st' Hinv H.
  - by injection H as <-.
  - apply bind_ok_inv in H as (st1 & Hstep & H).
    eapply IH; [|done]. by eapply step_inv.
Qed.

(** the document only grows *)
Lemma flush_section_prefix st : doc st `prefix_of` doc (flush_section st).
Proof. simpl. by apply prefix_app_r. Qed.

Lemma step_prefix st line st' :
  step st line = Ok st' -> doc st `prefix_of` doc st'.
Proof.
  unfold step.
  destruct (is_empty (strip line)); [by intros [= <-]|].
  destruct (startswith (strip line) "```").
  { intros [= <-]. unfold on_fence, add_code_block.
    destruct (negb (in_code_block st)); simpl; [done | by apply prefix_app_r]. }
  destruct (in_code_block st); [by intros [= <-]|].
  destruct (bool_decide (is_Some (table_line_pattern (strip line))));
    [by intros [= <-]|].
  destruct (in_table st).
  { unfold on_table_end. intros H.
    apply bind_ok_inv in H as (doc' & Ht & H). injection H as <-. simpl.
    apply add_markdown_table_inv in Ht as (hdr & body & ->).
    etrans; [apply flush_section_prefix | by apply prefix_app_r]. }
  destruct (section_header_pattern (strip line)) as [[number title]|].
  { intros [= <-]. apply flush_section_prefix. }
  destruct (subheading_pattern (strip line)) as [[[main sub] title]|].
  { intros [= <-]. etrans; [apply flush_section_prefix|].
    unfold on_subsection. cbv zeta. generalize (flush_section st).
    intros st1. unfold add_subheading, add_heading. cbn [doc].
    destruct (_ && _); rewrite <- ?app_assoc; by apply prefix_app_r. }
  by intros [= <-].
Qed.

Lemma run_prefix lines : forall st st',
  run st lines = Ok st' -> doc st `prefix_of` doc st'.
Proof.
  induction lines as [|line lines IH]; simpl; intros st st' H.
  - by injection H as <-.
  - apply bind_ok_inv in H as (st1 & Hstep & H).
    etrans; [by eapply step_prefix | by eapply IH].
Qed.

Lemma headings_prefix d d' t :
  d `prefix_of` d' -> t ∈ headings d -> t ∈ headings d'.
Proof.
  intros [k ->] H. rewrite headings_app. apply elem_of_app. by left.
Qed.

(** a text that occurs once in a list without repetition is counted once *)
Lemma count_nodup (l : list string) t :
  NoDup l -> t ∈ l ->
  length (filter (fun x => x = t) l) = 1.
Proof.
  assert (Hnone : forall l' : list string,
             t ∉ l' -> filter (fun x => x = t) l' = []).
  { induction l' as [|y l' IH]; intros Hy; [done|].
    rewrite filter_cons. destruct (decide (y = t)) as [->|Hne].
    - destruct Hy. by left.
    - apply IH. intros H. apply Hy. by right. }
  induction 1 as [|x l Hx Hnd IH]; intros Hin; [by inversion Hin|].
  rewrite filter_cons. destruct (decide (x = t)) as [->|Hne].
  - simpl. by rewrite Hnone.
  - apply IH. inversion Hin; subst; done.
Qed.

End DocxFacts.

(** ** [generate_doc] *)

Module GenerateDoc.
Import PyStr Re Spec Docx ReFacts PatternFacts DocxFacts.

(** C6 as stated fails.  The main numbers are compared as they are
    written, so 03 and 3 are two numbers and get a placeholder each; and a
    subsection line that follows the rows of a table gets neither a
    placeholder nor a subheading. *)
Lemma placeholder_not_once_per_number :
  generate_doc ("03.1 A" +:+ NL +:+ "3.1 B") "T"
    = Ok [Title "T"; Heading "03. (Auto) Section"; Subheading "03.1 A";
          Heading "3. (Auto) Section"; Subheading "3.1 B"] /\
  generate_doc ("| a |" +:+ NL +:+ "3.1 Overview") "T"
    = Ok [Title "T"; Table ["a"] []].
Proof. split; vm_compute; reflexivity. Qed.

(** C6 (as the code has it).  A subsection line "N.M Title" that the loop
    reads outside a fenced block and with no table rows pending, while the
    digits N, as they are written, are not among the known main numbers,
    makes the loop emit, right after the flush, the placeholder heading
    "N. (Auto) Section" and then the subheading "N.M Title"; the
    placeholder was not in the document before, N is known afterwards, and
    whatever lines follow, the saved document holds this placeholder
    exactly once. *)
Theorem auto_heading_once title pre st line main sub subtitle :
  run (init title) pre = Ok st ->
  in_code_block st = false ->
  in_table st = false ->
  subheading_pattern (strip line) = Some (main, sub, subtitle) ->
  main ∉ known_main_sections st ->
  exists st',
    step st line = Ok st' /\
    doc st' = (doc (flush_section st)
                 ++ [Heading (main +:+ ". (Auto) Section");
                     Subheading (main +:+ "." +:+ sub +:+ " " +:+ subtitle)]) /\
    (main +:+ ". (Auto) Section" ∉ headings (doc (flush_section st))) /\
    main ∈ known_main_sections st' /\
    forall post st'',
      run st' post = Ok st'' ->
      length (filter (fun t => t = main +:+ ". (Auto) Section")
                (headings (doc (flush_section st'')))) = 1.
Proof.
  change (main +:+ ". (Auto) Section") with (auto_title main).
  intros Hrun Hcode Htable Hsub Hnew.
  assert (Hinv : doc_inv st) by (eapply run_inv; [apply doc_inv_init | done]).
  pose proof (subheading_shape _ _ _ _ Hsub) as (Hdig & _).
  pose proof (subheading_dispatch _ _ _ _ Hsub) as (He & Hf & Ht & Hm).
  assert (Hstep : step st line = Ok (on_subsection st main sub subtitle)).
  { unfold step. by rewrite He, Hf, Hcode, Ht, Htable, Hm, Hsub. }
  pose proof (flush_section_inv _ Hinv) as Hinv1.
  assert (Hfresh : auto_title main ∉ seen_sections (flush_section st)).
  { intros Hin. apply Hnew. by apply (inv_auto _ Hinv1). }
  assert (Hdoc : doc (on_subsection st main sub subtitle)
                 = doc (flush_section st)
                     ++ [Heading (auto_title main);
                         Subheading (main +:+ "." +:+ sub +:+ " " +:+ subtitle)]
                 /\ main ∈ known_main_sections (on_subsection st main sub subtitle)).
  { unfold on_subsection. cbv zeta. revert Hfresh.
    change (known_main_sections st)
      with (known_main_sections (flush_section st)) in Hnew.
    revert Hnew. generalize (flush_section st). intros st1 Hnew Hfresh.
    cbn [doc known_main_sections].
    rewrite (bool_decide_eq_true_2 _ Hnew), (bool_decide_eq_true_2 _ Hfresh).
    simpl. unfold add_subheading, add_heading. rewrite <- app_assoc.
    split; [done|]. apply elem_of_union. right. by apply elem_of_singleton. }
  destruct Hdoc as [Hdoc Hknown].
  exists (on_subsection st main sub subtitle).
  split; [done|]. split; [done|]. split; [|split; [done|]].
  - intros Hin. by apply Hfresh, (inv_seen _ Hinv1).
  - intros post st'' Hpost.
    assert (Hinv' : doc_inv (on_subsection st main sub subtitle))
      by by apply on_subsection_inv.
    pose proof (run_inv _ _ _ Hinv' Hpost) as Hinv''.
    apply flush_section_inv in Hinv''.
    apply count_nodup; [apply Hinv''|].
    eapply headings_prefix; [apply flush_section_prefix|].
    eapply headings_prefix; [by eapply run_prefix|].
    rewrite Hdoc, headings_app. apply elem_of_app. right. by left.
Qed.

Lemma auto_heading_once_witness :
  exists st',
    step (init "T") "3.1 Overview" = Ok st' /\
    doc st' = [Title "T"; Heading "3. (Auto) Section";
               Subheading "3.1 Overview"] /\
    ("3. (Auto) Section" ∉ headings (doc (flush_section (init "T")))) /\
    "3" ∈ known_main_sections st' /\
    forall post st'',
      run st' post = Ok st'' ->
      length (filter (fun t => t = "3. (Auto) Section")
                (headings (doc (flush_section st'')))) = 1.
Proof.
  apply (auto_heading_once "T" [] (init "T") "3.1 Overview" "3" "1" "Overview").
  - reflexivity.
  - reflexivity.
  - reflexivity.
  - vm_compute. reflexivity.
  - simpl. apply not_elem_of_empty.
Defined.

(** *** Lines inside a fenced block *)

Lemma append_code_nil st : append_code st [] = st.
Proof. destruct st. unfold append_code. simpl. by rewrite app_nil_r. Qed.

Lemma append_code_cons st l ls :
  append_code (on_code_line st l) ls = append_code st (l :: ls).
Proof.
  destruct st. unfold append_code, on_code_line. simpl.
  by rewrite <- app_assoc.
Qed.

Lemma fence_not_blank line : is_fence line = true -> is_empty (strip line) = false.
Proof. unfold is_fence. by destruct (strip line). Qed.

(** inside a code block a line that is no fence is stripped and, unless
    it is blank, goes to the buffer *)
Lemma step_in_code_block st line :
  in_code_block st = true -> is_fence line = false ->
  step st line =
    Ok (if is_empty (strip line) then st else on_code_line st (strip line)).
Proof.
  unfold is_fence, step. intros -> ->. by destruct (is_empty (strip line)).
Qed.

Lemma run_in_code_block lines : forall st,
  in_code_block st = true ->
  Forall (fun l => is_fence l = false) lines ->
  run st lines = Ok (append_code st (stripped_lines lines)).
Proof.
  induction lines as [|line lines IH]; intros st Hin Hall; simpl.
  - by rewrite append_code_nil.
  - inversion Hall as [|? ? Hline Hrest]; subst.
    rewrite step_in_code_block by done. simpl.
    unfold stripped_lines. simpl. rewrite filter_cons.
    destruct (is_empty (strip line)) eqn:He.
    + rewrite decide_False by done. by apply IH.
    + rewrite decide_True by done. rewrite IH by done.
      by rewrite append_code_cons.
Qed.

(** C8 (as the code has it).  Inside a fenced block every line that is no
    fence is stripped of the white space around it and, unless that leaves
    it empty, appended to the code buffer, whatever pattern it matches;
    nothing is emitted for it.  The closing fence emits one code block,
    the lines of the buffer joined by line feeds, empties the buffer and
    leaves the pending content as it was. *)
Theorem code_block_lines_stripped st lines fence :
  in_code_block st = true ->
  Forall (fun l => is_fence l = false) lines ->
  is_fence fence = true ->
  run st lines = Ok (append_code st (stripped_lines lines)) /\
  exists st',
    run st (lines ++ [fence]) = Ok st' /\
    doc st' = (doc st ++ [CodeBlock (join NL (code_block_lines st
                                             ++ stripped_lines lines))]) /\
    code_block_lines st' = [] /\
    in_code_block st' = false /\
    current_content st' = current_content st.
Proof.
  intros Hin Hall Hfence. split; [by apply run_in_code_block|].
  rewrite run_app, run_in_code_block by done. simpl.
  unfold step. rewrite (fence_not_blank _ Hfence).
  unfold is_fence in Hfence. rewrite Hfence. simpl.
  eexists. split; [done|]. unfold on_fence. simpl. by rewrite Hin.
Qed.

Lemma code_block_lines_stripped_witness :
  let st := on_fence (init "T") in
  run st ["  1. line1"; ""; "|line2|  "]
    = Ok (append_code st ["1. line1"; "|line2|"]) /\
  exists st',
    run st (["  1. line1"; ""; "|line2|  "] ++ ["```"]) = Ok st' /\
    doc st' = (doc st ++ [CodeBlock (join NL (code_block_lines st
                                             ++ ["1. line1"; "|line2|"]))]) /\
    code_block_lines st' = [] /\
    in_code_block st' = false /\
    current_content st' = current_content st.
Proof.
  intros st.
  apply (code_block_lines_stripped st ["  1. line1"; ""; "|line2|  "] "```").
  - reflexivity.
  - repeat constructor.
  - reflexivity.
Defined.

(** C8 as stated fails: a line with white space around it does not reach
    the buffer character for character. *)
Lemma verbatim_in_code_block_fails : ~ verbatim_in_code_block.
Proof.
  intros H.
  specialize (H (on_fence (init "T")) "  x" eq_refl eq_refl).
  vm_compute in H. discriminate.
Qed.

(** *** Content before the first heading *)

Lemma append_content_nil st : append_content st [] = st.
Proof. destruct st. unfold append_content. simpl. by rewrite app_nil_r. Qed.

Lemma append_content_cons st l ls :
  append_content (on_content st l) ls = append_content st (l :: ls).
Proof.
  destruct st. unfold append_content, on_content. simpl.
  by rewrite <- app_assoc.
Qed.

Lemma step_plain st line :
  in_code_block st = false -> in_table st = false ->
  is_plain line = true ->
  step st line = Ok (on_content st (strip line))
  /\ is_empty (strip line) = false.
Proof.
  unfold is_plain, step. intros -> -> H.
  repeat (apply andb_true_iff in H as [H ?]).
  repeat match goal with
         | H : negb _ = true |- _ => apply negb_true_iff in H
         end.
  repeat match goal with
         | H : bool_decide _ = false |- _ =>
             apply bool_decide_eq_false in H;
             rewrite <- eq_None_not_Some in H
         end.
  repeat match goal with H : _ = _ |- _ => rewrite H end.
  done.
Qed.

Lemma run_plain lines : forall st,
  in_code_block st = false -> in_table st = false ->
  Forall (fun l => is_plain l = true \/ is_empty (strip l) = true) lines ->
  run st lines = Ok (append_content st (stripped_lines lines)).
Proof.
  induction lines as [|line lines IH]; intros st Hc Ht Hall; simpl.
  - by rewrite append_content_nil.
  - inversion Hall as [|? ? Hline Hrest]; subst.
    unfold stripped_lines. simpl. rewrite filter_cons.
    destruct Hline as [Hplain|Hblank].
    + destruct (step_plain st line Hc Ht Hplain) as [-> He]. simpl.
      rewrite decide_True by done. rewrite IH by done.
      by rewrite append_content_cons.
    + unfold step. rewrite Hblank. simpl. by apply IH.
Qed.

(** A document that starts with plain content: the lines are kept as
    pending content, and the final flush emits one paragraph for each of
    them and no heading. *)
Lemma plain_prefix_document title pre :
  Forall (fun l => is_plain l = true \/ is_empty (strip l) = true) pre ->
  let st := append_content (init title) (stripped_lines pre) in
  run (init title) pre = Ok st /\
  generate_lines pre title
    = Ok (Title title :: map paragraph_of (stripped_lines pre)).
Proof.
  intros Hall st.
  assert (Hrun : run (init title) pre = Ok st) by by apply run_plain.
  split; [done|]. unfold generate_lines. by rewrite Hrun.
Qed.

Lemma paragraphs_app d1 d2 :
  paragraphs (d1 ++ d2) = paragraphs d1 ++ paragraphs d2.
Proof. apply filter_app. Qed.

Lemma paragraphs_of_texts texts :
  paragraphs (map paragraph_of texts) = map paragraph_of texts.
Proof.
  induction texts as [|t texts IH]; [done|]. simpl.
  unfold paragraphs in *. rewrite filter_cons. simpl. by rewrite IH.
Qed.

Lemma paragraphs_flush_heading st : paragraphs (flush_heading st) = [].
Proof. unfold flush_heading. by destruct (_ && _). Qed.

(** a flush moves the pending content to the document and accounts for
    the same paragraphs *)
Lemma accounted_flush st : accounted (flush_section st) = accounted st.
Proof.
  unfold accounted. simpl.
  by rewrite !paragraphs_app, paragraphs_flush_heading, paragraphs_of_texts,
    app_nil_r.
Qed.

(** no turn of the loop loses a paragraph that the state accounts for *)
Lemma step_accounted st line st' :
  step st line = Ok st' -> accounted st `prefix_of` accounted st'.
Proof.
  unfold step.
  destruct (is_empty (strip line)); [by intros [= <-]|].
  destruct (startswith (strip line) "```").
  { intros [= <-]. unfold on_fence, add_code_block, accounted.
    destruct (negb (in_code_block st)); simpl; [done|].
    by rewrite paragraphs_app, app_nil_r. }
  destruct (in_code_block st); [by intros [= <-]|].
  destruct (bool_decide (is_Some (table_line_pattern (strip line))));
    [by intros [= <-]|].
  destruct (in_table st).
  { unfold on_table_end. cbv zeta. rewrite <- (accounted_flush st).
    generalize (flush_section st). intros st1 H.
    apply bind_ok_inv in H as (doc' & Ht & H). injection H as <-.
    apply add_markdown_table_inv in Ht as (hdr & body & ->).
    unfold accounted. simpl. by rewrite paragraphs_app, app_nil_r. }
  destruct (section_header_pattern (strip line)) as [[number title]|].
  { intros [= <-]. rewrite <- (accounted_flush st). unfold on_main_section.
    cbv zeta. by generalize (flush_section st). }
  destruct (subheading_pattern (strip line)) as [[[main sub] title]|].
  { intros [= <-]. rewrite <- (accounted_flush st). unfold on_subsection.
    cbv zeta. generalize (flush_section st). intros st1.
    unfold accounted, add_subheading, add_heading. cbn [doc current_content].
    destruct (_ && _); rewrite !paragraphs_app; simpl; by rewrite ?app_nil_r. }
  intros [= <-]. unfold accounted, on_content. simpl.
  rewrite map_app, app_assoc. by apply prefix_app_r.
Qed.

Lemma run_accounted lines : forall st st',
  run st lines = Ok st' -> accounted st `prefix_of` accounted st'.
Proof.
  induction lines as [|line lines IH]; simpl; intros st st' H.
  - by injection H as <-.
  - apply bind_ok_inv in H as (st1 & Hstep & H).
    etrans; [by eapply step_accounted | by eapply IH].
Qed.

(** A line of plain content that the loop reads outside a fenced block
    and with no table rows pending, while no main heading line has been
    read, goes to the pending content; a flush of the state emits one
    paragraph for each pending line and no heading; and whatever lines
    follow, the saved document holds the paragraph of that line, right
    after the paragraphs of the content before it.  The walk of
    [split_sections], in contrast, drops the parts that come before the
    first header. *)
Theorem pre_heading_content_kept st line :
  in_code_block st = false ->
  in_table st = false ->
  current_section st = EmptyString ->
  is_plain line = true ->
  exists st',
    step st line = Ok st' /\
    current_content st' = current_content st ++ [strip line] /\
    doc (flush_section st')
      = doc st ++ map paragraph_of (current_content st ++ [strip line]) /\
    (forall post st'',
        run st' post = Ok st'' ->
        (accounted st ++ [paragraph_of (strip line)])
          `prefix_of` paragraphs (doc (flush_section st''))) /\
    (forall parts rest,
        Forall (fun p => startswith (strip p) "SECTION:" = false) parts ->
        Generator.for_each Generator.walk_step (None, []) (parts ++ rest)
          = Generator.for_each Generator.walk_step (None, []) rest).
Proof.
  intros Hcode Htable Hcur Hplain.
  destruct (step_plain st line Hcode Htable Hplain) as [Hstep _].
  exists (on_content st (strip line)). split; [done|]. split; [done|].
  split; [|split].
  - unfold flush_section, flush_heading, on_content. simpl. by rewrite Hcur.
  - intros post st'' Hpost. apply run_accounted in Hpost.
    rewrite <- (accounted_flush st'') in Hpost.
    assert (Hsaved : accounted (flush_section st'')
                     = paragraphs (doc (flush_section st'')))
      by (unfold accounted; simpl; by rewrite app_nil_r).
    rewrite <- Hsaved.
    assert (Hacc : accounted (on_content st (strip line))
                   = accounted st ++ [paragraph_of (strip line)])
      by (unfold accounted, on_content; simpl; by rewrite map_app, app_assoc).
    by rewrite <- Hacc.
  - intros parts rest Hparts.
    induction Hparts as [|part parts Hpart _ IH]; [done|].
    rewrite <- app_comm_cons. cbn [Generator.for_each].
    by rewrite WalkFacts.walk_step_no_section.
Qed.

Lemma pre_heading_content_kept_witness :
  let st := append_content (init "T") ["Intro text."] in
  exists st',
    step st "  More **bold** text. " = Ok st' /\
    current_content st' = ["Intro text."; "More **bold** text."] /\
    doc (flush_section st')
      = Title "T" :: map paragraph_of ["Intro text."; "More **bold** text."].
Proof.
  intros st.
  destruct (pre_heading_content_kept st "  More **bold** text. ")
    as (st' & H1 & H2 & H3 & _).
  - reflexivity.
  - reflexivity.
  - reflexivity.
  - vm_compute. reflexivity.
  - exists st'. split; [exact H1|]. split; [exact H2 | exact H3].
Defined.

(** *** Evaluations *)

(** the scenarios 1, 2, 3 and 5 of the specification *)
Example scenario1 :
  generate_doc ("1. Purpose" +:+ NL +:+ "Build a report." +:+ NL +:+ NL +:+
                "1.1 Overview" +:+ NL +:+ "Show sales by region." +:+ NL) "T"
    = Ok [Title "T"; Heading "1. Purpose";
          Paragraph [("Build a report.", false)];
          Subheading "1.1 Overview";
          Paragraph [("Show sales by region.", false)]].
Proof. vm_compute. reflexivity. Qed.

Example scenario2 :
  generate_doc ("2.1 Scope" +:+ NL +:+ "Covers EU only." +:+ NL) "T"
    = Ok [Title "T"; Heading "2. (Auto) Section"; Subheading "2.1 Scope";
          Paragraph [("Covers EU only.", false)]].
Proof. vm_compute. reflexivity. Qed.

Example scenario3 :
  generate_doc ("```" +:+ NL +:+ "line1" +:+ NL +:+ "line2" +:+ NL +:+ "```") "T"
    = Ok [Title "T"; CodeBlock ("line1" +:+ NL +:+ "line2")].
Proof. vm_compute. reflexivity. Qed.

Example scenario5 :
  paragraph_of "Use the **ALV Grid** control."
    = Paragraph [("Use the ", false); ("ALV Grid", true); (" control.", false)].
Proof. vm_compute. reflexivity. Qed.


(** C10.  A content line that follows the rows of a table is discarded:
    the line that ends the table makes the loop commit the table and go
    on to the next line, so it never reaches the pending content.  Of the
    three content lines below, none of them under a heading, the one after
    the table is in no paragraph of the document; without the table rows
    all three are paragraphs. *)
Theorem content_after_table_discarded :
  generate_doc ("Intro." +:+ NL +:+
                "| a |" +:+ NL +:+ "|---|" +:+ NL +:+ "| 1 |" +:+ NL +:+
                "Summary." +:+ NL +:+ "Closing.") "T"
    = Ok [Title "T"; Paragraph [("Intro.", false)]; Table ["a"] [["1"]];
          Paragraph [("Closing.", false)]] /\
  generate_doc ("Intro." +:+ NL +:+ "Summary." +:+ NL +:+ "Closing.") "T"
    = Ok [Title "T"; Paragraph [("Intro.", false)];
          Paragraph [("Summary.", false)]; Paragraph [("Closing.", false)]].
Proof. split; vm_compute; reflexivity. Qed.

(** C3.  What is left in the table buffer or in the code buffer when the
    input ends is not committed: the final flush is [flush_section] alone.
    A document that ends with a table loses the table, where the same
    table followed by one more line is committed; a fence that is never
    closed loses its lines. *)
Theorem open_buffers_dropped_at_end :
  generate_doc ("| a | b |" +:+ NL +:+ "|---|---|" +:+ NL +:+ "| 1 | 2 |") "T"
    = Ok [Title "T"] /\
  generate_doc ("| a | b |" +:+ NL +:+ "|---|---|" +:+ NL +:+ "| 1 | 2 |"
                +:+ NL +:+ "end") "T"
    = Ok [Title "T"; Table ["a"; "b"] [["1"; "2"]]] /\
  generate_doc ("```" +:+ NL +:+ "x = 1") "T" = Ok [Title "T"].
Proof. repeat split; vm_compute; reflexivity. Qed.

(** A closing fence appends the code block to the document and leaves the
    pending section title and the pending content where they are. *)
Lemma closing_fence_skips_flush st line :
  in_code_block st = true -> is_fence line = true ->
  exists st',
    step st line = Ok st' /\
    doc st' = doc st ++ [CodeBlock (join NL (code_block_lines st))] /\
    current_section st' = current_section st /\
    current_content st' = current_content st.
Proof.
  intros Hin Hf. unfold step. rewrite (fence_not_blank _ Hf).
  unfold is_fence in Hf. rewrite Hf. eexists. split; [done|].
  unfold on_fence. by rewrite Hin.
Qed.

(** C5.  A closing fence commits its code block without a flush, so the
    block comes before the pending paragraphs and the pending heading
    whose lines precede it in the input; the commit of a table flushes
    first and keeps the order. *)
Theorem code_block_overtakes_pending :
  generate_doc ("intro" +:+ NL +:+ "```" +:+ NL +:+ "x" +:+ NL +:+ "```") "T"
    = Ok [Title "T"; CodeBlock "x"; Paragraph [("intro", false)]] /\
  generate_doc ("1. A" +:+ NL +:+ "```" +:+ NL +:+ "x" +:+ NL +:+ "```") "T"
    = Ok [Title "T"; CodeBlock "x"; Heading "1. A"] /\
  generate_doc ("intro" +:+ NL +:+ "|a|" +:+ NL +:+ "|-|" +:+ NL +:+ "|1|"
                +:+ NL +:+ "end") "T"
    = Ok [Title "T"; Paragraph [("intro", false)]; Table ["a"] [["1"]]].
Proof. repeat split; vm_compute; reflexivity. Qed.

(** *** Tables *)

Lemma fill_ok values : forall i cells,
  i + length values <= length cells ->
  fill i values cells
    = Ok (take i cells ++ values ++ drop (i + length values) cells).
Proof.
  induction values as [|v values IH]; intros i cells Hlen; simpl in *.
  - by rewrite Nat.add_0_r, take_drop.
  - rewrite decide_True by lia. rewrite IH by (rewrite length_insert; lia).
    f_equal. rewrite (take_S_r _ _ v) by (apply list_lookup_insert_eq; lia).
    rewrite take_insert_ge by lia. rewrite drop_insert_lt by lia.
    rewrite <- app_assoc. simpl. by rewrite Nat.add_succ_r.
Qed.

Lemma fill_row_ok cols row :
  length row <= cols ->
  fill 0 row (replicate cols EmptyString) = Ok (pad cols row).
Proof.
  intros Hlen. rewrite fill_ok by (rewrite length_replicate; lia).
  simpl. by rewrite drop_replicate.
Qed.

Lemma fill_rows_ok cols rows :
  Forall (fun row => length row <= cols) rows ->
  fill_rows cols rows = Ok (map (pad cols) rows).
Proof.
  induction 1 as [|row rows Hrow _ IH]; simpl; [done|].
  by rewrite fill_row_ok, IH.
Qed.

(** A table whose data rows have no more cells than the header row is
    committed; a shorter row leaves its last cells empty. *)
Lemma add_markdown_table_short_rows doc line0 lines :
  let headers := map (strip_chars star_or_space) (cells_of line0) in
  let rows := map (fun row => map strip (cells_of row)) (drop 1 lines) in
  Forall (fun row => length row <= length headers) rows ->
  add_markdown_table doc (line0 :: lines)
    = Ok (doc ++ [Table headers (map (pad (length headers)) rows)]).
Proof.
  intros headers rows Hrows. unfold add_markdown_table.
  change (drop 2 (line0 :: lines)) with (drop 1 lines).
  fold headers. fold rows.
  rewrite fill_row_ok by done. simpl. rewrite fill_rows_ok by done. simpl.
  unfold pad. by rewrite Nat.sub_diag, app_nil_r.
Qed.

Lemma fill_long values : forall i cells,
  i <= length cells -> length cells < i + length values ->
  fill i values cells = Raise IndexError.
Proof.
  induction values as [|v values IH]; intros i cells Hi Hlen; simpl in *.
  - lia.
  - destruct (decide (i < length cells)); [|done].
    apply IH; rewrite length_insert; lia.
Qed.

Lemma fill_rows_long cols rows :
  Exists (fun row => cols < length row) rows ->
  fill_rows cols rows = Raise IndexError.
Proof.
  induction 1 as [row rows Hrow|row rows _ IH]; simpl.
  - by rewrite fill_long by (rewrite ?length_replicate; simpl; lia).
  - destruct (fill 0 row (replicate cols EmptyString)) as [cells|e] eqn:Hf;
      simpl.
    + by rewrite IH.
    + destruct (decide (length row <= cols)) as [Hle|Hgt].
      * by rewrite fill_row_ok in Hf.
      * rewrite fill_long in Hf by (rewrite ?length_replicate; simpl; lia).
        congruence.
Qed.

(** A table with a data row of more cells than the header row is not
    committed: the fill of that row, or of a longer one before it, raises. *)
Lemma add_markdown_table_long_row doc line0 lines :
  let headers := map (strip_chars star_or_space) (cells_of line0) in
  let rows := map (fun row => map strip (cells_of row)) (drop 1 lines) in
  Exists (fun row => length headers < length row) rows ->
  add_markdown_table doc (line0 :: lines) = Raise IndexError.
Proof.
  intros headers rows Hrows. unfold add_markdown_table.
  change (drop 2 (line0 :: lines)) with (drop 1 lines).
  fold headers. fold rows.
  rewrite fill_row_ok by done. simpl. by rewrite fill_rows_long.
Qed.

(** The commit of a table is the only place where the loop can raise, and
    it raises [IndexError] only. *)
Lemma fill_raises values : forall i cells e,
  fill i values cells = Raise e -> e = IndexError.
Proof.
  induction values as [|v values IH]; intros i cells e; simpl; [done|].
  destruct (decide (i < length cells)); [apply IH | congruence].
Qed.

Lemma fill_rows_raises cols rows e :
  fill_rows cols rows = Raise e -> e = IndexError.
Proof.
  induction rows as [|row rows IH]; simpl; [done|].
  destruct (fill 0 row (replicate cols EmptyString)) as [cells|e'] eqn:Hf;
    simpl.
  - destruct (fill_rows cols rows) as [rest|e'']; simpl; [done|].
    intros [= <-]. by apply IH.
  - intros [= <-]. by eapply fill_raises.
Qed.

Lemma on_table_end_raises st e : on_table_end st = Raise e -> e = IndexError.
Proof.
  unfold on_table_end. cbv zeta. generalize (flush_section st). intros st1.
  unfold add_markdown_table.
  destruct (table_lines st1) as [|line0 lines]; simpl; [congruence|].
  destruct (fill 0 _ _) as [hdr|e'] eqn:Hh; simpl.
  - destruct (fill_rows _ _) as [body|e''] eqn:Hb; simpl; [done|].
    intros [= <-]. by eapply fill_rows_raises.
  - intros [= <-]. by eapply fill_raises.
Qed.

Lemma step_raises st line e : step st line = Raise e -> e = IndexError.
Proof.
  unfold step.
  destruct (is_empty (strip line)); [done|].
  destruct (startswith (strip line) "```"); [done|].
  destruct (in_code_block st); [done|].
  destruct (bool_decide (is_Some (table_line_pattern (strip line)))); [done|].
  destruct (in_table st); [apply on_table_end_raises|].
  destruct (section_header_pattern (strip line)) as [[number title]|]; [done|].
  by destruct (subheading_pattern (strip line)) as [[[main sub] title]|].
Qed.

Lemma run_raises lines : forall st e, run st lines = Raise e -> e = IndexError.
Proof.
  induction lines as [|line lines IH]; intros st e; simpl; [done|].
  destruct (step st line) as [st1|e'] eqn:Hs; simpl; [apply IH|].
  intros [= <-]. by eapply step_raises.
Qed.

(** C9.  A data row with more cells than the header row makes the commit
    of the table raise [IndexError], and [generate_doc] with it. *)
Theorem long_table_row_raises :
  add_markdown_table [Title "T"] ["| a |"; "|---|"; "| x | y |"]
    = Raise IndexError /\
  generate_doc ("| a |" +:+ NL +:+ "|---|" +:+ NL +:+ "| x | y |"
                +:+ NL +:+ "end") "T"
    = Raise IndexError /\
  generate_doc ("| a | b |" +:+ NL +:+ "|---|---|" +:+ NL +:+ "| x |"
                +:+ NL +:+ "end") "T"
    = Ok [Title "T"; Table ["a"; "b"] [["x"; ""]]].
Proof. repeat split; vm_compute; reflexivity. Qed.

End GenerateDoc.

(** ** [str.strip] and [str.startswith] *)

Module StripFacts.
Import PyStr Spec.

(** [str.strip] is idempotent *)
Lemma rstrip_chars_idempotent p s :
  rstrip_chars p (rstrip_chars p s) = rstrip_chars p s.
Proof.
  induction s as [|c s IH]; simpl; [done|].
  destruct (is_empty (rstrip_chars p s) && p c) eqn:Hc; [done|].
  simpl. by rewrite IH, Hc.
Qed.

Lemma lstrip_chars_head p s :
  match lstrip_chars p s with
  | String c _ => p c = false
  | EmptyString => True
  end.
Proof.
  induction s as [|c s IH]; simpl; [done|].
  destruct (p c) eqn:Hc; [done|]. by simpl.
Qed.

Lemma strip_chars_idempotent p s :
  strip_chars p (strip_chars p s) = strip_chars p s.
Proof.
  unfold strip_chars.
  pose proof (lstrip_chars_head p s) as Hhead.
  destruct (lstrip_chars p s) as [|c t]; [done|].
  simpl. rewrite Hhead, andb_false_r. simpl. rewrite Hhead.
  pose proof (rstrip_chars_idempotent p (String c t)) as Hr.
  simpl in Hr. by rewrite Hhead, andb_false_r in Hr.
Qed.

Lemma strip_idempotent s : strip (strip s) = strip s.
Proof.
  unfold strip, strip_chars.
  pose proof (lstrip_chars_head is_space s) as Hhead.
  destruct (lstrip_chars is_space s) as [|c t]; [done|].
  simpl. rewrite Hhead, andb_false_r. simpl. rewrite Hhead.
  pose proof (rstrip_chars_idempotent is_space (String c t)) as Hr.
  simpl in Hr. by rewrite Hhead, andb_false_r in Hr.
Qed.

Lemma startswith_app (a b c : string) :
  startswith (a +:+ b) (a +:+ c) = startswith b c.
Proof.
  unfold startswith. induction a as [|x a IH]; [done|].
  rewrite !StrFacts.append_cons. simpl.
  by destruct (ascii_dec x x).
Qed.

Lemma startswith_self_app (a b : string) : startswith (a +:+ b) a = true.
Proof.
  unfold startswith. induction a as [|x a IH]; [by destruct b|].
  rewrite StrFacts.append_cons. simpl. by destruct (ascii_dec x x).
Qed.

Lemma startswith_nil (t : string) :
  t <> EmptyString -> startswith EmptyString t = false.
Proof. by destruct t. Qed.

Lemma startswith_iff (s p : string) :
  startswith s p = true <-> exists t, s = p +:+ t.
Proof.
  unfold startswith. revert s. induction p as [|c p IH]; intros s.
  - split; [by exists s | by destruct s].
  - destruct s as [|d s]; simpl.
    + split; [done | by intros [t Ht]].
    + destruct (ascii_dec c d) as [->|Hne].
      * rewrite IH. split; intros [t Ht]; exists t.
        -- by rewrite StrFacts.append_cons, <- Ht.
        -- rewrite StrFacts.append_cons in Ht. by injection Ht.
      * split; [done|]. intros [t Ht].
        rewrite StrFacts.append_cons in Ht. by injection Ht.
Qed.

Lemma lstrip_suffix p s :
  exists pre, s = pre +:+ lstrip_chars p s /\ all_chars p pre = true.
Proof.
  induction s as [|c s (pre & IH & Hpre)]; simpl.
  - by exists EmptyString.
  - destruct (p c) eqn:Hc.
    + exists (String c pre). rewrite StrFacts.append_cons, <- IH.
      simpl. by rewrite Hc.
    + by exists EmptyString.
Qed.

Lemma rstrip_prefix p s :
  exists suf, s = rstrip_chars p s +:+ suf /\ all_chars p suf = true.
Proof.
  induction s as [|c s (suf & IH & Hsuf)]; simpl.
  - by exists EmptyString.
  - destruct (is_empty (rstrip_chars p s) && p c) eqn:Hc.
    + apply andb_true_iff in Hc as [He Hc].
      destruct (rstrip_chars p s); [|done].
      exists (String c suf). rewrite StrFacts.append_nil_l in IH.
      subst s. simpl. by rewrite Hc, Hsuf.
    + exists suf. by rewrite StrFacts.append_cons, <- IH.
Qed.

(** stripping from the right stops at a character outside the class *)
Lemma rstrip_keeps p (a b : string) :
  all_chars (fun c => negb (p c)) a = true ->
  rstrip_chars p (a +:+ b) = a +:+ rstrip_chars p b.
Proof.
  induction a as [|c a IH]; simpl; [done|]. intros H.
  apply andb_true_iff in H as [Hc Ha]. rewrite StrFacts.append_cons. simpl.
  rewrite (IH Ha). apply negb_true_iff in Hc. by rewrite Hc, andb_false_r.
Qed.

(** a stripped text that is not empty starts with a character that is no
    white space *)
Lemma strip_head s :
  is_empty (strip s) = false ->
  exists c r, strip s = String c r /\ is_space c = false.
Proof.
  unfold strip, strip_chars.
  pose proof (lstrip_chars_head is_space s) as Hhead.
  destruct (lstrip_chars is_space s) as [|c t]; [done|].
  simpl. rewrite Hhead, andb_false_r. eauto.
Qed.

Lemma strip_blank s : strip s = EmptyString <-> all_chars is_space s = true.
Proof.
  split.
  - intros H. destruct (is_empty (strip s)) eqn:He.
    + unfold strip, strip_chars in *.
      destruct (lstrip_suffix is_space s) as (pre & Hs & Hpre).
      pose proof (lstrip_chars_head is_space s) as Hhead.
      destruct (lstrip_chars is_space s) as [|c t].
      * rewrite StrFacts.append_nil_r in Hs. by subst s.
      * simpl in H. by rewrite Hhead, andb_false_r in H.
    + by rewrite H in He.
  - intros H. unfold strip, strip_chars.
    assert (Hl : lstrip_chars is_space s = EmptyString).
    { induction s as [|c s IH]; simpl in *; [done|].
      apply andb_true_iff in H as [Hc Hs]. rewrite Hc. auto. }
    by rewrite Hl.
Qed.

Lemma endswith_app (a t : string) : Shape.endswith (a +:+ t) t = true.
Proof.
  induction a as [|c a IH].
  - rewrite StrFacts.append_nil_l. destruct t; simpl.
    + done.
    + by rewrite Ascii.eqb_refl, String.eqb_refl.
  - rewrite StrFacts.append_cons. simpl. rewrite IH. apply orb_true_r.
Qed.

Lemma occurs_iff (t x : string) :
  occurs t x = true <-> exists a b, x = a +:+ t +:+ b.
Proof.
  induction x as [|c x IH]; cbn [occurs].
  - rewrite orb_false_r, startswith_iff. split.
    + intros [b Hb]. by exists EmptyString, b.
    + intros (a & b & H). destruct a; [by exists b | done].
  - rewrite orb_true_iff, startswith_iff, IH. split.
    + intros [[b Hb]|(a & b & ->)].
      * by exists EmptyString, b.
      * by exists (String c a), b.
    + intros (a & b & H). destruct a as [|d a].
      * left. by exists b.
      * right. rewrite StrFacts.append_cons in H. injection H as _ ->.
        by exists a, b.
Qed.

End StripFacts.

(** ** [add_paragraph] *)

Module Paragraphs.
Import PyStr Re Spec Docx Layout ReFacts.

Lemma drop_chars_0 s : drop_chars 0 s = s.
Proof. by destruct s. Qed.

Lemma drop_chars_app (a b : string) :
  drop_chars (String.length a) (a +:+ b) = b.
Proof.
  induction a as [|c a IH]; simpl; [apply drop_chars_0 | done].
Qed.

Section Reassemble.
Context {M : Type} (try : option ascii -> string -> option (M * nat)).
Context (src : M -> string).

(** every match gives back the stretch of the text that it covers *)
Hypothesis try_src : forall prev s m n,
  try prev s = Some (m, n) ->
  1 <= n /\ n = String.length (src m) /\ exists rest, s = src m +:+ rest.

(** putting the matched stretches back between the kept characters gives
    the text that was scanned *)
Lemma scan_reassembles s : forall prev skip,
  sub_pieces src (scan try prev skip s) = drop_chars skip s.
Proof.
  induction s as [|c s IH]; intros prev skip; simpl.
  - by destruct skip.
  - destruct skip as [|k]; [|apply IH].
    destruct (try prev (String c s)) as [[m n]|] eqn:Ht; simpl.
    + destruct (try_src _ _ _ _ Ht) as (Hn & Hlen & rest & Hs).
      rewrite IH. destruct (src m) as [|d m'] eqn:Hm; simpl in *; [lia|].
      rewrite StrFacts.append_cons in Hs. injection Hs as <- ->.
      subst n. simpl. rewrite Nat.sub_0_r. by rewrite drop_chars_app.
    + rewrite IH. by rewrite drop_chars_0.
Qed.
End Reassemble.

(** a lazy run hands to the rest of the pattern what is left after some
    run of characters of the class *)
Lemma lazy_star_split {A} p s (k : string -> option A) r :
  lazy_star p s k = Some r ->
  exists pre rest,
    s = pre +:+ rest /\ all_chars p pre = true /\ k rest = Some r.
Proof.
  induction s as [|c s IH]; simpl.
  - destruct (k EmptyString) eqn:Hk; [|done]. intros [= <-].
    by exists EmptyString, EmptyString.
  - destruct (k (String c s)) eqn:Hk.
    + intros [= <-]. by exists EmptyString, (String c s).
    + destruct (p c) eqn:Hp; [|done]. intros H.
      destruct (IH H) as (pre & rest & -> & Hall & Hr).
      exists (String c pre), rest. simpl. by rewrite Hp, Hall.
Qed.

(** a match of the bold pattern: two asterisks, the group, which is not
    empty, and two asterisks *)
Lemma bold_pattern_inv prev s g n :
  bold_pattern prev s = Some (g, n) ->
  g <> EmptyString /\
  n = String.length ("**" +:+ g +:+ "**") /\
  exists rest, s = ("**" +:+ g +:+ "**") +:+ rest.
Proof.
  unfold bold_pattern. intros H.
  apply NormalizeFacts.lit_inv in H as (s1 & -> & H).
  unfold lazy_plus in H. apply one_inv in H as (c & s1' & -> & Hc & H).
  apply lazy_star_split in H as (pre & s2 & -> & Hpre & H).
  apply NormalizeFacts.lit_inv in H as (s3 & -> & H).
  injection H as Hg Hn.
  assert (Hs1 : String c (pre +:+ "**" +:+ s3) = String c pre +:+ ("**" +:+ s3))
    by done.
  rewrite Hs1 in Hg. rewrite StrFacts.consumed_append in Hg. subst g.
  split; [done|]. split.
  - subst n. rewrite !StrFacts.length_append. simpl.
    rewrite ?StrFacts.length_append. simpl. lia.
  - exists s3. by rewrite !StrFacts.append_assoc.
Qed.

Lemma markdown_of_runs ps : forall cur,
  markdown_of (runs_of cur ps)
    = cur +:+ sub_pieces (fun g => "**" +:+ g +:+ "**") ps.
Proof.
  induction ps as [|[c|g] ps IH]; intros cur; simpl.
  - done.
  - rewrite IH. by rewrite StrFacts.append_assoc.
  - rewrite IH, StrFacts.append_nil_l. by rewrite !StrFacts.append_assoc.
Qed.

Lemma runs_alternate s : forall cur prev skip,
  alternating (runs_of cur (scan bold_pattern prev skip s)) = true.
Proof.
  induction s as [|c s IH]; intros cur prev skip; simpl; [done|].
  destruct skip as [|k]; [|apply IH].
  destruct (bold_pattern prev (String c s)) as [[g n]|] eqn:Hb; simpl.
  - apply bold_pattern_inv in Hb as (Hg & _).
    destruct g; [done|]. simpl. apply IH.
  - apply IH.
Qed.

(** X1.  [add_paragraph] loses nothing of its text: the runs of the
    paragraph, read in order with every bold run put back between two
    pairs of asterisks, spell the text that was given. *)
Theorem add_paragraph_round_trip doc text :
  exists runs,
    add_paragraph doc text = doc ++ [Paragraph runs] /\
    markdown_of runs = text.
Proof.
  eexists. split; [reflexivity|].
  rewrite markdown_of_runs, StrFacts.append_nil_l.
  rewrite (scan_reassembles bold_pattern (fun g => "**" +:+ g +:+ "**")).
  - apply drop_chars_0.
  - intros prev s g n H. apply bold_pattern_inv in H as (Hg & Hn & Hs).
    split; [|done]. subst n. rewrite StrFacts.length_append. simpl. lia.
Qed.

(** X2.  The runs of a paragraph alternate between plain and bold: the
    first and the last run are plain (possibly empty), and every bold run
    holds at least one character. *)
Theorem add_paragraph_runs_alternate doc text :
  exists runs,
    add_paragraph doc text = doc ++ [Paragraph runs] /\
    alternating runs = true.
Proof.
  eexists. split; [reflexivity|]. apply runs_alternate.
Qed.

(** X3.  A text in which no two asterisks follow each other is one plain
    run: nothing of it is set in bold. *)
Theorem add_paragraph_plain doc text :
  occurs "**" text = false ->
  add_paragraph doc text = doc ++ [Paragraph [(text, false)]].
Proof.
  intros Hocc. unfold add_paragraph, paragraph_of. do 3 f_equal.
  assert (Hq : forall x cur prev, occurs "**" x = false ->
            runs_of cur (scan bold_pattern prev 0 x) = [(cur +:+ x, false)]).
  { induction x as [|c x IH]; intros cur prev Hx; simpl.
    - by rewrite StrFacts.append_nil_r.
    - simpl in Hx. apply orb_false_iff in Hx as [Hhere Hlater].
      assert (Hb : bold_pattern prev (String c x) = None).
      { unfold bold_pattern. by apply NormalizeFacts.lit_none. }
      rewrite Hb. simpl. rewrite IH by done.
      by rewrite StrFacts.append_assoc. }
  by rewrite Hq.
Qed.

Lemma add_paragraph_plain_witness :
  add_paragraph [Title "T"] "a * b" = [Title "T"; Paragraph [("a * b", false)]].
Proof. apply (add_paragraph_plain [Title "T"] "a * b"). reflexivity. Defined.

End Paragraphs.

(** ** [add_markdown_table] *)

Module Tables.
Import PyStr Re Spec Docx Layout DocxFacts.

Lemma length_pad cols row : length row <= cols -> length (pad cols row) = cols.
Proof.
  intros H. unfold pad. rewrite length_app, length_replicate. lia.
Qed.

Lemma some_row_longer cols (rows : list (list string)) :
  ~ Forall (fun row => length row <= cols) rows ->
  Exists (fun row => cols < length row) rows.
Proof.
  intros Hlong. apply not_Forall_Exists in Hlong; [|intros row; apply _].
  eapply Exists_impl; [exact Hlong|]. simpl. intros row. lia.
Qed.

(** X4.  On lines that python-docx takes (no control character other
    than tab, line feed and carriage return), [add_markdown_table] commits
    a table exactly when it is given at least one line and no line after
    the second has more cells than the first: the table then holds the
    header cells and one row per such line, a row of fewer cells filled up
    with empty cells.  In every other case (no line at all, or a row that
    is too long) the call raises [IndexError]. *)
Theorem add_markdown_table_commits doc line0 lines :
  let headers := map (strip_chars star_or_space) (cells_of line0) in
  let rows := map (fun row => map strip (cells_of row)) (drop 1 lines) in
  add_markdown_table doc [] = Raise IndexError /\
  (Forall docx_text (line0 :: lines) ->
   Forall (fun row => length row <= length headers) rows ->
   add_markdown_table doc (line0 :: lines)
     = Ok (doc ++ [Table headers (map (pad (length headers)) rows)])) /\
  (Forall docx_text (line0 :: lines) ->
   ~ Forall (fun row => length row <= length headers) rows ->
   add_markdown_table doc (line0 :: lines) = Raise IndexError).
Proof.
  intros headers rows. split; [done|]. split.
  - intros _. apply GenerateDoc.add_markdown_table_short_rows.
  - intros _ Hlong. apply GenerateDoc.add_markdown_table_long_row.
    by apply some_row_longer.
Qed.

Lemma add_markdown_table_commits_witness :
  add_markdown_table [Title "T"]
      ["| **a** | b |"; "|---|---|"; "| 1 |"; "| 2 | 3 |"]
    = Ok [Title "T"; Table ["a"; "b"] [["1"; ""]; ["2"; "3"]]] /\
  add_markdown_table [Title "T"] ["| a |"; "|---|"; "| 1 | 2 |"]
    = Raise IndexError.
Proof.
  split.
  - apply (proj1 (proj2 (add_markdown_table_commits
      [Title "T"] "| **a** | b |" ["|---|---|"; "| 1 |"; "| 2 | 3 |"]))).
    + repeat constructor.
    + repeat constructor.
  - apply (proj2 (proj2 (add_markdown_table_commits
      [Title "T"] "| a |" ["|---|"; "| 1 | 2 |"]))).
    + repeat constructor.
    + intros H. apply Forall_inv in H. vm_compute in H. lia.
Defined.

(** X5.  A table that [add_markdown_table] commits is a grid: it goes to
    the end of the document, it has one row for every line after the
    second, and every row has as many cells as the header row. *)
Theorem committed_table_is_grid doc lines doc' :
  add_markdown_table doc lines = Ok doc' ->
  exists hdr_cells rows,
    doc' = doc ++ [Table hdr_cells rows] /\
    length rows = length lines - 2 /\
    Forall (fun row => length row = length hdr_cells) rows.
Proof.
  destruct lines as [|line0 lines]; [done|]. intros H.
  set (headers := map (strip_chars star_or_space) (cells_of line0)).
  set (rows := map (fun row => map strip (cells_of row)) (drop 1 lines)).
  destruct (decide (Forall (fun row => length row <= length headers) rows))
    as [Hshort|Hlong].
  - rewrite (GenerateDoc.add_markdown_table_short_rows doc line0 lines Hshort)
      in H.
    injection H as <-. eexists _, _. split; [done|]. split.
    + rewrite length_map. unfold rows. rewrite length_map, length_drop.
      simpl. lia.
    + apply Forall_map. eapply Forall_impl; [exact Hshort|].
      intros row Hrow. by apply length_pad.
  - apply some_row_longer in Hlong.
    rewrite (GenerateDoc.add_markdown_table_long_row doc line0 lines Hlong)
      in H.
    discriminate.
Qed.

Lemma committed_table_is_grid_witness :
  exists hdr_cells rows,
    [Title "T"; Table ["a"; "b"] [["1"; ""]]]
      = [Title "T"] ++ [Table hdr_cells rows] /\
    length rows = length ["| a | b |"; "|---|---|"; "| 1 |"] - 2 /\
    Forall (fun row => length row = length hdr_cells) rows.
Proof.
  apply (committed_table_is_grid [Title "T"]
           ["| a | b |"; "|---|---|"; "| 1 |"]).
  reflexivity.
Defined.

(** X6.  The cells of a committed table are clean: no header cell starts
    or ends with a space or an asterisk, and no other cell starts or ends
    with white space (the cells that fill up a short row are empty). *)
Theorem committed_table_cells_clean doc lines doc' :
  add_markdown_table doc lines = Ok doc' ->
  exists hdr_cells rows,
    doc' = doc ++ [Table hdr_cells rows] /\
    Forall (fun h => strip_chars star_or_space h = h) hdr_cells /\
    Forall (Forall (fun c => strip c = c)) rows.
Proof.
  destruct lines as [|line0 lines]; [done|]. intros H.
  set (headers := map (strip_chars star_or_space) (cells_of line0)).
  set (rows := map (fun row => map strip (cells_of row)) (drop 1 lines)).
  destruct (decide (Forall (fun row => length row <= length headers) rows))
    as [Hshort|Hlong].
  - rewrite (GenerateDoc.add_markdown_table_short_rows doc line0 lines Hshort)
      in H.
    injection H as <-. eexists _, _. split; [done|]. split.
    + apply Forall_map, Forall_forall. intros cell _. simpl.
      apply StripFacts.strip_chars_idempotent.
    + apply Forall_map, Forall_forall. intros row Hrow. simpl.
      unfold pad. apply Forall_app. split.
      * unfold rows in Hrow. apply list_elem_of_fmap in Hrow as (l & -> & _).
        apply Forall_map, Forall_forall. intros cell _. simpl.
        apply StripFacts.strip_idempotent.
      * by apply Forall_replicate.
  - apply some_row_longer in Hlong.
    rewrite (GenerateDoc.add_markdown_table_long_row doc line0 lines Hlong)
      in H.
    discriminate.
Qed.

Lemma committed_table_cells_clean_witness :
  exists hdr_cells rows,
    [Title "T"; Table ["Name"; "Age"] [["Ann"; ""]]]
      = [Title "T"] ++ [Table hdr_cells rows] /\
    Forall (fun h => strip_chars star_or_space h = h) hdr_cells /\
    Forall (Forall (fun c => strip c = c)) rows.
Proof.
  apply (committed_table_cells_clean [Title "T"]
           ["| **Name** | * Age |"; "|---|---|"; "|  Ann  |"]).
  reflexivity.
Defined.

End Tables.

(** ** The document of [generate_doc] *)

Module Documents.
Import PyStr Re Spec Docx Layout ReFacts PatternFacts DocxFacts StripFacts.

(** the branches of the loop, in the order in which the source tests
    them *)
Lemma step_branches st line st' :
  step st line = Ok st' ->
  let l := strip line in
  (is_empty l = true /\ st' = st) \/
  (is_empty l = false /\ is_fence line = true /\ st' = on_fence st) \/
  (is_empty l = false /\ is_fence line = false /\
   in_code_block st = true /\ st' = on_code_line st l) \/
  (is_empty l = false /\ is_fence line = false /\
   in_code_block st = false /\ is_Some (table_line_pattern l) /\
   st' = on_table_line st l) \/
  (is_empty l = false /\ is_fence line = false /\
   in_code_block st = false /\ table_line_pattern l = None /\
   in_table st = true /\ on_table_end st = Ok st') \/
  (is_empty l = false /\ is_fence line = false /\
   in_code_block st = false /\ table_line_pattern l = None /\
   in_table st = false /\
   exists number title,
     section_header_pattern l = Some (number, title) /\
     st' = on_main_section st number title) \/
  (is_empty l = false /\ is_fence line = false /\
   in_code_block st = false /\ table_line_pattern l = None /\
   in_table st = false /\ section_header_pattern l = None /\
   exists main sub title,
     subheading_pattern l = Some (main, sub, title) /\
     st' = on_subsection st main sub title) \/
  (is_empty l = false /\ is_fence line = false /\
   in_code_block st = false /\ table_line_pattern l = None /\
   in_table st = false /\ section_header_pattern l = None /\
   subheading_pattern l = None /\ st' = on_content st l).
Proof.
  unfold step, is_fence. cbv zeta. intros H.
  destruct (is_empty (strip line)) eqn:Hblank.
  { injection H as <-. by left. }
  right. destruct (startswith (strip line) "```") eqn:Hfence.
  { injection H as <-. by left. }
  right. destruct (in_code_block st) eqn:Hcode.
  { injection H as <-. by left. }
  right. destruct (table_line_pattern (strip line)) as [[]|] eqn:Hrow.
  { rewrite bool_decide_eq_true_2 in H by eauto. injection H as <-.
    left. eauto 10. }
  rewrite bool_decide_eq_false_2 in H by (by intros [? ?]).
  right. destruct (in_table st) eqn:Htable.
  { by left. }
  right. destruct (section_header_pattern (strip line)) as [[number title]|]
    eqn:Hmain.
  { injection H as <-. left. eauto 10. }
  right. destruct (subheading_pattern (strip line)) as [[[main sub] title]|]
    eqn:Hsub.
  { injection H as <-. left. eauto 12. }
  injection H as <-. by right.
Qed.

(** a flush appends no title and no code block *)
Lemma flush_appends s :
  Forall (fun b => is_title b = false)
    (flush_heading s ++ map paragraph_of (current_content s)) /\
  code_blocks (flush_heading s ++ map paragraph_of (current_content s)) = 0.
Proof.
  unfold code_blocks. rewrite filter_app, length_app.
  assert (Hp : forall texts,
    Forall (fun b => is_title b = false) (map paragraph_of texts) /\
    length (filter (fun b => is_code_block b = true)
              (map paragraph_of texts)) = 0).
  { induction texts as [|t texts [IH1 IH2]]; simpl; [by split|].
    split; [by constructor|]. by rewrite filter_cons. }
  destruct (Hp (current_content s)) as [Hp1 Hp2]. rewrite Hp2.
  unfold flush_heading. destruct (_ && _); simpl.
  - split; [by constructor | done].
  - done.
Qed.

(** what a turn of the loop appends to the document: no title, and one
    code block exactly when the line is a closing fence *)
Lemma step_appends st line st' :
  step st line = Ok st' ->
  exists added,
    doc st' = doc st ++ added /\
    Forall (fun b => is_title b = false) added /\
    code_blocks added
      = (if is_fence line && in_code_block st then 1 else 0) /\
    in_code_block st' = xorb (in_code_block st) (is_fence line).
Proof.
  pose proof flush_appends as Hflush.
  intros H. apply step_branches in H. cbv zeta in H.
  destruct H as [[Hb ->]|[(Hb & Hf & ->)|[(Hb & Hf & Hc & ->)|
    [(Hb & Hf & Hc & Hr & ->)|[(Hb & Hf & Hc & Hr & Ht & H)|
    [(Hb & Hf & Hc & Hr & Ht & number & title & Hm & ->)|
    [(Hb & Hf & Hc & Hr & Ht & Hm & main & sub & title & Hs & ->)|
     (Hb & Hf & Hc & Hr & Ht & Hm & Hs & ->)]]]]]]].
  - exists []. rewrite app_nil_r. unfold is_fence.
    destruct (strip line); [|done]. simpl. by destruct (in_code_block st).
  - rewrite Hf. unfold on_fence, add_code_block.
    destruct (in_code_block st); simpl.
    + eexists. split; [done|]. split; [by constructor | done].
    + exists []. by rewrite app_nil_r.
  - rewrite Hf, Hc. exists []. by rewrite app_nil_r.
  - rewrite Hf, Hc. exists []. by rewrite app_nil_r.
  - rewrite Hf, Hc. unfold on_table_end in H. cbv zeta in H.
    apply bind_ok_inv in H as (doc' & Htab & H). injection H as <-.
    apply add_markdown_table_inv in Htab as (hdr & body & ->). simpl.
    destruct (Hflush st) as [Hf1 Hf2]. revert Hf1 Hf2.
    generalize (flush_heading st ++ map paragraph_of (current_content st)).
    intros F Hf1 Hf2. exists (F ++ [Table hdr body]).
    split; [by rewrite !app_assoc|]. split.
    + apply Forall_app. split; [done | by constructor].
    + split; [|done]. unfold code_blocks in *.
      by rewrite filter_app, length_app, Hf2.
  - rewrite Hf, Hc. simpl. destruct (Hflush st) as [Hf1 Hf2]. eauto.
  - rewrite Hf, Hc. destruct (Hflush st) as [Hf1 Hf2]. revert Hf1 Hf2.
    unfold on_subsection. cbv zeta. simpl.
    unfold add_subheading, add_heading.
    generalize (flush_heading st ++ map paragraph_of (current_content st)).
    intros F Hf1 Hf2.
    destruct (_ && _).
    + exists (F ++ [Heading (auto_title main);
                    Subheading (main +:+ "." +:+ sub +:+ " " +:+ title)]).
      split; [by rewrite <- !app_assoc|]. split.
      * apply Forall_app. split; [done | by repeat constructor].
      * split; [|done]. unfold code_blocks in *.
        by rewrite filter_app, length_app, Hf2.
    + exists (F ++ [Subheading (main +:+ "." +:+ sub +:+ " " +:+ title)]).
      split; [by rewrite <- !app_assoc|]. split.
      * apply Forall_app. split; [done | by repeat constructor].
      * split; [|done]. unfold code_blocks in *.
        by rewrite filter_app, length_app, Hf2.
  - rewrite Hf, Hc. exists []. by rewrite app_nil_r.
Qed.

Lemma run_appends lines : forall st st',
  run st lines = Ok st' ->
  exists added,
    doc st' = doc st ++ added /\
    Forall (fun b => is_title b = false) added /\
    2 * code_blocks added + (if in_code_block st' then 1 else 0)
      = fences lines + (if in_code_block st then 1 else 0).
Proof.
  induction lines as [|line lines IH]; simpl; intros st st' H.
  - injection H as <-. exists []. by rewrite app_nil_r.
  - apply bind_ok_inv in H as (st1 & Hstep & H).
    apply step_appends in Hstep as (a1 & Hd1 & Ht1 & Hc1 & Hin1).
    apply IH in H as (a2 & Hd2 & Ht2 & Hc2).
    exists (a1 ++ a2). split; [by rewrite Hd2, Hd1, app_assoc|].
    split; [by apply Forall_app|].
    unfold code_blocks, fences in *. rewrite filter_app, length_app.
    rewrite filter_cons. rewrite Hin1 in Hc2.
    destruct (is_fence line), (in_code_block st); simpl in *;
      rewrite ?decide_True, ?decide_False by done; simpl; lia.
Qed.

(** X7.  The document that [generate_doc] saves starts with the title
    that it was given, and nothing after it is a title. *)
Theorem title_first_and_only text title d :
  generate_doc text title = Ok d ->
  exists body,
    d = Title title :: body /\ Forall (fun b => is_title b = false) body.
Proof.
  unfold generate_doc, generate_lines. intros H.
  apply bind_ok_inv in H as (st & Hrun & H). injection H as <-.
  apply run_appends in Hrun as (added & Hd & Ht & _).
  destruct (flush_appends st) as [Hf _]. simpl. rewrite Hd. simpl.
  eexists. split; [done|]. by apply Forall_app.
Qed.

Lemma title_first_and_only_witness :
  exists body,
    [Title "T"; Heading "1. A"; Paragraph [("x", false)]] = Title "T" :: body
    /\ Forall (fun b => is_title b = false) body.
Proof.
  apply (title_first_and_only ("1. A" +:+ NL +:+ "x") "T"). reflexivity.
Defined.

(** X8.  The saved document holds one code block for every pair of fence
    lines of the text, whatever stands between and around them: half the
    number of fence lines, rounded down, so that a fence left open adds
    none. *)
Theorem code_block_per_fence_pair text title d :
  generate_doc text title = Ok d ->
  code_blocks d = fences (splitlines text) / 2.
Proof.
  unfold generate_doc, generate_lines. intros H.
  apply bind_ok_inv in H as (st & Hrun & H). injection H as <-.
  apply run_appends in Hrun as (added & Hd & _ & Hc).
  destruct (flush_appends st) as [_ Hf].
  remember (fences (splitlines text)) as n eqn:Hn.
  remember (n / 2) as q eqn:Hq.
  simpl in Hd, Hc. simpl. rewrite Hd.
  unfold code_blocks in *. simpl. rewrite filter_cons. simpl.
  rewrite filter_app, length_app, Hf, Nat.add_0_r. subst q.
  destruct (in_code_block st).
  - apply (Nat.div_unique _ 2 _ 1); lia.
  - apply (Nat.div_unique _ 2 _ 0); lia.
Qed.

Lemma code_block_per_fence_pair_witness :
  code_blocks [Title "T"; CodeBlock "x"]
    = fences (splitlines ("```" +:+ NL +:+ "x" +:+ NL +:+ "```" +:+ NL +:+
                          "```" +:+ NL +:+ "y")) / 2.
Proof.
  apply (code_block_per_fence_pair _ "T"). reflexivity.
Defined.

(** X9.  No two headings of the saved document have the same text. *)
Theorem headings_distinct text title d :
  generate_doc text title = Ok d -> NoDup (headings d).
Proof.
  unfold generate_doc, generate_lines. intros H.
  apply bind_ok_inv in H as (st & Hrun & H). injection H as <-.
  apply flush_section_inv. eapply run_inv; [|exact Hrun]. apply doc_inv_init.
Qed.

Lemma headings_distinct_witness :
  NoDup (headings [Title "T"; Heading "1. A"; Paragraph [("x", false)];
                   Paragraph [("y", false)]]).
Proof.
  apply (headings_distinct
           ("1. A" +:+ NL +:+ "x" +:+ NL +:+ "1. A" +:+ NL +:+ "y") "T").
  reflexivity.
Defined.

Lemma step_no_table st line :
  in_table st = false -> no_table_row line ->
  exists st', step st line = Ok st' /\ in_table st' = false.
Proof.
  unfold no_table_row, step. intros Ht Hrow. rewrite Hrow, Ht.
  rewrite bool_decide_eq_false_2 by (by intros [? ?]).
  destruct (is_empty (strip line)); [eauto|].
  destruct (startswith (strip line) "```").
  { eexists. split; [done|]. unfold on_fence.
    by destruct (negb (in_code_block st)). }
  destruct (in_code_block st); [eauto|].
  destruct (section_header_pattern (strip line)) as [[number t]|]; [eauto|].
  destruct (subheading_pattern (strip line)) as [[[main sub] t]|]; eauto.
Qed.

Lemma run_no_table lines : forall st,
  in_table st = false -> Forall no_table_row lines ->
  exists st', run st lines = Ok st' /\ in_table st' = false.
Proof.
  induction lines as [|line lines IH]; intros st Ht Hrows; simpl; [eauto|].
  apply Forall_cons in Hrows as [Hrow Hrows].
  destruct (step_no_table st line Ht Hrow) as (st1 & -> & Ht1). simpl.
  by apply IH.
Qed.

(** X10.  On a title and a text that python-docx takes (no control
    character other than tab, line feed and carriage return)
    [generate_doc] can fail in one way only, with the [IndexError] of the
    commit of a table; when moreover no line of the text is a table row,
    it returns a document. *)
Theorem generate_doc_fails_on_tables_only text title :
  docx_text title -> docx_text text ->
  (forall e, generate_doc text title = Raise e -> e = IndexError) /\
  (Forall no_table_row (splitlines text) ->
   exists d, generate_doc text title = Ok d).
Proof.
  intros _ _. unfold generate_doc, generate_lines. split.
  - intros e H.
    destruct (run (init title) (splitlines text)) as [st|e'] eqn:Hrun;
      [done|].
    injection H as <-. by eapply GenerateDoc.run_raises.
  - intros Hrows.
    destruct (run_no_table (splitlines text) (init title) eq_refl Hrows)
      as (st & -> & _).
    simpl. eauto.
Qed.

Lemma generate_doc_fails_on_tables_only_witness :
  exists d,
    generate_doc ("1. A" +:+ NL +:+ "a | b" +:+ NL +:+ "```") "T" = Ok d.
Proof.
  apply (proj2 (generate_doc_fails_on_tables_only
                  ("1. A" +:+ NL +:+ "a | b" +:+ NL +:+ "```") "T"
                  eq_refl eq_refl)).
  repeat constructor.
Defined.

Lemma step_strip st line : step st (strip line) = step st line.
Proof. unfold step. by rewrite strip_idempotent. Qed.

Lemma run_stripped lines : forall st,
  run st (stripped_lines lines) = run st lines.
Proof.
  unfold stripped_lines.
  induction lines as [|line lines IH]; intros st; simpl; [done|].
  rewrite filter_cons. destruct (is_empty (strip line)) eqn:Hblank.
  - rewrite decide_False by done. rewrite IH.
    unfold step. by rewrite Hblank.
  - rewrite decide_True by done. simpl. rewrite step_strip.
    destruct (step st line) as [st1|e]; simpl; [apply IH | done].
Qed.

(** X11.  Only the stripped, non-blank lines of the text count: two texts
    that agree on these lines give the same document, or fail alike. *)
Theorem blank_lines_and_margins_ignored t1 t2 title :
  stripped_lines (splitlines t1) = stripped_lines (splitlines t2) ->
  generate_doc t1 title = generate_doc t2 title.
Proof.
  intros H. unfold generate_doc, generate_lines.
  by rewrite <- (run_stripped (splitlines t1)),
             <- (run_stripped (splitlines t2)), H.
Qed.

Lemma blank_lines_and_margins_ignored_witness :
  generate_doc ("  1. A  " +:+ NL +:+ NL +:+ "   " +:+ NL +:+ " x") "T"
    = generate_doc ("1. A" +:+ NL +:+ "x" +:+ NL) "T".
Proof.
  apply blank_lines_and_margins_ignored. reflexivity.
Defined.

(** outside code blocks and tables, a turn of the loop accounts for one
    more paragraph exactly when its line is plain content *)
Lemma step_content st line st' :
  in_code_block st = false -> in_table st = false ->
  is_fence line = false -> no_table_row line ->
  step st line = Ok st' ->
  accounted st'
    = accounted st ++ (if is_plain line then [paragraph_of (strip line)]
                       else []) /\
  in_code_block st' = false /\ in_table st' = false.
Proof.
  unfold no_table_row. intros Hcode Htable Hfence Hrow H.
  apply step_branches in H. cbv zeta in H. unfold is_plain.
  unfold is_fence in Hfence. rewrite Hfence, Hrow.
  rewrite (bool_decide_eq_false_2 (is_Some None)) by (by intros [? ?]).
  destruct H as [[Hb ->]|[(Hb & Hf & ->)|[(Hb & Hf & Hc & ->)|
    [(Hb & Hf & Hc & Hr & ->)|[(Hb & Hf & Hc & Hr & Ht & H)|
    [(Hb & Hf & Hc & Hr & Ht & number & title & Hm & ->)|
    [(Hb & Hf & Hc & Hr & Ht & Hm & main & sub & title & Hs & ->)|
     (Hb & Hf & Hc & Hr & Ht & Hm & Hs & ->)]]]]]]]; rewrite Hb; simpl.
  - by rewrite app_nil_r.
  - unfold is_fence in Hf. congruence.
  - congruence.
  - rewrite Hrow in Hr. by destruct Hr.
  - congruence.
  - rewrite Hm. rewrite bool_decide_eq_true_2 by eauto. simpl.
    rewrite app_nil_r. split; [|done].
    rewrite <- (GenerateDoc.accounted_flush st). unfold on_main_section.
    cbv zeta. by generalize (flush_section st).
  - rewrite Hm, Hs.
    rewrite (bool_decide_eq_false_2 (is_Some None)) by (by intros [? ?]).
    rewrite bool_decide_eq_true_2 by eauto. simpl.
    rewrite app_nil_r. split; [|done].
    rewrite <- (GenerateDoc.accounted_flush st). unfold on_subsection.
    cbv zeta. generalize (flush_section st). intros st1.
    unfold accounted, add_subheading, add_heading. cbn [doc current_content].
    destruct (_ && _); rewrite !GenerateDoc.paragraphs_app; simpl;
      by rewrite ?app_nil_r.
  - rewrite Hm, Hs.
    rewrite (bool_decide_eq_false_2 (is_Some None)) by (by intros [? ?]).
    simpl. split; [|done]. unfold accounted. simpl.
    by rewrite map_app, app_assoc.
Qed.

Lemma run_content lines : forall st st',
  in_code_block st = false -> in_table st = false ->
  Forall (fun l => is_fence l = false /\ no_table_row l) lines ->
  run st lines = Ok st' ->
  accounted st'
    = accounted st ++ map (fun l => paragraph_of (strip l))
                        (filter (fun l => is_plain l = true) lines).
Proof.
  induction lines as [|line lines IH]; simpl; intros st st' Hc Ht Hall H.
  - injection H as <-. by rewrite app_nil_r.
  - apply Forall_cons in Hall as [[Hf Hr] Hall].
    apply bind_ok_inv in H as (st1 & Hstep & H).
    destruct (step_content _ _ _ Hc Ht Hf Hr Hstep) as (Hacc & Hc1 & Ht1).
    rewrite (IH _ _ Hc1 Ht1 Hall H), Hacc, filter_cons.
    destruct (is_plain line).
    + rewrite decide_True by done. simpl. by rewrite <- app_assoc.
    + rewrite decide_False by done. by rewrite app_nil_r.
Qed.

(** X12.  On a title and a text that python-docx takes (no control
    character other than tab, line feed and carriage return), the text
    without fence lines and table rows, [generate_doc] returns, and the
    paragraphs of the document are the lines of plain content, stripped,
    one paragraph per line and in the order of the text. *)
Theorem paragraphs_in_order text title :
  docx_text title -> docx_text text ->
  Forall (fun l => is_fence l = false /\ no_table_row l) (splitlines text) ->
  exists d,
    generate_doc text title = Ok d /\
    paragraphs d
      = map (fun l => paragraph_of (strip l))
          (filter (fun l => is_plain l = true) (splitlines text)).
Proof.
  intros _ _ Hall. unfold generate_doc, generate_lines.
  destruct (run_no_table (splitlines text) (init title) eq_refl)
    as (st & Hrun & _).
  { eapply Forall_impl; [exact Hall|]. by intros l [_ ?]. }
  rewrite Hrun. simpl. eexists. split; [done|].
  pose proof (run_content _ (init title) _ eq_refl eq_refl Hall Hrun) as Hacc.
  rewrite <- (GenerateDoc.accounted_flush st) in Hacc.
  unfold accounted in Hacc at 1. simpl in Hacc.
  rewrite app_nil_r in Hacc. simpl. by rewrite Hacc.
Qed.

Lemma paragraphs_in_order_witness :
  exists d,
    generate_doc ("intro" +:+ NL +:+ "1. A" +:+ NL +:+ " x " +:+ NL +:+
                  "1.1 B" +:+ NL +:+ "y") "T" = Ok d /\
    paragraphs d
      = [Paragraph [("intro", false)]; Paragraph [("x", false)];
         Paragraph [("y", false)]].
Proof.
  exact (paragraphs_in_order
           ("intro" +:+ NL +:+ "1. A" +:+ NL +:+ " x " +:+ NL +:+
            "1.1 B" +:+ NL +:+ "y") "T" eq_refl eq_refl
           ltac:(repeat constructor)).
Defined.

(** *** Subheadings stand under a heading of their number *)

Lemma under_heading_app d added :
  under_heading d -> Forall (fun b => is_subheading b = false) added ->
  under_heading (d ++ added).
Proof.
  intros Hd Hadded pre t post Heq.
  apply app_eq_app in Heq as [l [[-> Hl]|[-> Hl]]].
  - destruct l as [|b l]; simpl in Hl.
    + subst added. by apply Forall_inv in Hadded.
    + injection Hl as <- ->.
      destruct (Hd pre t l eq_refl) as (main & Hm & Ht & h & Hh & Hs).
      exists main. eauto.
  - subst added. apply Forall_app in Hadded as [_ Hadded].
    by apply Forall_inv in Hadded.
Qed.

Lemma under_heading_snoc d t main :
  under_heading d ->
  all_chars is_digit main = true ->
  startswith t (main +:+ ".") = true ->
  (exists h, h ∈ headings d /\ startswith h (main +:+ ". ") = true) ->
  under_heading (d ++ [Subheading t]).
Proof.
  intros Hd Hm Ht (h & Hh & Hs) pre t' post Heq.
  apply app_eq_app in Heq as [l [[-> Hl]|[-> Hl]]].
  - destruct l as [|b l]; simpl in Hl.
    + injection Hl as <- ->. rewrite app_nil_r in Hh.
      exists main. eauto.
    + injection Hl as <- ->.
      destruct (Hd pre t' l eq_refl) as (main' & ? & ? & h' & ? & ?).
      exists main'. eauto.
  - destruct l as [|b l]; simpl in Hl.
    + injection Hl as -> <-. rewrite app_nil_r.
      exists main. eauto.
    + injection Hl as _ Hl. by destruct l.
Qed.

Lemma flush_not_subheading st :
  Forall (fun b => is_subheading b = false)
    (flush_heading st ++ map paragraph_of (current_content st)).
Proof.
  apply Forall_app. split.
  - unfold flush_heading. destruct (_ && _); by repeat constructor.
  - induction (current_content st); by constructor.
Qed.

(** after a flush every known number is the number of a heading of the
    document *)
Lemma flush_section_covers st n :
  doc_inv st -> covered st -> n ∈ known_main_sections st ->
  exists h, h ∈ headings (doc (flush_section st))
            /\ startswith h (n +:+ ". ") = true.
Proof.
  intros Hinv Hcov Hn. destruct (Hcov n Hn) as [(h & Hh & Hs)|Hs].
  - exists h. split; [|done].
    eapply headings_prefix; [apply flush_section_prefix | done].
  - exists (current_section st). split; [|done].
    assert (Hne : is_empty (current_section st) = false).
    { destruct (current_section st); [|done].
      rewrite startswith_nil in Hs; [done|]. by destruct n. }
    simpl. rewrite !headings_app, headings_paragraphs, app_nil_r.
    unfold flush_heading. rewrite Hne. simpl.
    destruct (bool_decide (current_section st ∉ seen_sections st)) eqn:Hseen;
      simpl.
    + apply elem_of_app. right. by left.
    + apply bool_decide_eq_false in Hseen. rewrite app_nil_r.
      apply (inv_seen _ Hinv). by apply dec_stable.
Qed.

Lemma covered_grows st st' :
  covered st ->
  doc st `prefix_of` doc st' ->
  known_main_sections st' = known_main_sections st ->
  current_section st' = current_section st ->
  covered st'.
Proof.
  intros Hcov Hpre Hk Hc n Hn. rewrite Hk in Hn. rewrite Hc.
  destruct (Hcov n Hn) as [(h & Hh & Hs)|Hs]; [left | by right].
  exists h. split; [by eapply headings_prefix | done].
Qed.

Lemma step_under_heading st line st' :
  doc_inv st -> covered st -> under_heading (doc st) ->
  step st line = Ok st' ->
  covered st' /\ under_heading (doc st').
Proof.
  intros Hinv Hcov Hund H.
  pose proof (step_prefix _ _ _ H) as Hpre.
  apply step_branches in H. cbv zeta in H.
  destruct H as [[Hb ->]|[(Hb & Hf & ->)|[(Hb & Hf & Hc & ->)|
    [(Hb & Hf & Hc & Hr & ->)|[(Hb & Hf & Hc & Hr & Ht & H)|
    [(Hb & Hf & Hc & Hr & Ht & number & title & Hm & ->)|
    [(Hb & Hf & Hc & Hr & Ht & Hm & main & sub & title & Hs & ->)|
     (Hb & Hf & Hc & Hr & Ht & Hm & Hs & ->)]]]]]]].
  - done.
  - split.
    + eapply covered_grows; [done..| |]; unfold on_fence;
        by destruct (negb (in_code_block st)).
    + unfold on_fence, add_code_block.
      destruct (negb (in_code_block st)); simpl; [done|].
      apply under_heading_app; [done | by repeat constructor].
  - done.
  - done.
  - unfold on_table_end in H. cbv zeta in H.
    apply bind_ok_inv in H as (doc' & Htab & H). injection H as <-.
    apply add_markdown_table_inv in Htab as (hdr & body & Hdoc').
    split.
    + by eapply covered_grows.
    + simpl. rewrite Hdoc'. simpl.
      apply under_heading_app; [|by repeat constructor].
      apply under_heading_app; [done | apply flush_not_subheading].
  - split.
    + intros n Hn. simpl in Hn. apply elem_of_union in Hn as [Hn|Hn].
      * left. by apply flush_section_covers.
      * right. apply elem_of_singleton in Hn. subst n. simpl.
        rewrite <- StrFacts.append_assoc. apply startswith_self_app.
    + simpl. apply under_heading_app; [done | apply flush_not_subheading].
  - pose proof (flush_section_inv _ Hinv) as Hinv1.
    pose proof (flush_section_covers st) as Hcov1.
    assert (Hund1 : under_heading (doc (flush_section st))).
    { simpl. apply under_heading_app; [done | apply flush_not_subheading]. }
    assert (Hk1 : known_main_sections (flush_section st)
                  = known_main_sections st) by done.
    apply subheading_shape in Hs as (Hdig & _).
    assert (Htext : startswith (main +:+ "." +:+ sub +:+ " " +:+ title)
                      (main +:+ ".") = true).
    { rewrite <- StrFacts.append_assoc. apply startswith_self_app. }
    assert (Hauto : startswith (auto_title main) (main +:+ ". ") = true).
    { unfold auto_title. by rewrite startswith_app. }
    unfold on_subsection. cbv zeta. revert Hinv1 Hcov1 Hund1 Hk1.
    generalize (flush_section st). intros st1 Hinv1 Hcov1 Hund1 Hk1.
    destruct (bool_decide (main ∉ known_main_sections st1)) eqn:Hknown;
      [destruct (bool_decide (auto_title main ∉ seen_sections st1))
         eqn:Hseen|];
      simpl; unfold add_subheading, add_heading.
    + split.
      * intros n Hn. simpl in Hn |- *. left.
        apply elem_of_union in Hn as [Hn|Hn].
        -- rewrite Hk1 in Hn. destruct (Hcov1 n Hinv Hcov Hn) as (h & Hh & Hs).
           exists h. split; [|done]. rewrite !headings_app.
           apply elem_of_app. left. apply elem_of_app. by left.
        -- apply elem_of_singleton in Hn. subst n.
           exists (auto_title main). split; [|done].
           rewrite !headings_app. simpl. rewrite app_nil_r.
           apply elem_of_app. right. by left.
      * eapply under_heading_snoc; [|done..|].
        -- apply under_heading_app; [done | by repeat constructor].
        -- exists (auto_title main). split; [|done].
           rewrite headings_app. apply elem_of_app. right. by left.
    + apply bool_decide_eq_false in Hseen.
      assert (Hin : auto_title main ∈ headings (doc st1)).
      { apply (inv_seen _ Hinv1). by apply dec_stable. }
      split.
      * intros n Hn. simpl in Hn |- *. left. rewrite Hk1 in Hn.
        destruct (Hcov1 n Hinv Hcov Hn) as (h & Hh & Hs).
        exists h. split; [|done]. rewrite headings_app.
        apply elem_of_app. by left.
      * eapply under_heading_snoc; [done..|]. eauto.
    + apply bool_decide_eq_false in Hknown.
      assert (Hin : main ∈ known_main_sections st1) by by apply dec_stable.
      rewrite Hk1 in Hin. split.
      * intros n Hn. simpl in Hn |- *. left. rewrite Hk1 in Hn.
        destruct (Hcov1 n Hinv Hcov Hn) as (h & Hh & Hs).
        exists h. split; [|done]. rewrite headings_app.
        apply elem_of_app. by left.
      * eapply under_heading_snoc; [done..|]. by apply Hcov1.
  - done.
Qed.

Lemma run_under_heading lines : forall st st',
  doc_inv st -> covered st -> under_heading (doc st) ->
  run st lines = Ok st' ->
  covered st' /\ under_heading (doc st').
Proof.
  induction lines as [|line lines IH]; simpl; intros st st' Hinv Hcov Hund H.
  - by injection H as <-.
  - apply bind_ok_inv in H as (st1 & Hstep & H).
    destruct (step_under_heading _ _ _ Hinv Hcov Hund Hstep) as [Hcov1 Hund1].
    eapply IH; [by eapply step_inv | done..].
Qed.

(** X13.  No subheading of the saved document is an orphan: before every
    subheading "N.M ..." the document holds a heading that starts with
    "N. ", the heading of the main section of that number or the
    placeholder that the loop inserted for it. *)
Theorem subheadings_under_heading text title d :
  generate_doc text title = Ok d -> under_heading d.
Proof.
  unfold generate_doc, generate_lines. intros H.
  apply bind_ok_inv in H as (st & Hrun & H). injection H as <-.
  destruct (run_under_heading _ _ _ (doc_inv_init title)
              ltac:(by intros n Hn; simpl in Hn; set_solver)
              ltac:(by intros [|? [|? ?]] ? ? ?) Hrun) as [_ Hund].
  simpl. apply under_heading_app; [done | apply flush_not_subheading].
Qed.

Lemma subheadings_under_heading_witness :
  under_heading [Title "T"; Heading "2. (Auto) Section"; Subheading "2.1 Scope";
                 Paragraph [("Covers EU only.", false)]].
Proof.
  apply (subheadings_under_heading
           ("2.1 Scope" +:+ NL +:+ "Covers EU only." +:+ NL) "T").
  reflexivity.
Defined.

(** X14.  A flush leaves nothing to flush: a second [flush_section]
    right after the first adds no heading and no paragraph and changes
    nothing else. *)
Theorem flush_section_idempotent st :
  flush_section (flush_section st) = flush_section st.
Proof.
  destruct st as [d cs cc seen icb cbl it tl known].
  unfold flush_section, flush_heading. simpl.
  destruct (negb (is_empty cs) && bool_decide (cs ∉ seen)) eqn:Hemit; simpl.
  - rewrite (bool_decide_eq_false_2 (cs ∉ seen ∪ {[cs]})) by set_solver.
    rewrite andb_false_r. by rewrite !app_nil_r.
  - rewrite Hemit. by rewrite !app_nil_r.
Qed.

(** *** The line that ends a table *)

Lemma table_row_dispatch l :
  is_Some (table_line_pattern l) ->
  is_empty l = false /\ startswith l "```" = false.
Proof.
  intros [u H]. unfold table_line_pattern in H.
  apply one_inv in H as (c & s1 & -> & Hc & _).
  apply Ascii.eqb_eq in Hc. by subst c.
Qed.

Lemma run_fences_even lines st st' :
  in_code_block st = false -> Nat.even (fences lines) = true ->
  run st lines = Ok st' -> in_code_block st' = false.
Proof.
  intros Hc Heven H.
  apply run_appends in H as (added & _ & _ & Hcount). rewrite Hc in Hcount.
  destruct (in_code_block st'); [|done].
  replace (fences lines) with (S (2 * code_blocks added)) in Heven by lia.
  rewrite Nat.even_succ, Nat.odd_mul in Heven. done.
Qed.

(** X15.  The line that ends a table is consumed by the commit of the
    table: whether it is a heading, a subheading or plain content, the loop
    does not look at its text, so two texts that differ in such a line only
    give the same document. *)
Theorem line_after_table_dropped pre row l1 l2 post title :
  Nat.even (fences pre) = true ->
  is_Some (table_line_pattern (strip row)) ->
  closes_table l1 -> closes_table l2 ->
  generate_lines (pre ++ row :: l1 :: post) title
    = generate_lines (pre ++ row :: l2 :: post) title.
Proof.
  intros Heven Hrow. revert l1 l2.
  unfold generate_lines. intros l1 l2. rewrite !run_app.
  destruct (run (init title) pre) as [st|e] eqn:Hpre; [|done].
  pose proof (run_fences_even pre (init title) st eq_refl Heven Hpre) as Hcode.
  destruct (table_row_dispatch _ Hrow) as [Hb Hf].
  assert (Hstep : step st row = Ok (on_table_line st (strip row))).
  { unfold step. rewrite Hb, Hf, Hcode. by rewrite bool_decide_eq_true_2. }
  intros Hc1 Hc2.
  assert (Hend : forall l, closes_table l ->
            step (on_table_line st (strip row)) l
              = on_table_end (on_table_line st (strip row))).
  { intros l (Hbl & Hfl & Hrl). unfold step.
    unfold is_fence, no_table_row in *. rewrite Hbl, Hfl, Hrl.
    rewrite bool_decide_eq_false_2 by (by intros [? ?]).
    simpl. by rewrite Hcode. }
  simpl. rewrite Hstep. simpl. by rewrite !Hend.
Qed.

Lemma line_after_table_dropped_witness :
  generate_lines (["intro"] ++ "| a |" :: "2. Scope" :: ["text"]) "T"
    = generate_lines (["intro"] ++ "| a |" :: "anything" :: ["text"]) "T".
Proof.
  apply line_after_table_dropped; repeat split; eauto.
Defined.

(** *** The title *)

Lemma add_markdown_table_with_doc b1 b2 rest lines :
  add_markdown_table (b2 :: rest) lines
    = match add_markdown_table (b1 :: rest) lines with
      | Ok d => Ok (b2 :: tail d)
      | Raise e => Raise e
      end.
Proof.
  unfold add_markdown_table. destruct lines as [|line0 lines]; [done|].
  destruct (fill 0 _ _) as [hdr|e]; simpl; [|done].
  by destruct (fill_rows _ _) as [body|e].
Qed.

(** a turn of the loop does not look at the first block of the document *)
Lemma step_with_doc b1 b2 rest st line :
  doc st = b1 :: rest ->
  step (with_doc (b2 :: rest) st) line
    = match step st line with
      | Ok st' => Ok (with_doc (b2 :: tail (doc st')) st')
      | Raise e => Raise e
      end.
Proof.
  destruct st as [d cs cc seen icb cbl it tl known]. simpl. intros ->.
  unfold step, with_doc. simpl.
  destruct (is_empty (strip line)); [done|].
  destruct (startswith (strip line) "```").
  { unfold on_fence. simpl. by destruct icb. }
  destruct icb; [done|].
  destruct (bool_decide (is_Some (table_line_pattern (strip line)))); [done|].
  destruct it.
  { unfold on_table_end, flush_section, flush_heading. simpl.
    rewrite (add_markdown_table_with_doc b1 b2).
    by destruct (add_markdown_table _ tl). }
  destruct (section_header_pattern (strip line)) as [[number title]|]; [done|].
  destruct (subheading_pattern (strip line)) as [[[main sub] title]|]; [|done].
  unfold on_subsection, flush_section, flush_heading. simpl.
  by destruct (bool_decide (main ∉ known) && _).
Qed.

Lemma run_with_doc lines : forall b1 b2 rest st,
  doc st = b1 :: rest ->
  run (with_doc (b2 :: rest) st) lines
    = match run st lines with
      | Ok st' => Ok (with_doc (b2 :: tail (doc st')) st')
      | Raise e => Raise e
      end.
Proof.
  induction lines as [|line lines IH]; intros b1 b2 rest st Hd; simpl.
  - by rewrite Hd.
  - rewrite (step_with_doc b1 b2 rest st line Hd).
    destruct (step st line) as [st1|e] eqn:Hstep; simpl; [|done].
    apply step_prefix in Hstep as [k Hk]. rewrite Hd in Hk.
    rewrite Hk. simpl. by apply (IH b1 b2).
Qed.

(** X16.  The title shows in the first block of the document and nowhere
    else: the functional and the technical specification of one text are
    the same document from the second block on, and the one fails exactly
    when the other does. *)
Theorem title_changes_first_block_only text :
  DocxApi.create_technical_spec_docx text
    = match DocxApi.create_functional_spec_docx text with
      | Ok d => Ok (retitle "TECHNICAL SPECIFICATION" d)
      | Raise e => Raise e
      end.
Proof.
  unfold DocxApi.create_technical_spec_docx,
    DocxApi.create_functional_spec_docx, generate_doc, generate_lines.
  pose proof (run_with_doc (splitlines text)
                (Title "FUNCTIONAL SPECIFICATION")
                (Title "TECHNICAL SPECIFICATION") []
                (init "FUNCTIONAL SPECIFICATION") eq_refl) as H.
  change (with_doc [Title "TECHNICAL SPECIFICATION"]
            (init "FUNCTIONAL SPECIFICATION"))
    with (init "TECHNICAL SPECIFICATION") in H.
  rewrite H.
  destruct (run (init "FUNCTIONAL SPECIFICATION") (splitlines text))
    as [st|e] eqn:Hrun; simpl; [|done].
  apply run_prefix in Hrun as [k Hk]. simpl in Hk. by rewrite Hk.
Qed.

End Documents.

(** ** The result of [split_sections] *)

Module Sections.
Import PyStr Re Generator Spec Shape StripFacts.

Section Quiet.
Context (try : option ascii -> string -> option (string * nat)).

(** a text without a match is the only part of its split *)
Lemma split_quiet x :
  (forall prev a b, x = a +:+ b -> try prev b = None) ->
  forall cur prev, split_pieces cur (scan try prev 0 x) = [cur +:+ x].
Proof.
  induction x as [|c x IH]; intros Hq cur prev; simpl.
  - by rewrite StrFacts.append_nil_r.
  - rewrite (Hq prev EmptyString (String c x) eq_refl). simpl.
    rewrite IH; [by rewrite StrFacts.append_assoc|].
    intros prev' a b ->. by apply (Hq prev' (String c a) b).
Qed.
End Quiet.

Lemma strip_no_section x :
  no_section x -> startswith (strip x) "SECTION:" = false.
Proof.
  intros Hx. destruct (startswith (strip x) "SECTION:") eqn:Hs; [|done].
  apply startswith_iff in Hs as [t Ht]. unfold strip, strip_chars in Ht.
  destruct (lstrip_suffix is_space x) as (pre & Hpre & _).
  destruct (rstrip_prefix is_space (lstrip_chars is_space x))
    as (suf & Hsuf & _).
  rewrite Ht in Hsuf. rewrite Hsuf in Hpre.
  assert (Hb : startswith (("SECTION:" +:+ t) +:+ suf) "SECTION" = true).
  { apply startswith_iff. by exists (":" +:+ t +:+ suf). }
  by rewrite (Hx _ _ Hpre) in Hb.
Qed.

Lemma split_no_section text :
  no_section text ->
  split_document text = Ok [] /\ split_document3 text = Ok [].
Proof.
  intros Hocc.
  unfold split_document, split_document3, split.
  rewrite (NormalizeFacts.normalize_without_section _ Hocc).
  rewrite split_quiet.
  - rewrite StrFacts.append_nil_l. unfold walk, walk3. cbn [for_each]. split.
    + by rewrite WalkFacts.walk_step_no_section by by apply strip_no_section.
    + unfold walk_step3. rewrite (strip_no_section _ Hocc).
      by destruct (is_empty (strip text)).
  - intros prev a b Hab. unfold canonical_header.
    change (lit "SECTION:" b ?k) with (lit "SECTION" b (fun r => lit ":" r k)).
    apply NormalizeFacts.lit_none. by eapply Hocc.
Qed.

(** X17.  A requirement text in which the word SECTION does not occur has
    no sections: [split_sections] returns the empty dict for it, in
    generator1 and in generator3 alike, and the text is dropped. *)
Theorem split_document_without_header text :
  occurs "SECTION" text = false ->
  split_document text = Ok [] /\ split_document3 text = Ok [].
Proof.
  intros Hocc. by apply split_no_section, NormalizeFacts.occurs_no_section.
Qed.

Lemma split_document_without_header_witness :
  split_document ("Do X." +:+ NL +:+ "Section 1. Purpose") = Ok [] /\
  split_document3 ("Do X." +:+ NL +:+ "Section 1. Purpose") = Ok [].
Proof.
  apply split_document_without_header. reflexivity.
Defined.

(** *** Keys and bodies *)

Section Entries.
Context (P : string * string -> Prop).

Lemma Forall_set k v d : Forall P d -> P (k, v) -> Forall P (PyDict.set k v d).
Proof.
  intros Hd Hkv. induction Hd as [|[k' v'] d Hx Hd IH]; simpl.
  - by constructor.
  - destruct (String.eqb_spec k k') as [->|Hne]; by constructor.
Qed.

Lemma lookup_Forall k v d :
  Forall P d -> PyDict.lookup k d = Some v -> P (k, v).
Proof.
  induction 1 as [|[k' v'] d Hx Hd IH]; simpl; [done|].
  destruct (String.eqb_spec k k') as [->|Hne]; [by intros [= <-] | done].
Qed.
End Entries.

Lemma NoDup_keys_set (k v : string) d :
  NoDup (PyDict.keys d) -> NoDup (PyDict.keys (PyDict.set k v d)).
Proof.
  intros Hnd. destruct (PyDict.mem k d) eqn:Hmem.
  - by rewrite DictFacts.keys_set_mem.
  - rewrite DictFacts.set_fresh by done. unfold PyDict.keys.
    rewrite map_app. simpl. apply NoDup_app.
    split; [done|]. split; [|apply NoDup_singleton].
    intros x Hx Hx'. apply list_elem_of_singleton in Hx'. subst x.
    apply DictFacts.mem_keys in Hx. congruence.
Qed.

(** the text that a body part adds keeps the body a section body *)
Lemma body_grows v part :
  is_empty (strip part) = false ->
  section_body (v +:+ strip (strip part) +:+ NL).
Proof.
  intros Hne. right. rewrite strip_idempotent.
  destruct (strip_head _ Hne) as (c & r & -> & Hc). split.
  - rewrite ReFacts.all_chars_app. simpl. rewrite Hc. apply andb_false_r.
  - rewrite <- StrFacts.append_assoc. apply endswith_app.
Qed.

Lemma consumed_app_l (a s rest : string) :
  String.length rest <= String.length s ->
  consumed (a +:+ s) rest = a +:+ consumed s rest.
Proof.
  intros Hlen. unfold consumed. induction a as [|c a IH]; [done|].
  rewrite StrFacts.append_cons. simpl String.length.
  rewrite StrFacts.length_append in *.
  replace (S (String.length a + String.length s) - String.length rest)
    with (S (String.length a + String.length s - String.length rest)) by lia.
  simpl. by rewrite IH.
Qed.

(** the key that generator1 makes of a header part *)
Lemma header_key_of_match part g1 n :
  canonical_header None part = Some (g1, n) -> header_key (strip g1).
Proof.
  unfold canonical_header. intros H.
  apply NormalizeFacts.lit_inv in H as (s1 & -> & H).
  ReFacts.consume H. injection H as <- _.
  split; [|apply strip_idempotent].
  rewrite consumed_app_l by lia. apply startswith_iff.
  match goal with |- context [consumed ?s ?r] => generalize (consumed s r) end.
  intros t. unfold strip, strip_chars.
  assert (Hl : lstrip_chars is_space ("SECTION:" +:+ t) = "SECTION:" +:+ t)
    by reflexivity.
  rewrite Hl, (rstrip_keeps is_space "SECTION:" t eq_refl). eauto.
Qed.

Lemma walk_step_shape st part st' :
  Forall (fun entry => header_key entry.1 /\ section_body entry.2) (snd st) ->
  walk_step st part = Ok st' ->
  Forall (fun entry => header_key entry.1 /\ section_body entry.2) (snd st').
Proof.
  destruct st as [cur result]. simpl. intros Hres. unfold walk_step.
  destruct (is_empty (strip part)) eqn:He; [by intros [= <-]|].
  destruct (startswith (strip part) "SECTION:") eqn:Hs.
  - destruct (canonical_header None (strip part)) as [[g1 n]|] eqn:Hm;
      [|by intros [= <-]].
    destruct (PyDict.mem (strip g1) result); intros [= <-]; simpl; [done|].
    apply Forall_set; [done|]. simpl. split; [|by left].
    by eapply header_key_of_match.
  - destruct cur as [cs|]; [|by intros [= <-]].
    destruct (truthy (Some cs)); [|by intros [= <-]].
    unfold PyDict.iadd.
    destruct (PyDict.lookup cs result) as [v|] eqn:Hv; [|done].
    simpl. intros [= <-]. simpl. apply Forall_set; [done|].
    split; [|by apply body_grows].
    by apply (lookup_Forall _ _ _ _ Hres Hv).
Qed.

(** X18.  The dict that [split_sections] of generator1 returns for a
    requirement text is well formed: no key occurs twice, every key starts
    with "SECTION:" and has no white space around it, and every body is
    empty or is text that is not blank and ends with a line feed. *)
Theorem split_document_well_formed text result :
  split_document text = Ok result -> well_formed result.
Proof.
  unfold split_document, walk. intros H.
  apply DocxFacts.bind_ok_inv in H as (st & Hrun & H). injection H as <-.
  split.
  - destruct (WalkFacts.for_each_walk_ok
                (split canonical_header (normalize text)) _
                WalkFacts.walk_inv_init)
      as (st' & Hrun' & Hinv & _).
    rewrite Hrun in Hrun'. injection Hrun' as <-. apply Hinv.
  - revert Hrun. generalize (split canonical_header (normalize text)).
    assert (Hinit : Forall (fun entry : string * string =>
                              header_key entry.1 /\ section_body entry.2)
                      (snd (None : option string, [] : list (string * string))))
      by constructor.
    revert Hinit.
    generalize (None : option string, [] : list (string * string)).
    intros st0 Hinit parts. revert st0 Hinit.
    induction parts as [|part parts IH]; simpl; intros st0 Hinit H.
    + by injection H as <-.
    + apply DocxFacts.bind_ok_inv in H as (st1 & Hstep & H).
      eapply IH; [|exact H]. by eapply walk_step_shape.
Qed.

Lemma split_document_well_formed_witness :
  well_formed [("SECTION: 1. Purpose", "Do X." +:+ NL);
               ("SECTION: 2. Scope", "Do Y." +:+ NL)].
Proof.
  apply (split_document_well_formed
           ("SECTION:1. Purpose" +:+ NL +:+ "Do X." +:+ NL +:+
            "SECTION 2. Scope" +:+ NL +:+ "Do Y." +:+ NL)).
  reflexivity.
Defined.

(** a turn of the loop of generator3 never raises and keeps the result
    well formed *)
Lemma walk_step3_ok st part :
  walk_inv st ->
  Forall (fun entry => header_key entry.1 /\ section_body entry.2) (snd st) ->
  exists st',
    walk_step3 st part = Ok st' /\ walk_inv st' /\
    Forall (fun entry => header_key entry.1 /\ section_body entry.2) (snd st').
Proof.
  destruct st as [cur result]. intros [Hnd Hcur] Hres. simpl in *.
  unfold walk_step3.
  destruct (is_empty (strip part)) eqn:He.
  { eexists. split; [done|]. by split. }
  destruct (startswith (strip part) "SECTION:") eqn:Hs.
  - eexists. split; [done|]. split; [split|]; simpl.
    + by apply NoDup_keys_set.
    + apply DictFacts.mem_lookup. rewrite DictFacts.lookup_set_eq. eauto.
    + apply Forall_set; [done|]. simpl. split; [|by left].
      split; [done | apply strip_idempotent].
  - destruct cur as [cs|]; simpl.
    2:{ eexists. split; [done|]. by split. }
    destruct (is_empty cs) eqn:Hcs; simpl.
    { eexists. split; [done|]. by split. }
    unfold PyDict.iadd.
    destruct (proj1 (DictFacts.mem_lookup _ _) Hcur) as [v Hv]. rewrite Hv.
    simpl. eexists. split; [done|]. split; [split|]; simpl.
    + by rewrite DictFacts.keys_set_mem.
    + apply DictFacts.mem_lookup. rewrite DictFacts.lookup_set_eq. eauto.
    + apply Forall_set; [done|]. split; [|by apply body_grows].
      by apply (lookup_Forall _ _ _ _ Hres Hv).
Qed.

Lemma split_document3_ok text :
  exists result, split_document3 text = Ok result /\ well_formed result.
Proof.
  unfold split_document3, walk3.
  generalize (split canonical_header (normalize text)). intros parts.
  assert (H : forall st,
    walk_inv st ->
    Forall (fun entry => header_key entry.1 /\ section_body entry.2) (snd st) ->
    exists st',
      for_each walk_step3 st parts = Ok st' /\ walk_inv st' /\
      Forall (fun entry => header_key entry.1 /\ section_body entry.2)
        (snd st')).
  { induction parts as [|part parts IH]; intros st Hinv Hres; simpl.
    - by exists st.
    - destruct (walk_step3_ok st part Hinv Hres) as (st1 & -> & Hinv1 & Hres1).
      simpl. by apply IH. }
  destruct (H (None, []) WalkFacts.walk_inv_init ltac:(by constructor))
    as (st & -> & [Hnd _] & Hres).
  simpl. exists (snd st). by repeat split.
Qed.

(** X19.  [split_sections] of generator3 (and of generator4) returns for
    every requirement text: its loop raises no [KeyError], and the dict
    that it returns is well formed in the same sense as that of
    generator1. *)
Theorem split_document3_total text :
  exists result, split_document3 text = Ok result /\ well_formed result.
Proof. apply split_document3_ok. Qed.

End Sections.

(** ** [process_payload_and_generate_abap] and [assemble_program] *)

Module Programs.
Import PyStr Generator Spec Program Shape StripFacts.

Lemma present_bodies_nil mapped_sections :
  present_bodies [] mapped_sections = [].
Proof.
  unfold present_bodies. induction mapped_sections as [|sec l IH]; [done|].
  by rewrite filter_cons.
Qed.

Section Llm.
Context (json_loads : string -> option pyval).
Context (llm_invoke : nat -> string -> string).

Lemma answered_mono ps ps' entry :
  ps `prefix_of` ps' ->
  answered llm_invoke ps entry -> answered llm_invoke ps' entry.
Proof.
  intros Hpre [H|(n & prompt & Hn & H)]; [by left|].
  right. exists n, prompt. split; [|done].
  by eapply prefix_lookup_Some.
Qed.

(** a turn of the loop assigns to its section and sends at most one
    prompt *)
Lemma section_step_inv m d r ps abap_section r' ps' :
  section_step llm_invoke m d (r, ps) abap_section = (r', ps') ->
  ps `prefix_of` ps' /\
  exists v,
    r' = PyDict.set abap_section v r /\
    answered llm_invoke ps' (abap_section, v).
Proof.
  unfold section_step.
  destruct (is_empty (combined_requirements d (PyDict.get abap_section [] m))).
  - intros [= <- <-]. split; [done|]. eexists. split; [done|]. by left.
  - intros [= <- <-]. split; [by apply prefix_app_r|].
    eexists. split; [done|]. right. eexists _, _. split; [|done].
    by rewrite lookup_app_r, Nat.sub_diag.
Qed.

Lemma fold_sections m d sections : forall r ps r' ps',
  NoDup sections ->
  (forall s, s ∈ sections -> s ∉ PyDict.keys r) ->
  Forall (answered llm_invoke ps) r ->
  fold_left (section_step llm_invoke m d) sections (r, ps) = (r', ps') ->
  ps `prefix_of` ps' /\
  PyDict.keys r' = PyDict.keys r ++ sections /\
  Forall (answered llm_invoke ps') r'.
Proof.
  induction sections as [|s sections IH]; intros r ps r' ps' Hnd Hfresh Hr H;
    cbn [fold_left] in H.
  - injection H as <- <-. by rewrite app_nil_r.
  - destruct (section_step llm_invoke m d (r, ps) s) as [r1 ps1] eqn:Hstep.
    apply section_step_inv in Hstep as (Hpre & v & -> & Hv).
    apply NoDup_cons in Hnd as [Hs Hnd].
    assert (Hmem : PyDict.mem s r = false).
    { destruct (PyDict.mem s r) eqn:Hmem; [|done].
      apply DictFacts.mem_keys in Hmem. destruct (Hfresh s); [by left | done]. }
    rewrite DictFacts.set_fresh in H by done.
    assert (Hfresh1 : forall x, x ∈ sections ->
              x ∉ PyDict.keys (r ++ [(s, v)])).
    { intros x Hx. unfold PyDict.keys. rewrite map_app. simpl.
      intros Hin. apply elem_of_app in Hin as [Hin|Hin].
      - destruct (Hfresh x); [by right | done].
      - apply list_elem_of_singleton in Hin. by subst x. }
    assert (Hr1 : Forall (answered llm_invoke ps1) (r ++ [(s, v)])).
    { apply Forall_app. split; [|by apply Forall_singleton].
      eapply Forall_impl; [exact Hr|]. intros e. by apply answered_mono. }
    destruct (IH _ _ _ _ Hnd Hfresh1 Hr1 H) as (Hpre' & Hkeys & Hall).
    split; [by etrans|]. split; [|done].
    rewrite Hkeys. unfold PyDict.keys. rewrite map_app. simpl.
    by rewrite <- app_assoc.
Qed.

(** X20.  When [split_sections] returns, the result of
    [process_payload_and_generate_abap] has the four keys of
    [ABAP_SECTIONS], in this order, whatever the mapping is; every value is
    the marker "[Error: No requirements found]" or the stripped answer to
    one of the prompts that were sent. *)
Theorem every_section_has_an_entry payload udd_mapping abap_result prompts :
  process_payload_and_generate_abap json_loads llm_invoke payload udd_mapping
    = Ok (abap_result, prompts) ->
  PyDict.keys abap_result = ABAP_SECTIONS /\
  Forall (fun entry =>
            entry.2 = no_requirements_found \/
            exists n prompt,
              prompts !! n = Some prompt /\
              entry.2 = strip (llm_invoke n prompt))
    abap_result.
Proof.
  unfold process_payload_and_generate_abap. intros H.
  apply DocxFacts.bind_ok_inv in H as (sections_dict & _ & H).
  assert (H' : fold_left
                 (section_step llm_invoke
                    (mapping_or_default DEFAULT_UDD_MAPPING udd_mapping)
                    sections_dict) ABAP_SECTIONS ([], [])
               = (abap_result, prompts)) by congruence.
  apply fold_sections in H' as (_ & Hkeys & Hall).
  - done.
  - exact (bool_decide_unpack (NoDup ABAP_SECTIONS) I).
  - intros s _ Hs. inversion Hs.
  - constructor.
Qed.

Lemma section_step_nil m r ps abap_section :
  section_step llm_invoke m [] (r, ps) abap_section
    = (PyDict.set abap_section no_requirements_found r, ps).
Proof.
  unfold section_step, combined_requirements.
  by rewrite present_bodies_nil.
Qed.

(** X21.  A requirement text without the word SECTION gives no
    requirements to any section: no prompt is sent, each of the four
    entries is the marker "[Error: No requirements found]", and
    [assemble_program] joins the four markers into the program text. *)
Theorem no_sections_no_call d text udd_mapping :
  PyDict.lookup "REQUIREMENT" d = Some (VStr text) ->
  occurs "SECTION" text = false ->
  let unanswered :=
    map (fun abap_section => (abap_section, no_requirements_found))
      ABAP_SECTIONS in
  process_payload_and_generate_abap json_loads llm_invoke (VDict d) udd_mapping
    = Ok (unanswered, []) /\
  assemble_program unanswered
    = join NL2 (replicate 4 no_requirements_found).
Proof.
  intros Hd Hocc unanswered. split; [|reflexivity].
  assert (Hsplit : split_sections json_loads (VDict d) = Ok []).
  { unfold split_sections, load_requirement, PyDict.get. simpl. rewrite Hd.
    apply NormalizeFacts.occurs_no_section in Hocc.
    apply (Sections.split_no_section text Hocc). }
  unfold process_payload_and_generate_abap. rewrite Hsplit.
  unfold mbind, res_bind, ABAP_SECTIONS. cbn [fold_left].
  by rewrite !section_step_nil.
Qed.

Lemma section_step_empty m d r ps abap_section :
  combined_requirements d (PyDict.get abap_section [] m) = EmptyString ->
  section_step llm_invoke m d (r, ps) abap_section
    = (PyDict.set abap_section no_requirements_found r, ps).
Proof. intros H. unfold section_step. by rewrite H. Qed.

Lemma section_step_call m d r ps abap_section :
  combined_requirements d (PyDict.get abap_section [] m) <> EmptyString ->
  let prompt :=
    prompt_of abap_section (context_code (context_parts abap_section r))
      (combined_requirements d (PyDict.get abap_section [] m)) in
  section_step llm_invoke m d (r, ps) abap_section
    = (PyDict.set abap_section (strip (llm_invoke (length ps) prompt)) r,
       ps ++ [prompt]).
Proof.
  intros H. unfold section_step.
  by destruct (combined_requirements d (PyDict.get abap_section [] m)).
Qed.

(** a prompt that is given code that starts with the marker holds the
    marker as code of the previous sections *)
Lemma prompt_holds_marker abap_section tail combined :
  occurs ("Here is the code from previous sections:" +:+ NL +:+
          no_requirements_found)
    (prompt_of abap_section (no_requirements_found +:+ tail) combined) = true.
Proof.
  apply occurs_iff. unfold prompt_of.
  assert (Hne : is_empty (no_requirements_found +:+ tail) = false) by done.
  rewrite Hne. cbn [negb].
  eexists (NL +:+ "You are an expert ABAP developer." +:+ NL +:+
           "Generate ONLY the **" +:+ replace_char "_" " " abap_section +:+
           "** part of the ABAP program." +:+ NL +:+ NL +:+
           "Rules:" +:+ NL +:+
           "- Do NOT include REPORT statement." +:+ NL +:+
           "- Do NOT include unrelated sections." +:+ NL +:+
           "- Only return ABAP code for this section." +:+ NL +:+
           "- No explanations, only ABAP code." +:+ NL +:+ NL),
          (tail +:+ NL +:+ NL +:+ "Requirements:" +:+ NL +:+ combined +:+ NL).
  by rewrite !StrFacts.append_assoc.
Qed.

(** X22.  The marker of a section without requirements is handed on as
    code: when the global declarations have no requirements and the
    processing logic has, the entry of the global declarations is the
    marker "[Error: No requirements found]", and the prompt that is built
    for the processing logic, from the marker and the entry of the
    selection screen as the code of the previous sections and from the
    requirements of the processing logic, is among the prompts sent; the
    answer to that very call, stripped, is the entry of the processing
    logic, and the prompt holds the marker right after the line "Here is
    the code from previous sections:". *)
Theorem error_marker_reaches_prompt payload udd_mapping sections :
  let m := mapping_or_default DEFAULT_UDD_MAPPING udd_mapping in
  let combined :=
    combined_requirements sections (PyDict.get "processing_logic" [] m) in
  split_sections json_loads payload = Ok sections ->
  combined_requirements sections (PyDict.get "global_declaration" [] m)
    = EmptyString ->
  combined <> EmptyString ->
  exists abap_result prompts n screen,
    let prompt :=
      prompt_of "processing_logic"
        (context_code [no_requirements_found; screen]) combined in
    process_payload_and_generate_abap json_loads llm_invoke payload udd_mapping
      = Ok (abap_result, prompts) /\
    PyDict.lookup "global_declaration" abap_result
      = Some no_requirements_found /\
    PyDict.lookup "selection_screen" abap_result = Some screen /\
    prompts !! n = Some prompt /\
    PyDict.lookup "processing_logic" abap_result
      = Some (strip (llm_invoke n prompt)) /\
    occurs ("Generate ONLY the **processing logic** part") prompt = true /\
    occurs ("Here is the code from previous sections:" +:+ NL +:+
            no_requirements_found) prompt = true.
Proof.
  intros m combined Hsplit Hglobal Hlogic.
  unfold process_payload_and_generate_abap. fold m. rewrite Hsplit.
  unfold mbind, res_bind, ABAP_SECTIONS. cbn [fold_left].
  rewrite (section_step_empty m sections [] [] "global_declaration" Hglobal).
  destruct (section_step llm_invoke m sections
              (PyDict.set "global_declaration" no_requirements_found [], [])
              "selection_screen") as [r2 ps2] eqn:Hstep2.
  apply section_step_inv in Hstep2 as (_ & screen & -> & _).
  rewrite (section_step_call m sections _ ps2 "processing_logic" Hlogic).
  cbv zeta. fold combined.
  change (context_parts "processing_logic" ?r)
    with [PyDict.get "global_declaration" EmptyString r;
          PyDict.get "selection_screen" EmptyString r].
  assert (Hg : PyDict.get "global_declaration" EmptyString
                 (PyDict.set "selection_screen" screen
                    (PyDict.set "global_declaration" no_requirements_found []))
               = no_requirements_found) by done.
  assert (Hs : PyDict.get "selection_screen" EmptyString
                 (PyDict.set "selection_screen" screen
                    (PyDict.set "global_declaration" no_requirements_found []))
               = screen).
  { unfold PyDict.get. by rewrite DictFacts.lookup_set_eq. }
  rewrite Hg, Hs.
  match goal with
  | |- context [section_step _ _ _ (?r3, ps2 ++ [?p]) _] =>
      destruct (section_step llm_invoke m sections (r3, ps2 ++ [p])
                  "output_display") as [r4 ps4] eqn:Hstep4
  end.
  apply section_step_inv in Hstep4 as (Hpre & v4 & -> & _).
  exists (PyDict.set "output_display" v4
            (PyDict.set "processing_logic"
               (strip (llm_invoke (length ps2)
                  (prompt_of "processing_logic"
                     (context_code [no_requirements_found; screen])
                     combined)))
               (PyDict.set "selection_screen" screen
                  (PyDict.set "global_declaration" no_requirements_found
                     [])))),
    ps4, (length ps2), screen.
  cbv zeta. split; [done|].
  rewrite !(DictFacts.lookup_set_ne "output_display") by done.
  rewrite !(DictFacts.lookup_set_ne "processing_logic") by done.
  rewrite !DictFacts.lookup_set_eq.
  split; [done|]. split; [done|]. split; [|split; [done|split]].
  - eapply prefix_lookup_Some; [|exact Hpre].
    by rewrite lookup_app_r, Nat.sub_diag.
  - apply occurs_iff. unfold prompt_of.
    eexists (NL +:+ "You are an expert ABAP developer." +:+ NL), _.
    rewrite !StrFacts.append_assoc. reflexivity.
  - assert (Hcode : exists tail,
      context_code [no_requirements_found; screen]
      = no_requirements_found +:+ tail).
    { unfold context_code. destruct screen as [|c screen]; cbn; eauto. }
    destruct Hcode as [tail ->]. apply prompt_holds_marker.
Qed.

(** *** Which sections are answered *)

Lemma join_empty (xs : list string) :
  join NL2 xs = EmptyString <-> xs = [] \/ xs = [EmptyString].
Proof.
  destruct xs as [|x [|y xs]]; simpl.
  - split; [by left | done].
  - split; [intros ->; by right | by intros [?|[= ->]]].
  - split; [|by intros [?|?]]. intros H.
    apply (f_equal String.length) in H.
    rewrite !StrFacts.length_append in H. simpl in H. lia.
Qed.

Lemma fold_keeps m d sections : forall r ps r' ps' s,
  s ∉ sections ->
  fold_left (section_step llm_invoke m d) sections (r, ps) = (r', ps') ->
  PyDict.lookup s r' = PyDict.lookup s r /\ ps `prefix_of` ps'.
Proof.
  induction sections as [|s0 sections IH]; intros r ps r' ps' s Hs H;
    cbn [fold_left] in H.
  - by injection H as <- <-.
  - destruct (section_step llm_invoke m d (r, ps) s0) as [r1 ps1] eqn:Hstep.
    apply section_step_inv in Hstep as (Hpre & v & -> & _).
    apply not_elem_of_cons in Hs as [Hne Hs].
    destruct (IH _ _ _ _ s Hs H) as [Hl Hpre'].
    split; [|by etrans]. rewrite Hl. by apply DictFacts.lookup_set_ne.
Qed.

Lemma prompt_ends abap_section code combined :
  Shape.endswith (prompt_of abap_section code combined)
    ("Requirements:" +:+ NL +:+ combined +:+ NL) = true.
Proof.
  unfold prompt_of.
  rewrite <- !(StrFacts.append_assoc _ _
                 ("Requirements:" +:+ NL +:+ combined +:+ NL)).
  apply endswith_app.
Qed.

Lemma fold_stores m d sections : forall r ps r' ps',
  NoDup sections ->
  fold_left (section_step llm_invoke m d) sections (r, ps) = (r', ps') ->
  forall s, s ∈ sections -> stored llm_invoke m d r' ps' s.
Proof.
  induction sections as [|s0 sections IH]; intros r ps r' ps' Hnd H s Hs;
    cbn [fold_left] in H.
  - inversion Hs.
  - apply NoDup_cons in Hnd as [Hs0 Hnd].
    apply elem_of_cons in Hs as [->|Hs].
    2:{ destruct (section_step llm_invoke m d (r, ps) s0) as [r1 ps1].
        by eapply IH. }
    destruct (combined_requirements d (PyDict.get s0 [] m)) as [|c comb]
      eqn:Hcomb.
    + rewrite (section_step_empty _ _ _ _ _ Hcomb) in H.
      destruct (fold_keeps _ _ _ _ _ _ _ s0 Hs0 H) as [Hl _].
      unfold stored. cbv zeta. rewrite Hcomb. split; [|done]. intros _.
      by rewrite Hl, DictFacts.lookup_set_eq.
    + assert (Hne : combined_requirements d (PyDict.get s0 [] m)
                    <> EmptyString) by by rewrite Hcomb.
      rewrite (section_step_call _ _ _ _ _ Hne) in H. cbv zeta in H.
      destruct (fold_keeps _ _ _ _ _ _ _ s0 Hs0 H) as [Hl Hpre].
      unfold stored. cbv zeta. split; [by rewrite Hcomb|]. intros _.
      eexists (length ps), _. split; [|split].
      * eapply prefix_lookup_Some; [|exact Hpre].
        by rewrite lookup_app_r, Nat.sub_diag.
      * apply prompt_ends.
      * by rewrite Hl, DictFacts.lookup_set_eq.
Qed.

(** X23.  A section gets the marker "[Error: No requirements found]"
    exactly when none of its mapped sections is in the text, or just one
    is and its body is empty; in every other case, also when two or more
    are present with empty bodies, a prompt that ends with the joined
    bodies is sent and the stripped answer is stored. *)
Theorem marker_without_requirements payload udd_mapping sections
    abap_result prompts abap_section :
  let m := mapping_or_default DEFAULT_UDD_MAPPING udd_mapping in
  let bodies := present_bodies sections (PyDict.get abap_section [] m) in
  split_sections json_loads payload = Ok sections ->
  process_payload_and_generate_abap json_loads llm_invoke payload udd_mapping
    = Ok (abap_result, prompts) ->
  abap_section ∈ ABAP_SECTIONS ->
  (bodies = [] \/ bodies = [EmptyString] ->
   PyDict.lookup abap_section abap_result = Some no_requirements_found) /\
  (~ (bodies = [] \/ bodies = [EmptyString]) ->
   exists n prompt,
     prompts !! n = Some prompt /\
     Shape.endswith prompt
       ("Requirements:" +:+ NL +:+ join NL2 bodies +:+ NL) = true /\
     PyDict.lookup abap_section abap_result
       = Some (strip (llm_invoke n prompt))).
Proof.
  intros m bodies Hsplit H Hs.
  unfold process_payload_and_generate_abap in H. fold m in H.
  rewrite Hsplit in H.
  assert (H' : fold_left (section_step llm_invoke m sections) ABAP_SECTIONS
                 ([], []) = (abap_result, prompts)).
  { unfold mbind, res_bind in H. congruence. }
  pose proof (fold_stores m sections ABAP_SECTIONS [] [] abap_result prompts
                (bool_decide_unpack (NoDup ABAP_SECTIONS) I) H'
                abap_section Hs) as [Hempty Hcall].
  unfold combined_requirements in *. fold bodies in Hempty, Hcall.
  rewrite <- join_empty. split; [apply Hempty | apply Hcall].
Qed.

End Llm.

Lemma marker_without_requirements_witness :
  PyDict.lookup "selection_screen"
    [("global_declaration", "REPORT z.");
     ("selection_screen", no_requirements_found);
     ("processing_logic", "REPORT z.");
     ("output_display", "REPORT z.")]
    = Some no_requirements_found.
Proof.
  refine (proj1 (marker_without_requirements (fun _ => None)
            (fun _ _ => "REPORT z.")
            (VDict [("REQUIREMENT",
                     VStr ("SECTION: 4. User Interface" +:+ NL +:+
                           "SECTION: 5. Technical Architecture" +:+ NL))])
            None
            [("SECTION: 4. User Interface", EmptyString);
             ("SECTION: 5. Technical Architecture", EmptyString)]
            _ _ "selection_screen" _ _ _) _).
  - reflexivity.
  - vm_compute. reflexivity.
  - unfold ABAP_SECTIONS. set_solver.
  - right. reflexivity.
Defined.

Lemma every_section_has_an_entry_witness :
  PyDict.keys [("global_declaration", no_requirements_found);
               ("selection_screen", no_requirements_found);
               ("processing_logic", "REPORT z.");
               ("output_display", no_requirements_found)]
    = ABAP_SECTIONS.
Proof.
  apply (every_section_has_an_entry (fun _ => None) (fun _ _ => " REPORT z. ")
           (VDict [("REQUIREMENT",
                    VStr ("SECTION: 1. Purpose" +:+ NL +:+ "Do X."))])
           None _ [prompt_of "processing_logic"
                     (no_requirements_found +:+ NL2 +:+ no_requirements_found)
                     ("Do X." +:+ NL)]).
  vm_compute. reflexivity.
Defined.

Lemma no_sections_no_call_witness :
  process_payload_and_generate_abap (fun _ => None) (fun _ _ => "REPORT z.")
    (VDict [("REQUIREMENT", VStr "Print a list.")]) None
    = Ok ([("global_declaration", no_requirements_found);
           ("selection_screen", no_requirements_found);
           ("processing_logic", no_requirements_found);
           ("output_display", no_requirements_found)], []).
Proof.
  apply (no_sections_no_call (fun _ => None) (fun _ _ => "REPORT z.")
           [("REQUIREMENT", VStr "Print a list.")] "Print a list." None);
    reflexivity.
Defined.

Lemma error_marker_reaches_prompt_witness :
  exists abap_result prompts n screen,
    let prompt :=
      prompt_of "processing_logic"
        (context_code [no_requirements_found; screen])
        ("Do X." +:+ NL) in
    process_payload_and_generate_abap (fun _ => None) (fun _ _ => "REPORT z.")
      (VDict [("REQUIREMENT",
               VStr ("SECTION: 1. Purpose" +:+ NL +:+ "Do X."))]) None
      = Ok (abap_result, prompts) /\
    PyDict.lookup "global_declaration" abap_result
      = Some no_requirements_found /\
    PyDict.lookup "selection_screen" abap_result = Some screen /\
    prompts !! n = Some prompt /\
    PyDict.lookup "processing_logic" abap_result
      = Some (strip ("REPORT z.")) /\
    occurs ("Generate ONLY the **processing logic** part") prompt = true /\
    occurs ("Here is the code from previous sections:" +:+ NL +:+
            no_requirements_found) prompt = true.
Proof.
  apply (error_marker_reaches_prompt (fun _ => None) (fun _ _ => "REPORT z.")
           _ None [("SECTION: 1. Purpose", "Do X." +:+ NL)]).
  - reflexivity.
  - reflexivity.
  - vm_compute. discriminate.
Defined.

End Programs.

(** ** [generate_full_abap_program] *)

Module FullPrograms.
Import PyStr Re Generator Spec Shape FullProgram StripFacts.

Lemma startswith_fence s :
  startswith s "```" = true <-> 3 <= run_length backtick s.
Proof.
  rewrite startswith_iff. split.
  - intros [t ->]. simpl. lia.
  - intros H. unfold backtick in H.
    destruct s as [|a s]; simpl in H; [lia|].
    destruct (Ascii.eqb_spec a "`") as [->|]; [|lia].
    destruct s as [|b s]; simpl in H; [lia|].
    destruct (Ascii.eqb_spec b "`") as [->|]; [|lia].
    destruct s as [|c s]; simpl in H; [lia|].
    destruct (Ascii.eqb_spec c "`") as [->|]; [|lia].
    by exists s.
Qed.

(** the pattern matches exactly where three backticks stand *)
Lemma code_fence_none prev s :
  code_fence prev s = None <-> run_length backtick s < 3.
Proof.
  unfold code_fence, alt, opt_group.
  destruct (startswith s "```") eqn:Hs.
  - pose proof (proj1 (startswith_fence s) Hs) as Hrun.
    apply startswith_iff in Hs as [t ->].
    rewrite !NormalizeFacts.lit_app.
    split; [|lia]. by destruct (lit "abap" t _).
  - rewrite !NormalizeFacts.lit_none by done. split; [|done]. intros _.
    destruct (decide (3 <= run_length backtick s)) as [H|H]; [|lia].
    apply startswith_fence in H. congruence.
Qed.

(** what is left of a text once the fences are taken out holds no three
    backticks in a row *)
Lemma fences_removed s : forall prev skip,
  let out := sub_pieces (fun _ : unit => EmptyString)
               (scan code_fence prev skip s) in
  occurs "```" out = false /\
  (skip = 0 -> run_length backtick s < 3 ->
   run_length backtick out = run_length backtick s).
Proof.
  induction s as [|c s IH]; intros prev skip; cbn zeta.
  - by destruct skip.
  - simpl scan. destruct skip as [|k].
    2:{ split; [apply IH | done]. }
    destruct (code_fence prev (String c s)) as [[u n]|] eqn:Hf.
    + cbn [sub_pieces]. rewrite StrFacts.append_nil_l. split; [apply IH|].
      intros _ Hrun. apply (proj2 (code_fence_none prev _)) in Hrun.
      congruence.
    + apply code_fence_none in Hf.
      destruct (IH (Some c) 0) as [Hocc Hlead]. cbn zeta in *.
      simpl sub_pieces. simpl in Hf.
      assert (Hrun : run_length backtick
                       (String c (sub_pieces (fun _ : unit => EmptyString)
                                    (scan code_fence (Some c) 0 s)))
                     = run_length backtick (String c s)).
      { simpl. destruct (backtick c); [|done]. rewrite Hlead; [done..|lia]. }
      split; [|done]. cbn [occurs]. rewrite Hocc, orb_false_r.
      destruct (startswith _ "```") eqn:Hs; [|done].
      apply startswith_fence in Hs. rewrite Hrun in Hs. simpl in Hs. lia.
Qed.

Lemma occurs_strip t x : occurs t x = false -> occurs t (strip x) = false.
Proof.
  intros Hx. destruct (occurs t (strip x)) eqn:Hs; [|done].
  apply occurs_iff in Hs as (a & b & Hs). unfold strip, strip_chars in Hs.
  destruct (lstrip_suffix is_space x) as (pre & Hpre & _).
  destruct (rstrip_prefix is_space (lstrip_chars is_space x))
    as (suf & Hsuf & _).
  rewrite Hs in Hsuf. rewrite Hsuf in Hpre.
  assert (Hocc : occurs t x = true).
  { apply occurs_iff. exists (pre +:+ a), (b +:+ suf).
    rewrite Hpre. by rewrite !StrFacts.append_assoc. }
  congruence.
Qed.

Lemma strip_fences_clean code : occurs "```" (strip_fences code) = false.
Proof.
  unfold strip_fences, sub. apply occurs_strip.
  apply (fences_removed code None 0).
Qed.

(** X24.  Taking the fences out is idempotent: a text that went through
    the cleaning of the answer is not changed by a second pass. *)
Theorem strip_fences_idempotent code :
  strip_fences (strip_fences code) = strip_fences code.
Proof.
  pose proof (strip_fences_clean code) as Hclean.
  assert (Hsub : sub code_fence (fun _ => EmptyString) (strip_fences code)
                 = strip_fences code).
  { apply NormalizeFacts.sub_no_hit, NormalizeFacts.scan_quiet.
    intros prev a b Hab. apply code_fence_none.
    destruct (decide (3 <= run_length backtick b)) as [H|H]; [|lia].
    apply startswith_fence, startswith_iff in H as [t ->].
    assert (Hocc : occurs "```" (strip_fences code) = true).
    { apply occurs_iff. by exists a, t. }
    congruence. }
  unfold strip_fences at 1. rewrite Hsub.
  unfold strip_fences. apply strip_idempotent.
Qed.

(** *** The requirements that are collected *)

Lemma blank_join xs :
  all_chars is_space (join Program.NL2 xs) = true
  <-> Forall (fun x => all_chars is_space x = true) xs.
Proof.
  induction xs as [|x [|y xs] IH].
  - split; [constructor | done].
  - simpl. by rewrite Forall_singleton.
  - change (join Program.NL2 (x :: y :: xs))
      with (x +:+ Program.NL2 +:+ join Program.NL2 (y :: xs)).
    assert (Hsep : all_chars is_space Program.NL2 = true) by done.
    rewrite !ReFacts.all_chars_app, Hsep, !andb_true_iff, IH, !Forall_cons.
    intuition.
Qed.

Lemma collect_bodies m sections :
  well_formed sections -> Forall section_body (collect m sections).
Proof.
  intros [_ Hres]. unfold collect.
  apply Forall_flat_map, Forall_forall. intros entry _.
  apply Forall_flat_map, Forall_forall. intros section _.
  destruct (PyDict.lookup section sections) as [body|] eqn:Hb;
    [|constructor].
  apply Forall_singleton.
  apply (Sections.lookup_Forall _ _ _ _ Hres Hb).
Qed.

Lemma no_requirements_iff bodies :
  Forall section_body bodies ->
  strip (join Program.NL2 bodies) = EmptyString
  <-> Forall (fun body => body = EmptyString) bodies.
Proof.
  intros Hb. rewrite strip_blank, blank_join. split; intros H.
  - apply Forall_forall. intros x Hx.
    pose proof (proj1 (Forall_forall _ _) H x Hx) as Hblank.
    destruct (proj1 (Forall_forall _ _) Hb x Hx) as [->|[Hne _]]; [done|].
    simpl in *. congruence.
  - eapply Forall_impl; [exact H|]. by intros x ->.
Qed.

Section Llm.
Context (json_loads : string -> option pyval).
Context (llm_invoke : string -> string).

(** X25.  The program text that [generate_full_abap_program] returns
    holds no Markdown fence: whatever the model answers, three backticks
    in a row do not occur in it. *)
Theorem program_has_no_fence payload udd_mapping code :
  generate_full_abap_program json_loads llm_invoke payload udd_mapping
    = Ok code ->
  occurs "```" code = false.
Proof.
  unfold generate_full_abap_program. intros H.
  apply DocxFacts.bind_ok_inv in H as (sections & _ & H).
  destruct (is_empty _); [done|]. injection H as <-.
  apply strip_fences_clean.
Qed.

(** X26.  [generate_full_abap_program] raises [ValueError] exactly when
    every mapped section that the requirement text holds has an empty
    body (in particular when it holds none); otherwise it sends one prompt,
    built from the bodies joined by blank lines, and returns the answer
    without its fences. *)
Theorem value_error_iff_no_requirements payload udd_mapping sections :
  split_sections3 json_loads payload = Ok sections ->
  let bodies :=
    collect (Program.mapping_or_default DEFAULT_UDD_MAPPING udd_mapping)
      sections in
  (Forall (fun body => body = EmptyString) bodies ->
   generate_full_abap_program json_loads llm_invoke payload udd_mapping
     = Raise ValueError) /\
  (~ Forall (fun body => body = EmptyString) bodies ->
   generate_full_abap_program json_loads llm_invoke payload udd_mapping
     = Ok (strip_fences
             (llm_invoke
                (draft_prompt (strip (join Program.NL2 bodies)))))).
Proof.
  intros Hsplit bodies.
  assert (Hwf : well_formed sections).
  { unfold split_sections3 in Hsplit.
    apply DocxFacts.bind_ok_inv in Hsplit as ([text| |] & _ & Hdoc);
      try done.
    destruct (Sections.split_document3_ok text) as (r & Hr & Hwf).
    congruence. }
  pose proof (no_requirements_iff bodies (collect_bodies _ _ Hwf)) as Hiff.
  unfold generate_full_abap_program. rewrite Hsplit.
  unfold mbind, res_bind. fold bodies. split; intros H.
  - apply Hiff in H. by rewrite H.
  - destruct (strip (join Program.NL2 bodies)) eqn:Hs; [|done].
    destruct H. by apply Hiff.
Qed.

End Llm.

Lemma program_has_no_fence_witness :
  occurs "```" ("REPORT z." +:+ NL +:+ "WRITE 'x'.") = false.
Proof.
  apply (program_has_no_fence (fun _ => None)
           (fun _ => "```abap" +:+ NL +:+ "REPORT z." +:+ NL +:+
                     "WRITE 'x'." +:+ NL +:+ "```")
           (VDict [("REQUIREMENT",
                    VStr ("SECTION: 1. Purpose" +:+ NL +:+ "Do X."))])
           None).
  vm_compute. reflexivity.
Defined.

Lemma value_error_iff_no_requirements_witness :
  generate_full_abap_program (fun _ => None) (fun _ => "REPORT z.")
    (VDict [("REQUIREMENT",
             VStr ("SECTION: 4. User Interface" +:+ NL +:+
                   "SECTION: 11. Glossary" +:+ NL +:+ "Terms."))]) None
    = Raise ValueError.
Proof.
  apply (value_error_iff_no_requirements (fun _ => None) (fun _ => "REPORT z.")
           _ None [("SECTION: 4. User Interface", EmptyString);
                   ("SECTION: 11. Glossary", "Terms." +:+ NL)]).
  - vm_compute. reflexivity.
  - vm_compute. repeat constructor.
Defined.

End FullPrograms.
